(** * Verification of the card image pipeline ([omniscript.py])

    The program crops and downscales the images of a [Print] folder into a
    [Share] folder, tiles them into grid images, and copies them under
    normalised names into a [Forge] folder.  This development embeds the
    three stages and the orchestrator as functions on an explicit file
    system state and proves the properties the specification states about
    them.

    - Python [float]s are IEEE 754 binary64 numbers: [SpecFloat] with
      precision 53 and [emax = 1024], round to nearest, ties to even.
    - Python [str] values are strings of UTF-8 bytes; the operations used
      by the program ([lower] on ASCII letters, [endswith], [lstrip] over
      an ASCII class, [replace] of one character, comparison by code point)
      act on the encoding as they act on the code points.
    - A directory is a finite map from entry names to files, the file system
      a finite map from directory paths to directories.  A file that holds
      an image is identified with the image written to it.
    - Pixel data is kept symbolic: the history of Pillow operations that
      produced it. *)

From Stdlib Require Import ZArith Lia Reals Lra.
From Stdlib Require Import String Ascii DecimalString DecimalPos DecimalZ.
From Stdlib Require Import Floats.SpecFloat.
From Stdlib Require Import Sorting.Sorted Sorting.Permutation.
From stdpp Require Import gmap strings list.

Local Open Scope Z_scope.

(** * Part I: the embedding *)

(** ** Doubles *)

Module F64.

Definition prec : Z := 53.
Definition emax : Z := 1024.

Definition fmul : spec_float -> spec_float -> spec_float := SFmul prec emax.
Definition fdiv : spec_float -> spec_float -> spec_float := SFdiv prec emax.
Definition fsub : spec_float -> spec_float -> spec_float := SFsub prec emax.
Definition fabs : spec_float -> spec_float := SFabs.
Definition fle : spec_float -> spec_float -> bool := SFleb.
Definition feq : spec_float -> spec_float -> bool := SFeqb.

(** Python's [float(n)] for an [int]: round to nearest, ties to even. *)
Definition of_int (n : Z) : spec_float := binary_normalize prec emax n 0 false.

(** Python's [a / b] on two [int]s below [2 ^ 53] in magnitude (the fast
    path of CPython's [long_true_divide]): the correctly rounded quotient of
    the two doubles; [None] stands for [ZeroDivisionError]. *)
Definition int_truediv (a b : Z) : option spec_float :=
  if b =? 0 then None else Some (fdiv (of_int a) (of_int b)).

(** Python's [int(x)] on a double: truncation toward zero; [None] for the
    infinities and NaN, on which Python raises. *)
Definition trunc (x : spec_float) : option Z :=
  match x with
  | S754_zero _ => Some 0
  | S754_finite s m e =>
      Some (cond_Zopp s (if 0 <=? e then Z.pos m * 2 ^ e else Z.pos m / 2 ^ (- e)))
  | _ => None
  end.

(** Python's [math.ceil(x)] on a double. *)
Definition ceil (x : spec_float) : option Z :=
  match x with
  | S754_zero _ => Some 0
  | S754_finite s m e =>
      Some (if 0 <=? e then cond_Zopp s (Z.pos m) * 2 ^ e
            else - ((- cond_Zopp s (Z.pos m)) / 2 ^ (- e)))
  | _ => None
  end.

(** The literal [1e-3]: the double nearest to one thousandth,
    [0x1.0624dd2f1a9fcp-10]. *)
Definition rel_tol : spec_float := S754_finite false 4611686018427388 (-62).

(** The default [abs_tol=0.0]. *)
Definition abs_tol : spec_float := S754_zero false.

Definition is_inf (x : spec_float) : bool :=
  match x with S754_infinity _ => true | _ => false end.

(** CPython's [math.isclose(a, b, rel_tol=rt, abs_tol=atol)]:
    [[
      if (a == b) return 1;
      if (isinf(a) || isinf(b)) return 0;
      diff = fabs(b - a);
      return diff <= fabs(rel_tol * b) || diff <= fabs(rel_tol * a)
             || diff <= abs_tol;
    ]] *)
Definition isclose (a b rt atol : spec_float) : bool :=
  if feq a b then true
  else if is_inf a || is_inf b then false
  else
    let diff := fabs (fsub b a) in
    fle diff (fabs (fmul rt b)) || fle diff (fabs (fmul rt a)) || fle diff atol.

(** Real value of a double, and the real-number vocabulary of the proofs. *)
Definition bpow (e : Z) : R := powerRZ 2 e.

Definition B2R (x : spec_float) : R :=
  match x with
  | S754_finite s m e => (IZR (cond_Zopp s (Z.pos m)) * bpow e)%R
  | _ => 0%R
  end.

Definition fexp64 (e : Z) : Z := fexp prec emax e.

(** [inbetween mrs y]: the record holds the integer part of the real [y],
    the round bit says whether [y] is in the upper half of the unit
    interval, the sticky bit whether [y] is off the two marks. *)
Definition inbetween (mrs : shr_record) (y : R) : Prop :=
  (IZR (shr_m mrs) <= y < IZR (shr_m mrs) + 1)%R /\
  (shr_r mrs = true <-> (IZR (shr_m mrs) + / 2 <= y)%R) /\
  (shr_s mrs = true <-> (y <> IZR (shr_m mrs) /\ y <> IZR (shr_m mrs) + / 2)%R).

(** [rounds_to s x z]: the float [z] has sign [s] and a normal mantissa, and
    its magnitude is the neighbour of the positive real [x] that
    round-to-nearest picks on the grid of step [2 ^ e1] carrying 53
    significant bits at [x]. *)
Definition rounds_to (s : bool) (x : R) (z : spec_float) : Prop :=
  exists (m : positive) (e e1 q c : Z),
    z = S754_finite s m e /\
    2 ^ 52 <= Z.pos m < 2 ^ 53 /\
    2 ^ 52 <= q < 2 ^ 53 /\
    (c = 0 \/ c = 1) /\
    (IZR (Z.pos m) * bpow e = IZR (q + c) * bpow e1)%R /\
    (IZR q * bpow e1 <= x < IZR (q + 1) * bpow e1)%R /\
    (x = (IZR q * bpow e1)%R -> c = 0) /\
    ((x < (IZR q + / 2) * bpow e1)%R -> c = 0) /\
    (((IZR q + / 2) * bpow e1 < x)%R -> c = 1).

Definition v_expected : R := (6621426813485227 * / 9007199254740992)%R.
Definition v_rel_tol : R := (4611686018427388 * / 4611686018427387904)%R.
Definition v_tol_expected : R := (6780341057008873 * / 9223372036854775808)%R.
Definition u52 : R := (/ 4503599627370496)%R.

End F64.

(** ** Strings *)

Module PyStr.

(** [str.lower] on the ASCII letters.  The suffixes the program tests after
    lowering are ASCII, and no character outside ASCII lower-cases to one of
    their letters, so the other bytes are left alone. *)
Definition lower_ascii (c : ascii) : ascii :=
  let n := N_of_ascii c in
  if ((65 <=? n) && (n <=? 90))%N then ascii_of_N (n + 32) else c.

Fixpoint lower (s : string) : string :=
  match s with
  | EmptyString => EmptyString
  | String c s' => String (lower_ascii c) (lower s')
  end.

Fixpoint drop (n : nat) (s : string) : string :=
  match n, s with
  | O, _ => s
  | S n', String _ s' => drop n' s'
  | S _, EmptyString => EmptyString
  end.

Fixpoint take (n : nat) (s : string) : string :=
  match n, s with
  | O, _ => EmptyString
  | S n', String c s' => String c (take n' s')
  | S _, EmptyString => EmptyString
  end.

(** [s.endswith(suffix)] and [s.endswith((suf1, suf2, ...))]. *)
Definition endswith (s suffix : string) : bool :=
  (String.length suffix <=? String.length s)%nat &&
  String.eqb (drop (String.length s - String.length suffix) s) suffix.

Definition endswith_any (s : string) (suffixes : list string) : bool :=
  existsb (endswith s) suffixes.

(** [s.rfind(c)] for a single character: the last index, or [-1]. *)
Fixpoint rfind (c : ascii) (s : string) : Z :=
  match s with
  | EmptyString => -1
  | String x s' =>
      let r := rfind c s' in
      if 0 <=? r then r + 1 else if Ascii.eqb x c then 0 else -1
  end.

Fixpoint mem_ascii (c : ascii) (chars : string) : bool :=
  match chars with
  | EmptyString => false
  | String x chars' => Ascii.eqb c x || mem_ascii c chars'
  end.

(** [s.lstrip(chars)]: drop leading characters while they occur in [chars]. *)
Fixpoint lstrip (chars s : string) : string :=
  match s with
  | EmptyString => EmptyString
  | String c s' => if mem_ascii c chars then lstrip chars s' else s
  end.

(** [s.replace(old, new)] for a non-empty [old]: every non-overlapping
    occurrence, left to right.  [skip] counts the characters of a matched
    occurrence that are still to be passed over. *)
Fixpoint replace_from (old new : string) (skip : nat) (s : string) : string :=
  match s with
  | EmptyString => EmptyString
  | String c s' =>
      match skip with
      | S k => replace_from old new k s'
      | O =>
          if String.prefix old s
          then new +:+ replace_from old new (String.length old - 1) s'
          else String c (replace_from old new 0 s')
      end
  end.

Definition replace (old new s : string) : string := replace_from old new 0 s.

(** [sorted(l)] on strings: ascending in code point order.  The order is
    total and equal strings are identical, so every sorting algorithm
    returns the same list; insertion sort stands for Python's. *)
Fixpoint insert_sorted (x : string) (l : list string) : list string :=
  match l with
  | [] => [x]
  | y :: l' => if String.leb x y then x :: l else y :: insert_sorted x l'
  end.

Fixpoint sorted (l : list string) : list string :=
  match l with
  | [] => []
  | x :: l' => insert_sorted x (sorted l')
  end.

(** [l[start:stop]] with Python's treatment of negative and out-of-range
    bounds. *)
Definition clamp_index (len i : Z) : Z :=
  if i <? 0 then Z.max (i + len) 0 else Z.min i len.

Definition slice {A} (l : list A) (start stop : Z) : list A :=
  let len := Z.of_nat (length l) in
  let a := clamp_index len start in
  let b := clamp_index len stop in
  firstn (Z.to_nat (b - a)) (skipn (Z.to_nat a) l).

(** [enumerate(l)]. *)
Definition enumerate {A} (l : list A) : list (Z * A) :=
  zip (seqZ 0 (Z.of_nat (length l))) l.

(** [str(n)] for an [int]. *)
Definition str_of_int (n : Z) : string := NilZero.string_of_int (Z.to_int n).

(** [os.path.splitext] ([genericpath._splitext] with [sep = '/'] and
    [extsep = '.']): split at the last dot of the last path component,
    unless only dots come before it. *)
Fixpoint has_non_dot (s : string) (from upto : Z) (idx : Z) : bool :=
  match s with
  | EmptyString => false
  | String c s' =>
      ((from <=? idx) && (idx <? upto) && negb (Ascii.eqb c "."))
      || has_non_dot s' from upto (idx + 1)
  end.

Definition splitext (p : string) : string * string :=
  let sepIndex := rfind "/" p in
  let dotIndex := rfind "." p in
  if (sepIndex <? dotIndex) && has_non_dot p (sepIndex + 1) dotIndex 0
  then (take (Z.to_nat dotIndex) p, drop (Z.to_nat dotIndex) p)
  else (p, EmptyString).

(** [os.path.join(a, b)] ([posixpath]). *)
Definition path_join (a b : string) : string :=
  if String.prefix "/" b then b
  else if String.eqb a "" || endswith a "/" then a +:+ b
  else a +:+ "/" +:+ b.

(** [os.path.basename(p)]: what follows the last slash. *)
Definition basename (p : string) : string :=
  drop (Z.to_nat (rfind "/" p + 1)) p.

End PyStr.

(** ** Images, files and the file system *)

(** Pixel data, as the Pillow operations that produced it. *)
Inductive pixels : Type :=
  | Original (tag : string)
  | Cropped (p : pixels) (left top right bottom : Z)
  | Resampled (p : pixels) (width height : Z)
  | Blank (color : string) (width height : Z)
  | Pasted (canvas src : pixels) (x y : Z).

Record image : Type := Image {
  width : Z;
  height : Z;
  px : pixels
}.

(** A directory entry: a decodable image, other bytes, or an entry that
    cannot be read (no permission, not a regular file). *)
Inductive file : Type :=
  | ImageFile (img : image)
  | DataFile (content : string)
  | Unreadable.

Abbreviation dir := (gmap string file).
Abbreviation fs := (gmap string (gmap string file)).

Inductive exn : Type :=
  | ZeroDivisionError
  | ValueError
  | OverflowError
  | OSError.

(** The lines the program prints. *)
Inductive log_entry : Type :=
  | LogPipelineStart
  | LogStepStart (step : Z)
  | LogStepFinished (step : Z)
  | LogPipelineFinished
  | LogCropInputMissing (folder : string)
  | LogScanning (folder : string)
  | LogSkipAspect (filename : string)
  | LogProcessed (filename : string) (width height : Z)
  | LogCouldNotProcess (filename : string) (e : exn)
  | LogGridSourceMissing (folder : string)
  | LogNoImages (folder : string)
  | LogFound (count grids : Z)
  | LogSourceDimensions (width height : Z)
  | LogProcessingGrid (number : Z)
  | LogPasteWarning (filename : string)
  | LogGridSaved (folder filename : string)
  | LogGridSaveError (e : exn)
  | LogForgeSourceMissing (folder : string)
  | LogCopying
  | LogCopied (filename new_name : string).

(** What a stage leaves behind: the file system, the printed lines, and the
    exception that ended it, if one did. *)
Record outcome : Type := Outcome {
  out_fs : fs;
  out_log : list log_entry;
  out_exn : option exn
}.

(** The body of a [try] block: an exception or a value. *)
Definition try_bind {A B} (x : exn + A) (k : A -> exn + B) : exn + B :=
  match x with
  | inl e => inl e
  | inr a => k a
  end.

Notation "'try!' x := e 'in' k" := (try_bind e (fun x => k))
  (at level 10, x name, e at level 100, k at level 200).

(** *** File system calls *)

Definition isdir (st : fs) (path : string) : bool :=
  match st !! path with Some _ => true | None => false end.

(** [os.makedirs(path, exist_ok=True)]. *)
Definition makedirs (st : fs) (path : string) : fs :=
  match st !! path with
  | Some _ => st
  | None => <[path := ∅]> st
  end.

(** [os.listdir(path)]: the entry names, in an order that is fixed by the
    directory's content but otherwise arbitrary. *)
Definition listdir (d : dir) : list string := (map_to_list d).*1.

Definition os_listdir (st : fs) (path : string) : exn + list string :=
  match st !! path with
  | Some d => inr (listdir d)
  | None => inl OSError
  end.

Definition read_file (st : fs) (folder name : string) : option file :=
  st !! folder ≫= (.!! name).

Definition write_file (st : fs) (folder name : string) (f : file) : exn + fs :=
  match st !! folder with
  | Some d => inr (<[folder := <[name := f]> d]> st)
  | None => inl OSError
  end.

(** *** Pillow *)

(** [Image.open(os.path.join(folder, name))]. *)
Definition pil_open (st : fs) (folder name : string) : exn + image :=
  match read_file st folder name with
  | Some (ImageFile img) => inr img
  | _ => inl OSError
  end.

(** [img.crop((left, top, right, bottom))]. *)
Definition pil_crop (img : image) (left top right bottom : Z) : image :=
  Image (right - left) (bottom - top) (Cropped (px img) left top right bottom).

(** [img.resize((w, h), LANCZOS)]: Pillow raises [ValueError] unless both
    sides are at least one pixel. *)
Definition pil_resize (img : image) (w h : Z) : exn + image :=
  if (w <? 1) || (h <? 1) then inl ValueError
  else inr (Image w h (Resampled (px img) w h)).

(** [Image.new('RGB', (w, h), color=c)] for a colour name Pillow knows:
    [ValueError] on a negative side. *)
Definition pil_new (color : string) (w h : Z) : exn + image :=
  if (w <? 0) || (h <? 0) then inl ValueError
  else inr (Image w h (Blank color w h)).

(** [canvas.paste(img, (x, y))]. *)
Definition pil_paste (canvas img : image) (x y : Z) : image :=
  Image (width canvas) (height canvas) (Pasted (px canvas) (px img) x y).

(** [img.save(os.path.join(folder, name))]. *)
Definition pil_save (st : fs) (folder name : string) (img : image) : exn + fs :=
  write_file st folder name (ImageFile img).

(** [shutil.copy2(src, dst)]. *)
Definition shutil_copy2 (st : fs) (src_folder src_name dst_folder dst_name : string)
  : exn + fs :=
  match read_file st src_folder src_name with
  | Some Unreadable | None => inl OSError
  | Some f => write_file st dst_folder dst_name f
  end.

(** *** Python arithmetic that can raise *)

Definition floordiv (a b : Z) : exn + Z :=
  if b =? 0 then inl ZeroDivisionError else inr (a / b).

Definition truediv (a b : Z) : exn + spec_float :=
  match F64.int_truediv a b with
  | Some x => inr x
  | None => inl ZeroDivisionError
  end.

Definition int_of_float (x : spec_float) : exn + Z :=
  match F64.trunc x with
  | Some n => inr n
  | None => inl OverflowError
  end.

Definition math_ceil (x : spec_float) : exn + Z :=
  match F64.ceil x with
  | Some n => inr n
  | None => inl OverflowError
  end.

(** ** The program *)

(** *** [crop_and_downsize_for_share] *)

Definition CROP_WIDTH_RATIO : spec_float := F64.fdiv (F64.of_int 2010) (F64.of_int 2187).
Definition CROP_HEIGHT_RATIO : spec_float := F64.fdiv (F64.of_int 2814) (F64.of_int 2975).
Definition EXPECTED_ASPECT_RATIO : spec_float := F64.fdiv (F64.of_int 2187) (F64.of_int 2975).

Definition crop_extensions : list string :=
  [".png"; ".jpg"; ".jpeg"; ".bmp"; ".tiff"]%string.

(** The aspect ratio test of lines 103-104, on the image dimensions. *)
Definition aspect_ok (w h : Z) : exn + bool :=
  try! current_aspect_ratio := truediv w h in
  inr (F64.isclose current_aspect_ratio EXPECTED_ASPECT_RATIO F64.rel_tol F64.abs_tol).

(** Lines 99-124: from the opened image to the resized one; [None] when the
    aspect ratio test sends the loop to the next file. *)
Definition crop_and_resize (img : image) (downscale_factor : Z) : exn + option image :=
  let img_width := width img in
  let img_height := height img in
  try! ok := aspect_ok img_width img_height in
  if negb ok then inr None
  else
    try! target_width := int_of_float (F64.fmul (F64.of_int img_width) CROP_WIDTH_RATIO) in
    try! target_height := int_of_float (F64.fmul (F64.of_int img_height) CROP_HEIGHT_RATIO) in
    let left := (img_width - target_width) / 2 in
    let top := (img_height - target_height) / 2 in
    let right := left + target_width in
    let bottom := top + target_height in
    let cropped_img := pil_crop img left top right bottom in
    try! new_width := floordiv (width cropped_img) downscale_factor in
    try! new_height := floordiv (height cropped_img) downscale_factor in
    try! resized_img := pil_resize cropped_img new_width new_height in
    inr (Some resized_img).

(** The [try] block of lines 97-128 for one file name: the new file system
    and the line printed, or the exception that [except Exception] catches. *)
Definition crop_try (st : fs) (input_folder output_folder filename : string)
    (downscale_factor : Z) : exn + (fs * log_entry) :=
  try! img := pil_open st input_folder filename in
  try! result := crop_and_resize img downscale_factor in
  match result with
  | None => inr (st, LogSkipAspect filename)
  | Some resized_img =>
      try! st' := pil_save st output_folder filename resized_img in
      inr (st', LogProcessed filename (width img) (height img))
  end.

(** One iteration of the loop of line 93. *)
Definition crop_file (input_folder output_folder : string) (downscale_factor : Z)
    (acc : fs * list log_entry) (filename : string) : fs * list log_entry :=
  let '(st, log) := acc in
  if PyStr.endswith_any (PyStr.lower filename) crop_extensions then
    match crop_try st input_folder output_folder filename downscale_factor with
    | inr (st', line) => (st', log ++ [line])
    | inl e => (st, log ++ [LogCouldNotProcess filename e])
    end
  else (st, log).

Definition crop_and_downsize_for_share (st : fs) (input_folder output_folder : string)
    (downscale_factor : Z) : outcome :=
  if negb (isdir st input_folder) then
    Outcome st [LogCropInputMissing input_folder] None
  else
    let st := makedirs st output_folder in
    match os_listdir st input_folder with
    | inl e => Outcome st [LogScanning input_folder] (Some e)
    | inr names =>
        let '(st', log) :=
          fold_left (crop_file input_folder output_folder downscale_factor)
                    names (st, [LogScanning input_folder]) in
        Outcome st' log None
    end.

(** *** [run_grid_maker] *)

Definition valid_extensions : list string :=
  [".png"; ".jpg"; ".jpeg"; ".bmp"; ".gif"; ".tiff"]%string.

(** Lines 173-183: one image of a page.  [cols] is not zero here: the page
    loop runs only after [len(image_files) / (rows * cols)] was computed. *)
Definition paste_cell (st : fs) (folder_path : string)
    (cols source_width source_height spacer_pixels : Z)
    (acc : image * list log_entry) (cell : Z * string) : image * list log_entry :=
  let '(grid_image, log) := acc in
  let '(i, filename) := cell in
  let row := i / cols in
  let col := i mod cols in
  let paste_x := (col * source_width) + (spacer_pixels * (col + 1)) in
  let paste_y := (row * source_height) + (spacer_pixels * (row + 1)) in
  match pil_open st folder_path filename with
  | inr img => (pil_paste grid_image img paste_x paste_y, log)
  | inl _ => (grid_image, log ++ [LogPasteWarning filename])
  end.

(** Line 185: [f"{project_folder_name} {grid_index + 1}.jpg"]. *)
Definition grid_output_filename (project_folder_name : string) (grid_index : Z) : string :=
  project_folder_name +:+ " " +:+ PyStr.str_of_int (grid_index + 1) +:+ ".jpg".

(** Lines 163-192: one page.  An exception of an earlier page has ended the
    loop. *)
Definition make_grid (folder_path output_path project_folder_name : string)
    (rows cols : Z) (background_color : string) (spacer_pixels : Z)
    (image_files : list string) (source_width source_height : Z)
    (acc : outcome) (grid_index : Z) : outcome :=
  match out_exn acc with
  | Some _ => acc
  | None =>
      let st := out_fs acc in
      let log := out_log acc ++ [LogProcessingGrid (grid_index + 1)] in
      let images_per_grid := rows * cols in
      let start_index := grid_index * images_per_grid in
      let end_index := start_index + images_per_grid in
      let grid_image_files := PyStr.slice image_files start_index end_index in
      let total_width := (source_width * cols) + (spacer_pixels * (cols + 1)) in
      let total_height := (source_height * rows) + (spacer_pixels * (rows + 1)) in
      match pil_new background_color total_width total_height with
      | inl e => Outcome st log (Some e)
      | inr grid_image =>
          let '(grid_image, log) :=
            fold_left (paste_cell st folder_path cols source_width source_height spacer_pixels)
                      (PyStr.enumerate grid_image_files) (grid_image, log) in
          let output_filename := grid_output_filename project_folder_name grid_index in
          match pil_save st output_path output_filename grid_image with
          | inr st' => Outcome st' (log ++ [LogGridSaved output_path output_filename]) None
          | inl e => Outcome st (log ++ [LogGridSaveError e]) None
          end
      end
  end.

(** [abspath] is [os.path.abspath], which depends on the working directory
    of the process. *)
Definition run_grid_maker (abspath : string -> string) (st : fs)
    (folder_path output_path : string) (rows cols : Z)
    (background_color : string) (spacer_pixels : Z) : outcome :=
  if negb (isdir st folder_path) then
    Outcome st [LogGridSourceMissing folder_path] None
  else
    match os_listdir st folder_path with
    | inl _ => Outcome st [LogGridSourceMissing folder_path] None
    | inr names =>
        let image_files :=
          PyStr.sorted
            (filter (fun f => PyStr.endswith_any (PyStr.lower f) valid_extensions = true) names) in
        match image_files with
        | [] => Outcome st [LogNoImages folder_path] None
        | first :: _ =>
            let project_folder_name := PyStr.basename (abspath output_path) in
            let images_per_grid := rows * cols in
            match (try! q := truediv (Z.of_nat (length image_files)) images_per_grid in
                   math_ceil q) with
            | inl e => Outcome st [] (Some e)
            | inr num_grids =>
                let log := [LogFound (Z.of_nat (length image_files)) num_grids] in
                match pil_open st folder_path first with
                | inl e => Outcome st log (Some e)
                | inr img =>
                    let source_width := width img in
                    let source_height := height img in
                    fold_left
                      (make_grid folder_path output_path project_folder_name rows cols
                                 background_color spacer_pixels image_files
                                 source_width source_height)
                      (seqZ 0 num_grids)
                      (Outcome st (log ++ [LogSourceDimensions source_width source_height]) None)
                end
            end
        end
    end.

(** *** [rename_for_forge] *)

Definition forge_extensions : list string := [".png"; ".jpg"; ".jpeg"]%string.

(** Lines 210-216: the exported name of a file. *)
Definition new_file_name (file_name : string) : string :=
  let '(base_name, extension) := PyStr.splitext file_name in
  let stripped_name := PyStr.lstrip "0123456789_ " base_name in
  PyStr.replace "’" "'" stripped_name +:+ ".fullborder.jpg".

(** One iteration of the loop of line 206; nothing catches what
    [shutil.copy2] raises, so an exception ends the loop. *)
Definition forge_file (source_folder destination_folder : string)
    (acc : outcome) (file_name : string) : outcome :=
  match out_exn acc with
  | Some _ => acc
  | None =>
      if PyStr.endswith_any (PyStr.lower file_name) forge_extensions then
        match shutil_copy2 (out_fs acc) source_folder file_name
                           destination_folder (new_file_name file_name) with
        | inr st' =>
            Outcome st' (out_log acc ++ [LogCopied file_name (new_file_name file_name)]) None
        | inl e => Outcome (out_fs acc) (out_log acc) (Some e)
        end
      else acc
  end.

Definition rename_for_forge (st : fs) (source_folder destination_folder : string) : outcome :=
  if negb (isdir st source_folder) then
    Outcome st [LogForgeSourceMissing source_folder] None
  else
    let st := makedirs st destination_folder in
    match os_listdir st source_folder with
    | inl e => Outcome st [LogCopying] (Some e)
    | inr names =>
        fold_left (forge_file source_folder destination_folder) names
                  (Outcome st [LogCopying] None)
    end.

(** *** [run_image_pipeline] *)

(** Run a stage after what was printed so far; an exception that leaves a
    stage leaves the pipeline. *)
Definition then_stage (acc : outcome) (line_before : log_entry)
    (stage : fs -> outcome) (line_after : log_entry) : outcome :=
  match out_exn acc with
  | Some _ => acc
  | None =>
      let r := stage (out_fs acc) in
      match out_exn r with
      | Some e => Outcome (out_fs r) (out_log acc ++ [line_before] ++ out_log r) (Some e)
      | None =>
          Outcome (out_fs r) (out_log acc ++ [line_before] ++ out_log r ++ [line_after]) None
      end
  end.

Definition run_image_pipeline (abspath : string -> string) (st : fs)
    (project_path : string) (grid_rows grid_cols : Z) (bg_color : string)
    (spacing downscale_factor : Z) : outcome :=
  let print_folder := PyStr.path_join project_path "Print" in
  let share_folder := PyStr.path_join project_path "Share" in
  let forge_folder := PyStr.path_join project_path "Forge" in
  let o := Outcome st [LogPipelineStart] None in
  let o := then_stage o (LogStepStart 1)
             (fun st => crop_and_downsize_for_share st print_folder share_folder downscale_factor)
             (LogStepFinished 1) in
  let o := then_stage o (LogStepStart 2)
             (fun st => run_grid_maker abspath st share_folder project_path
                          grid_rows grid_cols bg_color spacing)
             (LogStepFinished 2) in
  let o := then_stage o (LogStepStart 3)
             (fun st => rename_for_forge st share_folder forge_folder)
             (LogStepFinished 3) in
  match out_exn o with
  | Some _ => o
  | None => Outcome (out_fs o) (out_log o ++ [LogPipelineFinished]) None
  end.

(** ** Vocabulary of the specification *)

(** A stage takes a file when its lower-cased name ends in one of the
    stage's extensions. *)
Definition accepted_by (extensions : list string) (name : string) : bool :=
  PyStr.endswith_any (PyStr.lower name) extensions.

(** "ASCII digits, underscore, or space". *)
Definition is_strip_char (c : ascii) : bool :=
  let n := N_of_ascii c in
  ((48 <=? n) && (n <=? 57))%N || Ascii.eqb c "_" || Ascii.eqb c " ".

(** "A left-trim over a fixed character class: it continues until the first
    character outside that class". *)
Fixpoint ltrim_class (s : string) : string :=
  match s with
  | EmptyString => EmptyString
  | String c s' => if is_strip_char c then ltrim_class s' else s
  end.

Fixpoint all_strip_chars (s : string) : bool :=
  match s with
  | EmptyString => true
  | String c s' => is_strip_char c && all_strip_chars s'
  end.

(** "Replace a specific right single quotation mark character with a plain
    ASCII apostrophe, anywhere": U+2019 is the bytes 226, 128, 153. *)
Fixpoint normalize_quote (s : string) : string :=
  match s with
  | String "226" (String "128" (String "153" s')) => String "'" (normalize_quote s')
  | String c s' => String c (normalize_quote s')
  | EmptyString => EmptyString
  end.

Fixpoint contains (c : ascii) (s : string) : bool :=
  match s with
  | EmptyString => false
  | String x s' => Ascii.eqb x c || contains c s'
  end.

Fixpoint only_dots (s : string) : bool :=
  match s with
  | EmptyString => true
  | String x s' => Ascii.eqb x "." && only_dots s'
  end.

(** A base name of the usual kind: an entry name (no slash) that is not
    made of dots only. *)
Definition ordinary_base (base : string) : Prop :=
  contains "/" base = false /\ only_dots base = false.





(** The page of index [g] (from 0) of a sorted list, for pages of [p] names. *)
Definition page_slice (image_files : list string) (p g : Z) : list string :=
  PyStr.slice image_files (g * p) (g * p + p).

(** The tolerance of the specification: the distance of [w / h] to
    [2187 / 2975], relative to the reference constant, is at most one
    thousandth. *)
Definition within_reference_tolerance (w h : Z) : Prop :=
  (Rabs (IZR w / IZR h - 2187 / 2975) / (2187 / 2975) <= 1 / 1000)%R.

(** The distance of [w / h] to [2187 / 2975] is at most [t], relative to
    the larger of the two. *)
Definition relative_distance_le (t : R) (w h : Z) : Prop :=
  (Rabs (IZR w / IZR h - 2187 / 2975) <= t * Rmax (IZR w / IZR h) (2187 / 2975))%R.

(** A sequence of writes into one directory. *)
Definition apply_writes (writes : list (string * file)) (d : dir) : dir :=
  foldl (fun d' kv => <[kv.1 := kv.2]> d') d writes.

(** What the Cropper writes for the entries [names] of an input directory
    [d]: a function of that directory alone. *)
Definition crop_write (d : dir) (downscale_factor : Z) (name : string)
  : option (string * file) :=
  if accepted_by crop_extensions name then
    match d !! name with
    | Some (ImageFile img) =>
        match crop_and_resize img downscale_factor with
        | inr (Some resized_img) => Some (name, ImageFile resized_img)
        | _ => None
        end
    | _ => None
    end
  else None.

Definition crop_writes (d : dir) (downscale_factor : Z) (names : list string)
  : list (string * file) :=
  omap (crop_write d downscale_factor) names.

(** What Rename/Export copies for the entries [names] of a source directory
    [d], up to the first copy that raises. *)
Fixpoint forge_writes (d : dir) (names : list string) : list (string * file) * option exn :=
  match names with
  | [] => ([], None)
  | name :: rest =>
      if accepted_by forge_extensions name then
        match d !! name with
        | Some Unreadable | None => ([], Some OSError)
        | Some f =>
            let '(ws, e) := forge_writes d rest in
            ((new_file_name name, f) :: ws, e)
        end
      else forge_writes d rest
  end.

(** * Part II: facts about the embedding *)

(** ** Doubles: rounding, in integers and in real numbers *)

Module F64Facts.
Import F64.

(** [iter_pos] is plain iteration. *)
Lemma iter_pos_nat {A} (f : A -> A) (p : positive) (x : A) :
  SpecFloat.iter_pos f p x = Nat.iter (Pos.to_nat p) f x.
Proof.
  revert x. induction p as [p IH|p IH|]; intros x; cbn [SpecFloat.iter_pos].
  - rewrite !IH. rewrite Pos2Nat.inj_xI.
    replace (S (2 * Pos.to_nat p))%nat with (Pos.to_nat p + (Pos.to_nat p + 1))%nat by lia.
    rewrite !Nat.iter_add. reflexivity.
  - rewrite !IH. rewrite Pos2Nat.inj_xO.
    replace (2 * Pos.to_nat p)%nat with (Pos.to_nat p + Pos.to_nat p)%nat by lia.
    rewrite Nat.iter_add. reflexivity.
  - reflexivity.
Qed.

(** Bit length. *)
Lemma digits2_pos_bounds (p : positive) :
  2 ^ (Z.pos (digits2_pos p) - 1) <= Z.pos p < 2 ^ Z.pos (digits2_pos p).
Proof.
  induction p as [p IH|p IH|]; cbn [digits2_pos].
  - rewrite Pos2Z.inj_succ. change (Z.pos p~1) with (2 * Z.pos p + 1).
    replace (Z.succ (Z.pos (digits2_pos p)) - 1) with (Z.succ (Z.pos (digits2_pos p) - 1)) by lia.
    rewrite !Z.pow_succ_r by lia.
    revert IH. generalize (2 ^ (Z.pos (digits2_pos p) - 1)) (2 ^ Z.pos (digits2_pos p)). lia.
  - rewrite Pos2Z.inj_succ. change (Z.pos p~0) with (2 * Z.pos p).
    replace (Z.succ (Z.pos (digits2_pos p)) - 1) with (Z.succ (Z.pos (digits2_pos p) - 1)) by lia.
    rewrite !Z.pow_succ_r by lia.
    revert IH. generalize (2 ^ (Z.pos (digits2_pos p) - 1)) (2 ^ Z.pos (digits2_pos p)). lia.
  - cbn. lia.
Qed.

Lemma Zdigits2_bounds (m : Z) :
  0 < m -> 2 ^ (Zdigits2 m - 1) <= m < 2 ^ Zdigits2 m.
Proof. destruct m as [|p|p]; try lia. intros _. apply digits2_pos_bounds. Qed.

Lemma Zdigits2_pos (m : Z) : 0 < m -> 0 < Zdigits2 m.
Proof. destruct m; cbn; lia. Qed.

Lemma Zdigits2_unique (m d : Z) :
  2 ^ (d - 1) <= m < 2 ^ d -> 0 < d -> Zdigits2 m = d.
Proof.
  intros [Hl Hu] Hd.
  assert (Hm : 0 < m). { assert (0 < 2 ^ (d - 1)) by (apply Z.pow_pos_nonneg; lia). lia. }
  pose proof (Zdigits2_bounds m Hm) as [Hl' Hu'].
  pose proof (Zdigits2_pos m Hm) as Hp.
  destruct (Z.lt_trichotomy (Zdigits2 m) d) as [H|[H|H]]; auto; exfalso.
  - assert (2 ^ Zdigits2 m <= 2 ^ (d - 1)) by (apply Z.pow_le_mono_r; lia). lia.
  - assert (2 ^ d <= 2 ^ (Zdigits2 m - 1)) by (apply Z.pow_le_mono_r; lia). lia.
Qed.

Lemma bpow_gt_0 (e : Z) : (0 < bpow e)%R.
Proof. apply powerRZ_lt. lra. Qed.

Lemma bpow_add (a b : Z) : bpow (a + b) = (bpow a * bpow b)%R.
Proof. apply powerRZ_add. lra. Qed.

Lemma bpow_IZR (k : Z) : 0 <= k -> bpow k = IZR (2 ^ k).
Proof.
  intros Hk. unfold bpow. rewrite <- (Z2Nat.id k Hk) at 1.
  rewrite <- pow_powerRZ. rewrite (pow_IZR 2). now rewrite Z2Nat.id.
Qed.

Lemma bpow_1 : bpow 1 = 2%R.
Proof. rewrite (bpow_IZR 1) by lia. reflexivity. Qed.

Lemma bpow_53 : bpow 53 = (2 * bpow 52)%R.
Proof. change 53 with (1 + 52). now rewrite bpow_add, bpow_1. Qed.

Lemma bpow_opp (a : Z) : bpow (- a) = (/ bpow a)%R.
Proof. apply powerRZ_neg'. Qed.

Lemma bpow_le (a b : Z) : a <= b -> (bpow a <= bpow b)%R.
Proof.
  intros H. replace b with (a + (b - a)) by lia. rewrite bpow_add.
  rewrite (bpow_IZR (b - a)) by lia.
  assert (1 <= IZR (2 ^ (b - a)))%R.
  { apply IZR_le. assert (0 < 2 ^ (b - a)) by (apply Z.pow_pos_nonneg; lia). lia. }
  pose proof (bpow_gt_0 a). nra.
Qed.

Lemma bpow_lt (a b : Z) : a < b -> (bpow a < bpow b)%R.
Proof.
  intros H. replace b with (a + (b - a)) by lia. rewrite bpow_add.
  rewrite (bpow_IZR (b - a)) by lia.
  assert (2 <= IZR (2 ^ (b - a)))%R.
  { apply IZR_le. replace (b - a) with (Z.succ (b - a - 1)) by lia.
    rewrite Z.pow_succ_r by lia.
    assert (0 < 2 ^ (b - a - 1)) by (apply Z.pow_pos_nonneg; lia). lia. }
  pose proof (bpow_gt_0 a). nra.
Qed.

Lemma bpow_lt_inv (a b : Z) : (bpow a < bpow b)%R -> a < b.
Proof.
  intros H. destruct (Z_lt_le_dec a b) as [|Hle]; auto.
  apply bpow_le in Hle. lra.
Qed.

(** ** Shifting with round and sticky bits *)

Lemma shr_1_m (mrs : shr_record) :
  0 <= shr_m mrs -> shr_m (shr_1 mrs) = shr_m mrs / 2.
Proof.
  destruct mrs as [m r s]; cbn [shr_m]; intros Hm.
  destruct m as [|[p|p|]|p]; cbn; try reflexivity; try lia.
  - rewrite Pos2Z.inj_xI. apply Z.div_unique with 1; lia.
  - rewrite Pos2Z.inj_xO. apply Z.div_unique with 0; lia.
Qed.

Lemma shr_iter_m (n : nat) (mrs : shr_record) :
  0 <= shr_m mrs ->
  shr_m (Nat.iter n shr_1 mrs) = shr_m mrs / 2 ^ Z.of_nat n.
Proof.
  intros Hm. induction n as [|n IH].
  - cbn. now rewrite Z.div_1_r.
  - rewrite Nat.iter_succ. rewrite shr_1_m.
    + rewrite IH, Nat2Z.inj_succ, Z.pow_succ_r by lia.
      rewrite Z.div_div by lia. f_equal. lia.
    + rewrite IH. apply Z.div_pos; lia.
Qed.

Lemma inbetween_exact (m : Z) : inbetween (shr_record_of_loc m loc_Exact) (IZR m).
Proof.
  unfold inbetween; cbn. split; [lra|]. split; split; try discriminate.
  - intros H. exfalso. lra.
  - intros [H _]. now elim H.
Qed.

Lemma orb_true_cases (r s : bool) : orb r s = true <-> r = true \/ s = true.
Proof. destruct r, s; cbn; intuition congruence. Qed.

Lemma shr_1_inbetween (mrs : shr_record) (y : R) :
  0 <= shr_m mrs -> inbetween mrs y -> inbetween (shr_1 mrs) (y / 2).
Proof.
  destruct mrs as [m r s]. unfold inbetween. cbn [shr_m shr_r shr_s].
  intros Hm ([Hy1 Hy2] & Hr & Hs).
  assert (Hrs : orb r s = true <-> y <> IZR m).
  { rewrite orb_true_cases, Hr, Hs. split.
    - intros [H|[H _]]; lra.
    - intros H. destruct (Req_dec y (IZR m + / 2)) as [E|E]; [left; lra|right; split; lra]. }
  destruct m as [|[p|p|]|p]; try lia; cbn [shr_1 shr_m shr_r shr_s].
  - (* 0 *)
    split; [lra|]. split.
    + split; [discriminate|intros H; exfalso; lra].
    + rewrite Hrs. split; intros H; [split|]; lra.
  - (* 2p+1 *)
    change (IZR (Z.pos p~1)) with (IZR (2 * Z.pos p + 1)) in *.
    rewrite plus_IZR, mult_IZR in *. split; [lra|]. split.
    + split; [intros _; lra|reflexivity].
    + rewrite Hrs. split; intros H; [split|]; lra.
  - (* 2p *)
    change (IZR (Z.pos p~0)) with (IZR (2 * Z.pos p)) in *.
    rewrite mult_IZR in *. split; [lra|]. split.
    + split; [discriminate|intros H; exfalso; lra].
    + rewrite Hrs. split; intros H; [split|]; lra.
  - (* 1 *)
    split; [lra|]. split.
    + split; [intros _; lra|reflexivity].
    + rewrite Hrs. split; intros H; [split|]; lra.
Qed.

Lemma shr_iter_inbetween (n : nat) (mrs : shr_record) (y : R) :
  0 <= shr_m mrs -> inbetween mrs y ->
  inbetween (Nat.iter n shr_1 mrs) (y * bpow (- Z.of_nat n)).
Proof.
  intros Hm Hin. induction n as [|n IH].
  - cbn [Nat.iter Z.of_nat Z.opp]. change (bpow 0) with 1%R. now rewrite Rmult_1_r.
  - rewrite Nat.iter_succ.
    replace (y * bpow (- Z.of_nat (S n)))%R with (y * bpow (- Z.of_nat n) / 2)%R.
    + apply shr_1_inbetween; [|exact IH].
      rewrite shr_iter_m by lia. apply Z.div_pos; lia.
    + replace (- Z.of_nat (S n)) with (- Z.of_nat n + - (1)) by lia.
      rewrite bpow_add, (bpow_opp 1), bpow_1. field.
Qed.

(** Round to nearest, ties to even, read off the two bits. *)
Lemma round_nearest_even_inbetween (mrs : shr_record) (y : R) :
  inbetween mrs y ->
  exists c : Z,
    round_nearest_even (shr_m mrs) (loc_of_shr_record mrs) = shr_m mrs + c /\
    (c = 0 \/ c = 1) /\
    ((y < IZR (shr_m mrs) + / 2)%R -> c = 0) /\
    ((IZR (shr_m mrs) + / 2 < y)%R -> c = 1).
Proof.
  destruct mrs as [m r s]. unfold inbetween. cbn [shr_m shr_r shr_s].
  intros ([Hy1 Hy2] & Hr & Hs).
  destruct r, s; cbn [loc_of_shr_record round_nearest_even].
  - exists 1. repeat split; auto. intros H. exfalso.
    assert (IZR m + / 2 <= y)%R by now apply Hr. lra.
  - destruct (Z.even m).
    + exists 0. rewrite Z.add_0_r. repeat split; auto. intros H. exfalso.
      assert (IZR m + / 2 <= y)%R by now apply Hr.
      assert (~ (y <> IZR m /\ y <> IZR m + / 2)%R) by (intros C; apply Hs in C; discriminate).
      apply H1. split; lra.
    + exists 1. repeat split; auto. intros H. exfalso.
      assert (IZR m + / 2 <= y)%R by now apply Hr. lra.
  - exists 0. rewrite Z.add_0_r. repeat split; auto. intros H. exfalso.
    assert (~ (IZR m + / 2 <= y)%R) by (intros C; apply Hr in C; discriminate). lra.
  - exists 0. rewrite Z.add_0_r. repeat split; auto. intros H. exfalso.
    assert (~ (IZR m + / 2 <= y)%R) by (intros C; apply Hr in C; discriminate). lra.
Qed.

Lemma fexp64_normal (e : Z) : -1074 <= e - 53 -> fexp64 e = e - 53.
Proof. intros H. unfold fexp64, fexp, emin, prec, emax. lia. Qed.

Lemma shr_record_of_loc_m m l : shr_m (shr_record_of_loc m l) = m.
Proof. destruct l as [|[]]; reflexivity. Qed.

(** One call of [shr_fexp] on a mantissa of at least 53 bits, away from the
    subnormal range: [digits - 53] single shifts. *)
Lemma shr_fexp_spec (m e : Z) (l : location) :
  0 < m -> 53 <= Zdigits2 m -> -1074 <= Zdigits2 m + e - 53 ->
  shr_fexp prec emax m e l =
    (Nat.iter (Z.to_nat (Zdigits2 m - 53)) shr_1 (shr_record_of_loc m l),
     e + (Zdigits2 m - 53)).
Proof.
  intros Hm Hd He. unfold shr_fexp.
  fold (fexp64 (Zdigits2 m + e)). rewrite fexp64_normal by lia.
  replace (Zdigits2 m + e - 53 - e) with (Zdigits2 m - 53) by lia.
  destruct (Zdigits2 m - 53) as [|p|p] eqn:Hn; try lia.
  - cbn [shr Z.to_nat Nat.iter]. now rewrite Z.add_0_r.
  - cbn [shr]. rewrite iter_pos_nat. reflexivity.
Qed.

(** Rounding a positive mantissa of at least 53 bits in the normal range:
    the result is a normal number whose value is the truncated mantissa or
    its successor, as round-to-nearest-even decides from the shifted-out
    bits, at the exponent [ex + digits - 53]. *)
Lemma binary_round_aux_spec (sx : bool) (mx ex : Z) (lx : location) :
  0 < mx -> 53 <= Zdigits2 mx ->
  -1074 <= Zdigits2 mx + ex - 53 -> Zdigits2 mx + ex < 1024 ->
  let n := Zdigits2 mx - 53 in
  let mrs := Nat.iter (Z.to_nat n) shr_1 (shr_record_of_loc mx lx) in
  exists (m : positive) (e : Z),
    binary_round_aux prec emax sx mx ex lx = S754_finite sx m e /\
    2 ^ 52 <= Z.pos m < 2 ^ 53 /\
    shr_m mrs = mx / 2 ^ n /\
    2 ^ 52 <= mx / 2 ^ n < 2 ^ 53 /\
    ex + n <= e <= ex + n + 1 /\
    Z.pos m * 2 ^ (e - (ex + n)) =
      round_nearest_even (shr_m mrs) (loc_of_shr_record mrs).
Proof.
  intros Hm Hd Hlo Hhi n mrs.
  pose proof (Zdigits2_bounds mx Hm) as [HL HU].
  set (q := mx / 2 ^ n).
  assert (Hn : 0 <= n) by (unfold n; lia).
  assert (Hq : 2 ^ 52 <= q < 2 ^ 53).
  { unfold q. assert (H2n : 0 < 2 ^ n) by (apply Z.pow_pos_nonneg; lia). split.
    - apply Z.div_le_lower_bound; [lia|]. rewrite <- Z.pow_add_r by lia.
      replace (n + 52) with (Zdigits2 mx - 1) by (unfold n; lia). exact HL.
    - apply Z.div_lt_upper_bound; [lia|]. rewrite <- Z.pow_add_r by lia.
      replace (n + 53) with (Zdigits2 mx) by (unfold n; lia). exact HU. }
  assert (Hmrs : shr_m mrs = q).
  { unfold mrs. rewrite shr_iter_m; rewrite shr_record_of_loc_m; [|lia].
    rewrite Z2Nat.id by lia. reflexivity. }
  unfold binary_round_aux.
  rewrite (shr_fexp_spec mx ex lx Hm Hd Hlo). fold n. fold mrs.
  set (m1 := round_nearest_even (shr_m mrs) (loc_of_shr_record mrs)).
  assert (Hm1 : m1 = q \/ m1 = q + 1).
  { unfold m1. rewrite Hmrs. destruct (loc_of_shr_record mrs) as [|[]]; cbn; auto.
    destruct (Z.even q); auto. }
  clearbody m1.
  destruct (Z.eq_dec m1 (2 ^ 53)) as [Hc|Hc].
  - (* carry into the next binade *)
    assert (Hd1 : Zdigits2 m1 = 54) by (apply Zdigits2_unique; subst m1; cbn; lia).
    rewrite (shr_fexp_spec m1 (ex + n) loc_Exact) by (rewrite ?Hd1; lia).
    rewrite Hd1. rewrite shr_iter_m by (cbn; lia). cbn [shr_record_of_loc shr_m].
    replace (m1 / 2 ^ Z.of_nat (Z.to_nat (54 - 53))) with (2 ^ 52) by (subst m1; reflexivity).
    change (2 ^ 52) with (Z.pos (Pos.pow 2 52)). cbv iota.
    replace (ex + n + (54 - 53) <=? emax - prec) with true
      by (symmetry; apply Z.leb_le; unfold emax, prec, n; lia).
    exists (Pos.pow 2 52), (ex + n + (54 - 53)).
    replace (ex + n + (54 - 53) - (ex + n)) with 1 by lia.
    split; [reflexivity|]. split; [cbn; lia|]. split; [exact Hmrs|].
    split; [exact Hq|]. split; [lia|].
    rewrite Hc. reflexivity.
  - assert (Hb1 : 2 ^ 52 <= m1 < 2 ^ 53) by lia.
    assert (Hd1 : Zdigits2 m1 = 53) by (apply Zdigits2_unique; [exact Hb1|lia]).
    rewrite (shr_fexp_spec m1 (ex + n) loc_Exact) by (rewrite ?Hd1; lia).
    rewrite Hd1. change (53 - 53) with 0.
    change (Nat.iter (Z.to_nat 0) shr_1 (shr_record_of_loc m1 loc_Exact))
      with (shr_record_of_loc m1 loc_Exact).
    cbn [shr_record_of_loc shr_m].
    destruct m1 as [|pm|pm]; try lia.
    replace (ex + n + 0 <=? emax - prec) with true
      by (symmetry; apply Z.leb_le; unfold emax, prec, n; lia).
    exists pm, (ex + n + 0).
    replace (ex + n + 0 - (ex + n)) with 0 by lia.
    split; [reflexivity|]. split; [exact Hb1|]. split; [exact Hmrs|].
    split; [exact Hq|]. split; [lia|]. lia.
Qed.

Lemma round_aux_R (sx : bool) (mx ex : Z) (lx : location) (x : R) :
  0 < mx -> 53 <= Zdigits2 mx ->
  -1074 <= Zdigits2 mx + ex - 53 -> Zdigits2 mx + ex < 1024 ->
  inbetween (shr_record_of_loc mx lx) (x * bpow (- ex)) ->
  rounds_to sx x (binary_round_aux prec emax sx mx ex lx).
Proof.
  intros Hm Hd Hlo Hhi Hin.
  destruct (binary_round_aux_spec sx mx ex lx Hm Hd Hlo Hhi)
    as (m & e & Heq & Hmb & Hmrs & Hqb & He & Hval).
  set (n := Zdigits2 mx - 53) in *.
  assert (Hn : 0 <= n) by (unfold n; lia).
  set (mrs := Nat.iter (Z.to_nat n) shr_1 (shr_record_of_loc mx lx)) in *.
  set (q := mx / 2 ^ n) in *.
  assert (Hin' : inbetween mrs (x * bpow (- (ex + n)))).
  { unfold mrs. replace (- (ex + n)) with (- ex + - Z.of_nat (Z.to_nat n))
      by (rewrite Z2Nat.id; lia).
    rewrite bpow_add, <- Rmult_assoc. apply shr_iter_inbetween; [|exact Hin].
    rewrite shr_record_of_loc_m. lia. }
  destruct (round_nearest_even_inbetween mrs _ Hin') as (c & Hc & Hc01 & Hlow & Hhigh).
  rewrite Hc, Hmrs in Hval. rewrite Hmrs in Hlow, Hhigh.
  destruct Hin' as ([Hy1 Hy2] & _). rewrite Hmrs in Hy1, Hy2.
  pose proof (bpow_gt_0 (ex + n)) as Hb.
  assert (Hinv : (bpow (- (ex + n)) * bpow (ex + n) = 1)%R).
  { rewrite <- bpow_add. replace (- (ex + n) + (ex + n)) with 0 by lia. reflexivity. }
  assert (Hx : x = (x * bpow (- (ex + n)) * bpow (ex + n))%R).
  { rewrite Rmult_assoc, Hinv. ring. }
  set (y := (x * bpow (- (ex + n)))%R) in *.
  exists m, e, (ex + n), q, c.
  split; [exact Heq|]. split; [exact Hmb|]. split; [exact Hqb|]. split; [exact Hc01|].
  split; [|split; [split|split; [|split]]].
  - replace e with ((e - (ex + n)) + (ex + n)) at 1 by lia.
    rewrite bpow_add, (bpow_IZR (e - (ex + n))) by lia.
    rewrite <- Rmult_assoc, <- mult_IZR, Hval. reflexivity.
  - rewrite Hx. nra.
  - rewrite Hx, plus_IZR. nra.
  - intros E. apply Hlow. rewrite Hx in E.
    assert (y = IZR q) by (apply Rmult_eq_reg_r with (bpow (ex + n)); lra). lra.
  - intros E. apply Hlow. rewrite Hx in E.
    apply Rmult_lt_reg_r with (bpow (ex + n)); lra.
  - intros E. apply Hhigh. rewrite Hx in E.
    apply Rmult_lt_reg_r with (bpow (ex + n)); lra.
Qed.

Lemma bpow_inv_r (e : Z) : (bpow e * bpow (- e) = 1)%R.
Proof. rewrite <- bpow_add. replace (e + - e) with 0 by lia. reflexivity. Qed.

Lemma round_aux_R_exact (sx : bool) (mx ex : Z) :
  0 < mx -> 53 <= Zdigits2 mx ->
  -1074 <= Zdigits2 mx + ex - 53 -> Zdigits2 mx + ex < 1024 ->
  rounds_to sx (IZR mx * bpow ex) (binary_round_aux prec emax sx mx ex loc_Exact).
Proof.
  intros Hm Hd Hlo Hhi. apply round_aux_R; try assumption.
  rewrite Rmult_assoc, bpow_inv_r, Rmult_1_r. apply inbetween_exact.
Qed.

Lemma Zdigits2_mul_pow2 (m k : Z) :
  0 < m -> 0 <= k -> Zdigits2 (m * 2 ^ k) = Zdigits2 m + k.
Proof.
  intros Hm Hk. pose proof (Zdigits2_bounds m Hm) as [HL HU].
  pose proof (Zdigits2_pos m Hm).
  assert (0 < 2 ^ k) by (apply Z.pow_pos_nonneg; lia).
  apply Zdigits2_unique; [|lia]. split.
  - replace (Zdigits2 m + k - 1) with (Zdigits2 m - 1 + k) by lia.
    rewrite Z.pow_add_r by lia. nia.
  - rewrite Z.pow_add_r by lia. nia.
Qed.

Lemma fmul_rounds (mx my : positive) (ex ey : Z) :
  2 ^ 52 <= Z.pos mx < 2 ^ 53 -> 2 ^ 52 <= Z.pos my < 2 ^ 53 ->
  -1126 <= ex + ey -> ex + ey < 918 ->
  rounds_to false (IZR (Z.pos mx) * bpow ex * (IZR (Z.pos my) * bpow ey))
    (fmul (S754_finite false mx ex) (S754_finite false my ey)).
Proof.
  intros Hx Hy Hlo Hhi. unfold fmul, SFmul. cbn [xorb].
  assert (Hp : 2 ^ 104 <= Z.pos (mx * my) < 2 ^ 106) by (rewrite Pos2Z.inj_mul; nia).
  assert (Hd : 105 <= Zdigits2 (Z.pos (mx * my)) <= 106).
  { pose proof (Zdigits2_bounds (Z.pos (mx * my)) ltac:(lia)) as [HL HU].
    pose proof (Zdigits2_pos (Z.pos (mx * my)) ltac:(lia)).
    split.
    - destruct (Z_lt_le_dec (Zdigits2 (Z.pos (mx * my))) 105) as [Hlt|]; [|lia].
      assert (2 ^ Zdigits2 (Z.pos (mx * my)) <= 2 ^ 104) by (apply Z.pow_le_mono_r; lia). lia.
    - destruct (Z_lt_le_dec 106 (Zdigits2 (Z.pos (mx * my)))) as [Hlt|]; [|lia].
      assert (2 ^ 106 <= 2 ^ (Zdigits2 (Z.pos (mx * my)) - 1)) by (apply Z.pow_le_mono_r; lia). lia. }
  replace (IZR (Z.pos mx) * bpow ex * (IZR (Z.pos my) * bpow ey))%R
    with (IZR (Z.pos (mx * my)) * bpow (ex + ey))%R
    by (rewrite bpow_add, Pos2Z.inj_mul, mult_IZR; ring).
  apply round_aux_R_exact; lia.
Qed.

(** The location computed by the division is where the remainder lies. *)
Lemma new_location_inbetween (q n r : Z) :
  0 <= r < n ->
  inbetween (shr_record_of_loc q (new_location n r)) (IZR q + IZR r / IZR n).
Proof.
  intros Hr. assert (Hn : (0 < IZR n)%R) by (apply IZR_lt; lia).
  assert (Hr0 : (0 <= IZR r)%R) by (apply IZR_le; lia).
  assert (Hhalf : forall a : Z, 2 * r < a -> a <= n -> (IZR r / IZR n < / 2)%R).
  { intros a H1 H2. apply Rmult_lt_reg_r with (IZR n); [lra|].
    unfold Rdiv. rewrite Rmult_assoc, Rinv_l by lra.
    assert (IZR (2 * r) < IZR n)%R by (apply IZR_lt; lia). rewrite mult_IZR in H. lra. }
  assert (Hhalf' : n < 2 * r -> (/ 2 < IZR r / IZR n)%R).
  { intros H1. apply Rmult_lt_reg_r with (IZR n); [lra|].
    unfold Rdiv. rewrite Rmult_assoc, Rinv_l by lra.
    assert (IZR n < IZR (2 * r))%R by (apply IZR_lt; lia). rewrite mult_IZR in H. lra. }
  assert (Hlt1 : (IZR r / IZR n < 1)%R).
  { apply Rmult_lt_reg_r with (IZR n); [lra|].
    unfold Rdiv. rewrite Rmult_assoc, Rinv_l by lra.
    assert (IZR r < IZR n)%R by (apply IZR_lt; lia). lra. }
  assert (Hpos : r <> 0 -> (0 < IZR r / IZR n)%R).
  { intros H. apply Rmult_lt_0_compat; [|now apply Rinv_0_lt_compat].
    apply IZR_lt. lia. }
  assert (Hge0 : (0 <= IZR r / IZR n)%R).
  { apply Rmult_le_pos; [lra|]. left. now apply Rinv_0_lt_compat. }
  assert (Lt_case : r <> 0 -> 2 * r < n ->
            inbetween (shr_record_of_loc q (loc_Inexact Lt)) (IZR q + IZR r / IZR n)).
  { intros H0 H1. specialize (Hhalf n H1 ltac:(lia)). specialize (Hpos H0).
    unfold inbetween; cbn. split; [lra|].
    split; [split; [discriminate|intros H; exfalso; lra]|].
    split; [intros _; split; lra|reflexivity]. }
  assert (Gt_case : n < 2 * r ->
            inbetween (shr_record_of_loc q (loc_Inexact Gt)) (IZR q + IZR r / IZR n)).
  { intros H1. specialize (Hhalf' H1).
    unfold inbetween; cbn. split; [lra|].
    split; [split; [intros _; lra|reflexivity]|].
    split; [intros _; split; lra|reflexivity]. }
  unfold new_location. destruct (Z.even n) eqn:Ev.
  - unfold new_location_even. destruct (Z.eqb_spec r 0) as [->|H0].
    + replace (IZR q + 0 / IZR n)%R with (IZR q) by (unfold Rdiv; ring).
      apply inbetween_exact.
    + destruct (Z.compare_spec (2 * r) n) as [E|E|E].
      * assert (IZR r / IZR n = / 2)%R.
        { rewrite <- E, mult_IZR. field. apply not_0_IZR. lia. }
        unfold inbetween; cbn. rewrite H. split; [lra|].
        split; [split; [intros _; lra|reflexivity]|].
        split; [discriminate|intros [_ C]; now elim C].
      * now apply Lt_case.
      * now apply Gt_case.
  - unfold new_location_odd. destruct (Z.eqb_spec r 0) as [->|H0].
    + replace (IZR q + 0 / IZR n)%R with (IZR q) by (unfold Rdiv; ring).
      apply inbetween_exact.
    + assert (Hodd : n <> 2 * r).
      { intros E. rewrite E, Z.even_mul in Ev. discriminate. }
      destruct (Z.compare_spec (2 * r + 1) n) as [E|E|E].
      * apply Lt_case; [exact H0|lia].
      * apply Lt_case; [exact H0|lia].
      * apply Gt_case. lia.
Qed.

Lemma fdiv_rounds (mx my : positive) (ex ey : Z) :
  2 ^ 52 <= Z.pos mx < 2 ^ 53 -> 2 ^ 52 <= Z.pos my < 2 ^ 53 ->
  -1021 <= ex - ey -> ex - ey < 970 ->
  rounds_to false (IZR (Z.pos mx) * bpow ex / (IZR (Z.pos my) * bpow ey))
    (fdiv (S754_finite false mx ex) (S754_finite false my ey)).
Proof.
  intros Hx Hy Hlo Hhi. unfold fdiv, SFdiv, SFdiv_core_binary. cbn [xorb].
  assert (Hdx : Zdigits2 (Z.pos mx) = 53) by (apply Zdigits2_unique; lia).
  assert (Hdy : Zdigits2 (Z.pos my) = 53) by (apply Zdigits2_unique; lia).
  rewrite Hdx, Hdy.
  replace (53 + ex - (53 + ey)) with (ex - ey) by lia.
  fold (fexp64 (ex - ey)). rewrite fexp64_normal by lia.
  rewrite Z.min_l by lia.
  replace (ex - ey - (ex - ey - 53)) with 53 by lia.
  rewrite Z.shiftl_mul_pow2 by lia.
  set (a := Z.pos mx * 2 ^ 53).
  pose proof (Z.div_mod a (Z.pos my) ltac:(lia)) as Hdm.
  pose proof (Z.mod_pos_bound a (Z.pos my) ltac:(lia)) as Hr.
  unfold Z.div, Z.modulo in Hdm, Hr.
  destruct (Z.div_eucl a (Z.pos my)) as [q r]. cbn [fst snd] in Hdm, Hr.
  assert (Hq : 2 ^ 52 <= q < 2 ^ 54) by (unfold a in Hdm; nia).
  assert (Hd : 53 <= Zdigits2 q <= 54).
  { pose proof (Zdigits2_bounds q ltac:(lia)) as [HL HU].
    pose proof (Zdigits2_pos q ltac:(lia)).
    split.
    - destruct (Z_lt_le_dec (Zdigits2 q) 53) as [Hlt|]; [|lia].
      assert (2 ^ Zdigits2 q <= 2 ^ 52) by (apply Z.pow_le_mono_r; lia). lia.
    - destruct (Z_lt_le_dec 54 (Zdigits2 q)) as [Hlt|]; [|lia].
      assert (2 ^ 54 <= 2 ^ (Zdigits2 q - 1)) by (apply Z.pow_le_mono_r; lia). lia. }
  pose proof (bpow_gt_0 ex) as Hbx. pose proof (bpow_gt_0 ey) as Hby.
  assert (Hval : (IZR (Z.pos mx) * bpow ex / (IZR (Z.pos my) * bpow ey)
                  = (IZR q + IZR r / IZR (Z.pos my)) * bpow (ex - ey - 53))%R).
  { replace ex with ((ex - ey - 53) + ey + 53) at 1 by lia.
    rewrite !bpow_add, (bpow_IZR 53) by lia.
    assert (Ha : (IZR (Z.pos mx) * IZR (2 ^ 53) = IZR (Z.pos my) * IZR q + IZR r)%R).
    { rewrite <- !mult_IZR, <- plus_IZR. f_equal. exact Hdm. }
    assert (IZR (Z.pos my) <> 0)%R by (apply not_0_IZR; lia).
    replace (IZR (Z.pos mx) * (bpow (ex - ey - 53) * bpow ey * IZR (2 ^ 53)))%R
      with ((IZR (Z.pos my) * IZR q + IZR r) * bpow (ex - ey - 53) * bpow ey)%R
      by (rewrite <- Ha; ring).
    field. split; lra. }
  rewrite Hval.
  pose proof (bpow_gt_0 (ex - ey - 53)) as Hbe.
  assert (Hr' : (0 <= IZR r / IZR (Z.pos my) < 1)%R).
  { assert (0 < IZR (Z.pos my))%R by (apply IZR_lt; lia).
    assert (0 <= IZR r)%R by (apply IZR_le; lia).
    assert (IZR r < IZR (Z.pos my))%R by (apply IZR_lt; lia).
    split.
    - apply Rmult_le_pos; [lra|]. left. now apply Rinv_0_lt_compat.
    - apply Rmult_lt_reg_r with (IZR (Z.pos my)); [lra|]. field_simplify; lra. }
  apply round_aux_R; try lia.
  rewrite Rmult_assoc, bpow_inv_r, Rmult_1_r.
  apply new_location_inbetween. lia.
Qed.

Lemma pos_iter_xO (p d : positive) :
  Z.pos (Pos.iter xO p d) = Z.pos p * 2 ^ Z.pos d.
Proof.
  induction d as [|d IH] using Pos.peano_ind.
  - cbn. lia.
  - rewrite Pos.iter_succ, Pos2Z.inj_succ, Z.pow_succ_r by lia.
    change (Z.pos (Pos.iter xO p d)~0) with (2 * Z.pos (Pos.iter xO p d)). lia.
Qed.

Lemma shl_align_spec (mx : positive) (ex ex' : Z) :
  exists mz ez, shl_align mx ex ex' = (mz, ez) /\
    ez = Z.min ex ex' /\ Z.pos mz = Z.pos mx * 2 ^ (ex - ez).
Proof.
  unfold shl_align. destruct (ex' - ex) as [|d|d] eqn:E.
  - exists mx, ex. rewrite Z.min_l by lia. rewrite Z.sub_diag. split; [reflexivity|lia].
  - exists mx, ex. rewrite Z.min_l by lia. rewrite Z.sub_diag. split; [reflexivity|lia].
  - exists (Pos.iter xO mx d), ex'. rewrite Z.min_r by lia.
    split; [reflexivity|]. split; [reflexivity|].
    rewrite pos_iter_xO. f_equal. f_equal. lia.
Qed.

(** Rounding the dyadic number [p * 2 ^ e] to a double. *)
Lemma binary_round_rounds (s : bool) (p : positive) (e : Z) :
  -1074 <= Zdigits2 (Z.pos p) + e - 53 -> Zdigits2 (Z.pos p) + e < 1024 ->
  rounds_to s (IZR (Z.pos p) * bpow e) (binary_round prec emax s p e).
Proof.
  intros Hlo Hhi. unfold binary_round.
  change (Z.pos (digits2_pos p)) with (Zdigits2 (Z.pos p)).
  fold (fexp64 (Zdigits2 (Z.pos p) + e)). rewrite fexp64_normal by lia.
  destruct (shl_align_spec p e (Zdigits2 (Z.pos p) + e - 53)) as (mz & ez & -> & Hez & Hmz).
  assert (Hk : 0 <= e - ez) by lia.
  assert (Hdz : Zdigits2 (Z.pos mz) = Zdigits2 (Z.pos p) + (e - ez))
    by (rewrite Hmz; apply Zdigits2_mul_pow2; lia).
  assert (Hv : (IZR (Z.pos p) * bpow e = IZR (Z.pos mz) * bpow ez)%R).
  { replace e with ((e - ez) + ez) at 1 by lia.
    rewrite bpow_add, (bpow_IZR (e - ez)), Hmz, mult_IZR by lia. ring. }
  rewrite Hv. apply round_aux_R_exact; lia.
Qed.

(** *** Consequences of [rounds_to] *)

Lemma rounds_to_pos (s : bool) (x : R) (z : spec_float) :
  rounds_to s x z -> (0 < x)%R.
Proof.
  intros (m & e & e1 & q & c & _ & _ & Hq & _ & _ & [Hx _] & _).
  pose proof (bpow_gt_0 e1). assert (1 <= IZR q)%R by (apply IZR_le; lia). nra.
Qed.

Lemma rounds_to_abs (s : bool) (x : R) (z : spec_float) :
  rounds_to s x z -> rounds_to false x (fabs z).
Proof.
  intros (m & e & e1 & q & c & -> & H). exists m, e, e1, q, c. split; [reflexivity|exact H].
Qed.

(** Relative error at most [2 ^ -52]. *)
Lemma rounds_to_rel (x : R) (z : spec_float) :
  rounds_to false x z -> (Rabs (B2R z - x) <= x * bpow (-52))%R.
Proof.
  intros (m & e & e1 & q & c & -> & _ & Hq & Hc & Hv & [Hx1 Hx2] & _).
  cbn [B2R cond_Zopp]. rewrite Hv.
  pose proof (bpow_gt_0 e1) as He1.
  assert (H52 : (bpow e1 <= x * bpow (-52))%R).
  { assert (Hq' : (IZR (2 ^ 52) <= IZR q)%R) by (apply IZR_le; lia).
    rewrite <- (bpow_IZR 52) in Hq' by lia.
    assert (H : (bpow 52 * bpow (-52) = 1)%R) by (rewrite <- bpow_add; reflexivity).
    pose proof (bpow_gt_0 (-52)). pose proof (bpow_gt_0 52).
    assert (bpow 52 * bpow e1 <= x)%R by nra.
    assert (E : bpow e1 = (bpow 52 * bpow e1 * bpow (-52))%R).
    { transitivity (bpow e1 * (bpow 52 * bpow (-52)))%R; [rewrite H; ring|ring]. }
    rewrite E. apply Rmult_le_compat_r; lra. }
  rewrite plus_IZR in Hx2 |- *.
  apply Rabs_le. destruct Hc; subst c; cbn [IZR]; split; nra.
Qed.

(** A real with at most 53 significant bits is kept as it is. *)
Lemma rounds_to_exact (x : R) (z : spec_float) (k j : Z) :
  rounds_to false x z -> x = (IZR k * bpow j)%R -> 0 < k < 2 ^ 53 ->
  B2R z = x.
Proof.
  intros (m & e & e1 & q & c & -> & _ & Hq & Hc & Hv & [Hx1 Hx2] & Hex & Hlow & Hhigh) Hx Hk.
  cbn [B2R cond_Zopp]. rewrite Hv.
  pose proof (bpow_gt_0 e1) as He1. pose proof (bpow_gt_0 j) as Hj.
  assert (Hgrid : x = (IZR q * bpow e1)%R).
  { destruct (Z_lt_le_dec j e1) as [Hlt|Hge].
    - exfalso.
      assert (Hb : bpow e1 = (bpow j * IZR (2 ^ (e1 - j)))%R).
      { replace e1 with (j + (e1 - j)) at 1 by lia.
        rewrite bpow_add, (bpow_IZR (e1 - j)) by lia. ring. }
      rewrite Hb, Hx in Hx1.
      assert (H : (IZR q * IZR (2 ^ (e1 - j)) <= IZR k)%R) by nra.
      rewrite <- mult_IZR in H. apply le_IZR in H.
      assert (2 <= 2 ^ (e1 - j)).
      { replace (e1 - j) with (Z.succ (e1 - j - 1)) by lia. rewrite Z.pow_succ_r by lia.
        assert (0 < 2 ^ (e1 - j - 1)) by (apply Z.pow_pos_nonneg; lia). lia. }
      nia.
    - assert (Hb : bpow j = (bpow e1 * IZR (2 ^ (j - e1)))%R).
      { replace j with (e1 + (j - e1)) at 1 by lia.
        rewrite bpow_add, (bpow_IZR (j - e1)) by lia. ring. }
      rewrite Hx, Hb in Hx1, Hx2. rewrite Hx, Hb.
      assert (H1 : (IZR q <= IZR (k * 2 ^ (j - e1)))%R) by (rewrite mult_IZR; nra).
      assert (H2 : (IZR (k * 2 ^ (j - e1)) < IZR (q + 1))%R) by (rewrite mult_IZR; nra).
      apply le_IZR in H1. apply lt_IZR in H2.
      assert (k * 2 ^ (j - e1) = q) by lia. subst q. rewrite mult_IZR. ring. }
  rewrite (Hex Hgrid), Z.add_0_r. now rewrite Hgrid.
Qed.

Lemma rounds_to_normal (s : bool) (x : R) (z : spec_float) :
  rounds_to s x z ->
  exists (m : positive) (e : Z),
    z = S754_finite s m e /\ 2 ^ 52 <= Z.pos m < 2 ^ 53.
Proof. intros (m & e & e1 & q & c & -> & Hm & _). now exists m, e. Qed.

(** How the rounded value sits with respect to an integer [N], for reals
    below [2 ^ 52] (where every integer is on the rounding grid). *)
Lemma rounds_to_int_bounds (x : R) (z : spec_float) (N : Z) :
  rounds_to false x z -> (x < bpow 52)%R ->
  ((IZR N <= x -> IZR N <= B2R z) /\
   (x <= IZR N -> B2R z <= IZR N) /\
   (IZR N + x * bpow (-52) <= x -> IZR N < B2R z) /\
   (x < IZR N - x * bpow (-52) -> B2R z < IZR N) /\
   (IZR N - x * bpow (-54) <= x -> IZR N <= B2R z))%R.
Proof.
  intros (m & e & e1 & q & c & -> & _ & Hq & Hc & Hv & [Hx1 Hx2] & Hex & Hlow & Hhigh) Hlt.
  cbn [B2R cond_Zopp]. rewrite Hv.
  pose proof (bpow_gt_0 e1) as He1.
  assert (Hq' : (IZR (2 ^ 52) <= IZR q)%R) by (apply IZR_le; lia).
  rewrite <- (bpow_IZR 52) in Hq' by lia.
  pose proof (bpow_gt_0 52) as H52.
  assert (Hneg : e1 < 0).
  { apply bpow_lt_inv. change (bpow 0) with 1%R.
    destruct (Rlt_le_dec (bpow e1) 1) as [|Hge]; auto. exfalso. nra. }
  assert (Hulp : (bpow e1 <= x * bpow (-52))%R).
  { assert (H : (bpow 52 * bpow (-52) = 1)%R) by (rewrite <- bpow_add; reflexivity).
    pose proof (bpow_gt_0 (-52)).
    assert (bpow 52 * bpow e1 <= x)%R by nra.
    assert (E : bpow e1 = (bpow 52 * bpow e1 * bpow (-52))%R).
    { transitivity (bpow e1 * (bpow 52 * bpow (-52)))%R; [rewrite H; ring|ring]. }
    rewrite E. apply Rmult_le_compat_r; lra. }
  assert (HN : IZR N = (IZR (N * 2 ^ (- e1)) * bpow e1)%R).
  { rewrite mult_IZR, <- (bpow_IZR (- e1)) by lia.
    rewrite Rmult_assoc, <- bpow_add. replace (- e1 + e1) with 0 by lia.
    change (bpow 0) with 1%R. ring. }
  set (N' := N * 2 ^ (- e1)) in *. rewrite HN. clearbody N'.
  rewrite plus_IZR in Hx2.
  assert (Hm : forall a b : Z, (IZR a * bpow e1 < IZR b * bpow e1)%R -> a < b).
  { intros a b H. apply lt_IZR. nra. }
  assert (Hle : forall a b : Z, a <= b -> (IZR a * bpow e1 <= IZR b * bpow e1)%R).
  { intros a b H. apply IZR_le in H. nra. }
  assert (Hlt' : forall a b : Z, a < b -> (IZR a * bpow e1 < IZR b * bpow e1)%R).
  { intros a b H. apply IZR_lt in H. nra. }
  repeat split.
  - intros H. apply Hle. assert (N' < q + 1) by (apply Hm; rewrite plus_IZR; lra). lia.
  - intros H. apply Hle.
    destruct (Z.eq_dec q N') as [->|Hne].
    + rewrite Hex; [lia|]. lra.
    + assert (q <= N'); [|lia]. apply le_IZR.
      destruct (Rle_lt_dec (IZR q) (IZR N')) as [|Hgt]; auto. exfalso. nra.
  - intros H. apply Hlt'.
    assert (N' + 1 < q + 1); [|lia]. apply Hm. rewrite !plus_IZR. nra.
  - intros H. apply Hlt'.
    assert (q < N' - 1); [|lia]. apply Hm. rewrite minus_IZR. nra.
  - intros H. apply Hle.
    destruct (Rle_lt_dec (IZR N' * bpow e1) x) as [Hge|Hbelow].
    + assert (N' < q + 1) by (apply Hm; rewrite plus_IZR; lra). lia.
    + assert (Hq2 : (IZR (q + 1) <= IZR (2 ^ 53))%R) by (apply IZR_le; lia).
      rewrite <- (bpow_IZR 53), plus_IZR in Hq2 by lia.
      assert (H54 : (bpow 53 * bpow (-54) = / 2)%R).
      { rewrite <- bpow_add. change (53 + -54) with (- (1)). rewrite bpow_opp, bpow_1. reflexivity. }
      pose proof (bpow_gt_0 (-54)). pose proof (bpow_gt_0 53).
      assert (Hh : (x * bpow (-54) < bpow e1 * / 2)%R).
      { rewrite <- H54.
        assert (x < bpow 53 * bpow e1)%R by nra.
        replace (bpow e1 * (bpow 53 * bpow (-54)))%R with (bpow 53 * bpow e1 * bpow (-54))%R by ring.
        apply Rmult_lt_compat_r; lra. }
      assert (Hq1 : q < N') by (apply Hm; lra).
      assert (Hq3 : N' - 1 < q + 1).
      { apply Hm. rewrite minus_IZR, plus_IZR. nra. }
      assert (q = N' - 1) by lia. subst q.
      rewrite minus_IZR in Hhigh.
      rewrite Hhigh; [lia|]. nra.
Qed.

Lemma normal_exp_lo (m : positive) (e a : Z) :
  Z.pos m < 2 ^ 53 -> (bpow a <= IZR (Z.pos m) * bpow e)%R -> a - 52 <= e.
Proof.
  intros Hm H. assert (a < 53 + e); [|lia]. apply bpow_lt_inv.
  rewrite bpow_add, (bpow_IZR 53) by lia.
  apply IZR_lt in Hm. pose proof (bpow_gt_0 e). nra.
Qed.

Lemma normal_exp_hi (m : positive) (e b : Z) :
  2 ^ 52 <= Z.pos m -> (IZR (Z.pos m) * bpow e < bpow b)%R -> e <= b - 53.
Proof.
  intros Hm H. assert (52 + e < b); [|lia]. apply bpow_lt_inv.
  rewrite bpow_add, (bpow_IZR 52) by lia.
  apply IZR_le in Hm. pose proof (bpow_gt_0 e). nra.
Qed.

(** Comparison of two normal positive doubles is comparison of their values. *)
Lemma fle_normal (mx my : positive) (ex ey : Z) :
  2 ^ 52 <= Z.pos mx < 2 ^ 53 -> 2 ^ 52 <= Z.pos my < 2 ^ 53 ->
  fle (S754_finite false mx ex) (S754_finite false my ey) = true <->
  (IZR (Z.pos mx) * bpow ex <= IZR (Z.pos my) * bpow ey)%R.
Proof.
  intros Hx Hy. unfold fle, SFleb, SFcompare.
  pose proof (bpow_gt_0 ex) as Hbx. pose proof (bpow_gt_0 ey) as Hby.
  assert (Hx1 := IZR_le _ _ (proj1 Hx)). assert (Hx2 := IZR_lt _ _ (proj2 Hx)).
  assert (Hy1 := IZR_le _ _ (proj1 Hy)). assert (Hy2 := IZR_lt _ _ (proj2 Hy)).
  rewrite <- (bpow_IZR 52) in Hx1, Hy1 by lia. rewrite <- (bpow_IZR 53) in Hx2, Hy2 by lia.
  destruct (Z.compare_spec ex ey) as [->|Hlt|Hgt].
  - rewrite Pos.compare_cont_spec. cbn [Pos.switch_Eq].
    destruct (Pos.compare_spec mx my) as [->|H|H];
      try (apply Pos2Z.pos_lt_pos, IZR_lt in H);
      (split; intros H'; try reflexivity; try discriminate; try nra).
  - split; [intros _|reflexivity].
    assert (bpow (ex + 1) <= bpow ey)%R by (apply bpow_le; lia).
    rewrite bpow_add, bpow_1 in H. pose proof bpow_53.
    pose proof (bpow_gt_0 52). nra.
  - split; [discriminate|intros H; exfalso].
    assert (bpow (ey + 1) <= bpow ex)%R by (apply bpow_le; lia).
    rewrite bpow_add, bpow_1 in H0. pose proof bpow_53.
    pose proof (bpow_gt_0 52). nra.
Qed.

Lemma Zdigits2_le (m k : Z) : 0 < m < 2 ^ k -> 0 <= k -> Zdigits2 m <= k.
Proof.
  intros [Hm Hk] H0. pose proof (Zdigits2_bounds m Hm) as [HL _].
  destruct (Z_lt_le_dec k (Zdigits2 m)) as [Hlt|]; [|lia].
  assert (2 ^ k <= 2 ^ (Zdigits2 m - 1)) by (apply Z.pow_le_mono_r; lia). lia.
Qed.

(** Subtraction of two normal positive doubles: the exact difference,
    rounded; an exact zero when they are equal. *)
Lemma fsub_spec (mx my : positive) (ex ey : Z) :
  2 ^ 52 <= Z.pos mx < 2 ^ 53 -> 2 ^ 52 <= Z.pos my < 2 ^ 53 ->
  -1022 <= ex <= 900 -> -1022 <= ey <= 900 ->
  let vx := (IZR (Z.pos mx) * bpow ex)%R in
  let vy := (IZR (Z.pos my) * bpow ey)%R in
  let z := fsub (S754_finite false mx ex) (S754_finite false my ey) in
  (vx = vy /\ z = S754_zero false) \/
  ((vy < vx)%R /\ rounds_to false (vx - vy) z) \/
  ((vx < vy)%R /\ rounds_to true (vy - vx) z).
Proof.
  intros Hx Hy Hex Hey vx vy z. subst z. unfold fsub, SFsub. cbn [cond_Zopp].
  set (ez := Z.min ex ey).
  destruct (shl_align_spec mx ex ez) as (X & ezx & -> & Hezx & HX).
  destruct (shl_align_spec my ey ez) as (Y & ezy & -> & Hezy & HY).
  cbn [fst].
  assert (Hzx : ezx = ez) by (unfold ez in *; lia).
  assert (Hzy : ezy = ez) by (unfold ez in *; lia).
  rewrite Hzx in HX. rewrite Hzy in HY. clear Hezx Hezy Hzx Hzy ezx ezy.
  assert (Hkx : 0 <= ex - ez) by (unfold ez; lia).
  assert (Hky : 0 <= ey - ez) by (unfold ez; lia).
  assert (Hvx : vx = (IZR (Z.pos X) * bpow ez)%R).
  { unfold vx. replace ex with ((ex - ez) + ez) at 1 by lia.
    rewrite bpow_add, (bpow_IZR (ex - ez)), HX, mult_IZR by lia. ring. }
  assert (Hvy : vy = (IZR (Z.pos Y) * bpow ez)%R).
  { unfold vy. replace ey with ((ey - ez) + ez) at 1 by lia.
    rewrite bpow_add, (bpow_IZR (ey - ez)), HY, mult_IZR by lia. ring. }
  pose proof (bpow_gt_0 ez) as Hbz.
  assert (HXb : Z.pos X < 2 ^ (53 + (ex - ez))).
  { rewrite HX, Z.pow_add_r by lia.
    assert (0 < 2 ^ (ex - ez)) by (apply Z.pow_pos_nonneg; lia). nia. }
  assert (HYb : Z.pos Y < 2 ^ (53 + (ey - ez))).
  { rewrite HY, Z.pow_add_r by lia.
    assert (0 < 2 ^ (ey - ez)) by (apply Z.pow_pos_nonneg; lia). nia. }
  destruct (Z.pos X - Z.pos Y) as [|p|p] eqn:HD; cbn [binary_normalize].
  - left. split; [|reflexivity]. rewrite Hvx, Hvy. f_equal. f_equal. lia.
  - right; left.
    assert (Hd : (vx - vy = IZR (Z.pos p) * bpow ez)%R).
    { rewrite Hvx, Hvy, <- HD, minus_IZR. ring. }
    split. { assert (0 < IZR (Z.pos p))%R by (apply IZR_lt; lia). nra. }
    rewrite Hd. pose proof (Zdigits2_pos (Z.pos p) ltac:(lia)).
    assert (Zdigits2 (Z.pos p) <= 53 + (ex - ez)) by (apply Zdigits2_le; lia).
    apply binary_round_rounds; unfold ez in *; lia.
  - right; right.
    assert (Hd : (vy - vx = IZR (Z.pos p) * bpow ez)%R).
    { rewrite Hvx, Hvy. replace (Z.pos p) with (Z.pos Y - Z.pos X) by lia.
      rewrite minus_IZR. ring. }
    split. { assert (0 < IZR (Z.pos p))%R by (apply IZR_lt; lia). nra. }
    rewrite Hd. pose proof (Zdigits2_pos (Z.pos p) ltac:(lia)).
    assert (Zdigits2 (Z.pos p) <= 53 + (ey - ez)) by (apply Zdigits2_le; lia).
    apply binary_round_rounds; unfold ez in *; lia.
Qed.

(** [float(n)] is exact below [2 ^ 53]. *)
Lemma of_int_spec (n : Z) :
  0 < n < 2 ^ 53 ->
  exists (m : positive) (e : Z),
    of_int n = S754_finite false m e /\ 2 ^ 52 <= Z.pos m < 2 ^ 53 /\
    (IZR (Z.pos m) * bpow e)%R = IZR n.
Proof.
  intros Hn. destruct n as [|p|p]; try lia. unfold of_int. cbn [binary_normalize].
  pose proof (Zdigits2_pos (Z.pos p) ltac:(lia)).
  assert (Zdigits2 (Z.pos p) <= 53) by (apply Zdigits2_le; lia).
  assert (Hr : rounds_to false (IZR (Z.pos p) * bpow 0) (binary_round prec emax false p 0))
    by (apply binary_round_rounds; lia).
  pose proof (rounds_to_exact _ _ (Z.pos p) 0 Hr eq_refl Hn) as Hv.
  destruct (rounds_to_normal _ _ _ Hr) as (m & e & Hz & Hm).
  exists m, e. rewrite Hz in Hv |- *. cbn [B2R cond_Zopp] in Hv.
  split; [reflexivity|]. split; [exact Hm|]. rewrite Hv. change (bpow 0) with 1%R. ring.
Qed.

Lemma trunc_unique (m : positive) (e N : Z) :
  (IZR N <= IZR (Z.pos m) * bpow e < IZR N + 1)%R ->
  trunc (S754_finite false m e) = Some N.
Proof.
  intros [H1 H2]. unfold trunc. cbn [cond_Zopp]. f_equal.
  destruct (Z.leb_spec 0 e) as [He|He].
  - rewrite (bpow_IZR e), <- mult_IZR in H1, H2 by lia. rewrite <- plus_IZR in H2.
    apply le_IZR in H1. apply lt_IZR in H2. lia.
  - assert (Hp : 0 < 2 ^ (- e)) by (apply Z.pow_pos_nonneg; lia).
    replace e with (- (- e)) in H1, H2 by lia.
    rewrite bpow_opp, (bpow_IZR (- e)) in H1, H2 by lia.
    assert (Hp' : (0 < IZR (2 ^ (- e)))%R) by (apply IZR_lt; lia).
    assert (A : (IZR (N * 2 ^ (- e)) <= IZR (Z.pos m))%R).
    { rewrite mult_IZR. apply Rmult_le_reg_r with (/ IZR (2 ^ (- e)))%R.
      - now apply Rinv_0_lt_compat.
      - rewrite Rmult_assoc, Rinv_r by lra. lra. }
    assert (B : (IZR (Z.pos m) < IZR ((N + 1) * 2 ^ (- e)))%R).
    { rewrite mult_IZR, plus_IZR. apply Rmult_lt_reg_r with (/ IZR (2 ^ (- e)))%R.
      - now apply Rinv_0_lt_compat.
      - rewrite (Rmult_assoc (IZR N + 1)), Rinv_r by lra. lra. }
    apply le_IZR in A. apply lt_IZR in B.
    symmetry. apply Z.div_unique with (Z.pos m - N * 2 ^ (- e)); lia.
Qed.


Lemma bpow_neg_IZR (k : Z) : 0 <= k -> bpow (- k) = (/ IZR (2 ^ k))%R.
Proof. intros. now rewrite bpow_opp, bpow_IZR. Qed.

Lemma bpow_m52 : bpow (-52) = (/ 4503599627370496)%R.
Proof. exact (bpow_neg_IZR 52 ltac:(lia)). Qed.

Lemma bpow_m54 : bpow (-54) = (/ 18014398509481984)%R.
Proof. exact (bpow_neg_IZR 54 ltac:(lia)). Qed.

Lemma bpow_m53 : bpow (-53) = (/ 9007199254740992)%R.
Proof. exact (bpow_neg_IZR 53 ltac:(lia)). Qed.

Lemma of_int_range (n : Z) (b : Z) :
  0 < n < 2 ^ b -> 0 <= b <= 53 ->
  exists (m : positive) (e : Z),
    of_int n = S754_finite false m e /\ 2 ^ 52 <= Z.pos m < 2 ^ 53 /\
    (IZR (Z.pos m) * bpow e)%R = IZR n /\ -52 <= e <= b - 53.
Proof.
  intros Hn Hb.
  assert (2 ^ b <= 2 ^ 53) by (apply Z.pow_le_mono_r; lia).
  destruct (of_int_spec n ltac:(lia)) as (m & e & Hz & Hm & Hv).
  exists m, e. repeat split; try tauto; try lia.
  - apply (normal_exp_lo m e 0); [lia|]. rewrite Hv. change (bpow 0) with 1%R.
    apply IZR_le. lia.
  - apply (normal_exp_hi m e b); [lia|]. rewrite Hv, (bpow_IZR b) by lia.
    apply IZR_lt. lia.
Qed.


(** [int(w * c)] for a double [c] in [[1/2, 1)] that is [num / den] rounded
    to nearest: the exact [floor (w * num / den)], for any [w] below
    [2 ^ 31] and [den] up to [2 ^ 12]. *)
Lemma trunc_mul_ratio (w num den : Z) (mc : positive) :
  0 < w < 2 ^ 31 -> 0 < num < den -> den <= 2 ^ 12 ->
  2 ^ 52 <= Z.pos mc < 2 ^ 53 ->
  4 * (num * 2 ^ 53 - Z.pos mc * den) <= den ->
  (Z.pos mc - 1) * den < num * 2 ^ 53 ->
  trunc (fmul (of_int w) (S754_finite false mc (-53))) = Some (w * num / den).
Proof.
  intros Hw Hnum Hden Hmc Hc1 Hc2.
  destruct (of_int_range w 31 Hw ltac:(lia)) as (mw & ew & -> & Hmw & Hvw & Hew).
  pose proof (fmul_rounds mw mc ew (-53) Hmw Hmc ltac:(lia) ltac:(lia)) as Hr.
  rewrite Hvw in Hr.
  set (C := (IZR (Z.pos mc) * bpow (-53))%R) in *.
  set (N := w * num / den).
  pose proof (Z.mul_div_le (w * num) den ltac:(lia)) as HN1. fold N in HN1.
  pose proof (Z.mul_succ_div_gt (w * num) den ltac:(lia)) as HN2. fold N in HN2.
  assert (HwR : (1 <= IZR w <= 2147483647)%R) by (split; apply IZR_le; lia).
  assert (HdR : (1 <= IZR den <= 4096)%R) by (split; apply IZR_le; lia).
  assert (HC1 : (IZR num - IZR den * / 36028797018963968 <= IZR den * C)%R).
  { unfold C. rewrite bpow_m53. apply IZR_le in Hc1.
    rewrite !mult_IZR, minus_IZR, !mult_IZR in Hc1.
    change (IZR (2 ^ 53)) with 9007199254740992%R in Hc1. lra. }
  assert (HC2 : (IZR den * C < IZR num + IZR den * / 9007199254740992)%R).
  { unfold C. rewrite bpow_m53. apply IZR_lt in Hc2.
    rewrite !mult_IZR, minus_IZR in Hc2.
    change (IZR (2 ^ 53)) with 9007199254740992%R in Hc2. lra. }
  assert (HC3 : (/ 2 <= C < 1)%R).
  { unfold C. rewrite bpow_m53.
    assert (4503599627370496 <= IZR (Z.pos mc) < 9007199254740992)%R
      by (split; [apply IZR_le|apply IZR_lt]; lia). lra. }
  assert (HN1R : (IZR den * IZR N <= IZR w * IZR num)%R)
    by (rewrite <- !mult_IZR; apply IZR_le; lia).
  assert (HN2R : (IZR w * IZR num + 1 <= IZR den * (IZR N + 1))%R).
  { rewrite <- !mult_IZR, <- !plus_IZR, <- mult_IZR. apply IZR_le.
    replace (Z.succ N) with (N + 1) in HN2 by lia. lia. }
  set (x := (IZR w * C)%R) in *.
  assert (Hx52 : (x < bpow 52)%R).
  { rewrite (bpow_IZR 52) by lia. change (IZR (2 ^ 52)) with 4503599627370496%R.
    unfold x. nra. }
  destruct (rounds_to_int_bounds x _ N Hr Hx52) as (_ & _ & _ & _ & B5).
  destruct (rounds_to_int_bounds x _ (N + 1) Hr Hx52) as (_ & _ & _ & B4 & _).
  destruct (rounds_to_normal _ _ _ Hr) as (m & e & Hz & Hm).
  rewrite Hz in B5, B4 |- *. cbn [B2R cond_Zopp] in B5, B4.
  rewrite plus_IZR in B4.
  assert (Hwd : (IZR den * x = IZR w * (IZR den * C))%R) by (unfold x; ring).
  apply trunc_unique. split.
  - apply B5. rewrite bpow_m54.
    apply Rmult_le_reg_l with (IZR den); [lra|].
    assert (IZR w * (IZR num - IZR den * / 36028797018963968) <= IZR den * x)%R
      by (rewrite Hwd; apply Rmult_le_compat_l; lra).
    assert (IZR w * / 2 <= x)%R by (unfold x; apply Rmult_le_compat_l; lra).
    assert (IZR den * (IZR w * / 36028797018963968) <= IZR den * (x * / 18014398509481984))%R
      by (apply Rmult_le_compat_l; lra).
    lra.
  - apply B4. rewrite bpow_m52.
    apply Rmult_lt_reg_l with (IZR den); [lra|].
    assert (H1 : (IZR den * x < IZR w * (IZR num + IZR den * / 9007199254740992))%R)
      by (rewrite Hwd; apply Rmult_lt_compat_l; lra).
    assert (H2 : (IZR w * IZR den <= 2147483647 * 4096)%R)
      by (apply Rmult_le_compat; lra).
    assert (H3 : (x <= IZR w)%R) by (unfold x; nra).
    assert (H4 : (IZR den * x <= 4096 * 2147483647)%R)
      by (apply Rmult_le_compat; try lra; unfold x; nra).
    lra.
Qed.

Lemma CROP_WIDTH_RATIO_eq :
  CROP_WIDTH_RATIO = S754_finite false 8278221537279101 (-53).
Proof. vm_compute. reflexivity. Qed.

Lemma CROP_HEIGHT_RATIO_eq :
  CROP_HEIGHT_RATIO = S754_finite false 8519750824484421 (-53).
Proof. vm_compute. reflexivity. Qed.

Lemma EXPECTED_ASPECT_RATIO_eq :
  EXPECTED_ASPECT_RATIO = S754_finite false 6621426813485227 (-53).
Proof. vm_compute. reflexivity. Qed.

Lemma target_width_exact (w : Z) :
  0 < w < 2 ^ 31 ->
  trunc (fmul (of_int w) CROP_WIDTH_RATIO) = Some (w * 2010 / 2187).
Proof.
  intros Hw. rewrite CROP_WIDTH_RATIO_eq. apply trunc_mul_ratio; lia.
Qed.

Lemma target_height_exact (h : Z) :
  0 < h < 2 ^ 31 ->
  trunc (fmul (of_int h) CROP_HEIGHT_RATIO) = Some (h * 2814 / 2975).
Proof.
  intros Hh. rewrite CROP_HEIGHT_RATIO_eq. apply trunc_mul_ratio; lia.
Qed.

Lemma feq_normal_true (mx my : positive) (ex ey : Z) :
  feq (S754_finite false mx ex) (S754_finite false my ey) = true ->
  mx = my /\ ex = ey.
Proof.
  unfold feq, SFeqb, SFcompare.
  destruct (Z.compare_spec ex ey) as [->|H|H]; try discriminate.
  rewrite Pos.compare_cont_spec. cbn [Pos.switch_Eq].
  destruct (Pos.compare_spec mx my) as [->|H|H]; try discriminate. auto.
Qed.

Lemma bpow_m62 : bpow (-62) = (/ 4611686018427387904)%R.
Proof. exact (bpow_neg_IZR 62 ltac:(lia)). Qed.

Lemma bpow_m63 : bpow (-63) = (/ 9223372036854775808)%R.
Proof. exact (bpow_neg_IZR 63 ltac:(lia)). Qed.

Lemma bpow_m32 : bpow (-32) = (/ 4294967296)%R.
Proof. exact (bpow_neg_IZR 32 ltac:(lia)). Qed.

Lemma bpow_32 : bpow 32 = 4294967296%R.
Proof. exact (bpow_IZR 32 ltac:(lia)). Qed.

(** What the three comparisons of [isclose] decide, in real numbers, for a
    normal positive ratio [a]. *)
Lemma isclose_expected_R (ma : positive) (ea : Z) :
  2 ^ 52 <= Z.pos ma < 2 ^ 53 -> -84 <= ea <= -21 ->
  let va := (IZR (Z.pos ma) * bpow ea)%R in
  exists vd vta : R,
    (isclose (S754_finite false ma ea) EXPECTED_ASPECT_RATIO rel_tol abs_tol = true <->
     (va = v_expected \/ vd <= v_tol_expected \/ vd <= vta)%R) /\
    (Rabs (vd - Rabs (v_expected - va)) <= Rabs (v_expected - va) * u52)%R /\
    (Rabs (vta - v_rel_tol * va) <= v_rel_tol * va * u52)%R.
Proof.
  intros Hma Hea va.
  assert (Hva : (0 < va)%R).
  { unfold va. apply Rmult_lt_0_compat; [apply IZR_lt; lia|apply bpow_gt_0]. }
  (* the product rel_tol * a *)
  pose proof (fmul_rounds 4611686018427388 ma (-62) ea ltac:(lia) Hma ltac:(lia) ltac:(lia)) as Hta.
  fold va in Hta. rewrite bpow_m62 in Hta. fold v_rel_tol in Hta. fold rel_tol in Hta.
  pose proof (rounds_to_rel _ _ Hta) as Hta_rel. rewrite bpow_m52 in Hta_rel. fold u52 in Hta_rel.
  destruct (rounds_to_normal _ _ _ Hta) as (mt & et & Hzt & Hmt).
  rewrite Hzt in Hta_rel. cbn [B2R cond_Zopp] in Hta_rel.
  set (vta := (IZR (Z.pos mt) * bpow et)%R) in *.
  rewrite EXPECTED_ASPECT_RATIO_eq.
  assert (Htb : fabs (fmul rel_tol (S754_finite false 6621426813485227 (-53)))
                = S754_finite false 6780341057008873 (-63)) by (vm_compute; reflexivity).
  assert (Hvtb : (IZR 6780341057008873 * bpow (-63))%R = v_tol_expected)
    by (rewrite bpow_m63; reflexivity).
  assert (Hvb : (IZR 6621426813485227 * bpow (-53))%R = v_expected)
    by (rewrite bpow_m53; reflexivity).
  unfold isclose. rewrite Htb, Hzt. cbn [is_inf orb].
  destruct (fsub_spec 6621426813485227 ma (-53) ea ltac:(lia) Hma ltac:(lia) ltac:(lia))
    as [[Heq Hz]|[[Hlt Hz]|[Hlt Hz]]]; fold va in Heq || fold va in Hlt;
    try rewrite Hvb in *.
  - (* equal values *)
    exists 0%R, vta. split; [|split].
    + split; [intros _; left; symmetry; exact Heq|intros _].
      destruct (feq _ _); [reflexivity|]. rewrite Hz. reflexivity.
    + rewrite Heq, Rminus_diag, Rabs_R0, Rminus_diag, Rabs_R0. lra.
    + exact Hta_rel.
  - (* a below the reference *)
    fold va in Hz.
    pose proof (rounds_to_rel _ _ Hz) as Hd_rel. rewrite bpow_m52 in Hd_rel. fold u52 in Hd_rel.
    destruct (rounds_to_normal _ _ _ Hz) as (md & ed & Hzd & Hmd).
    rewrite Hzd in Hd_rel |- *. cbn [B2R cond_Zopp] in Hd_rel.
    set (vd := (IZR (Z.pos md) * bpow ed)%R) in *.
    exists vd, vta. split; [|split].
    + destruct (feq _ _) eqn:Hf.
      { apply feq_normal_true in Hf as [-> ->]. exfalso. unfold va in Hlt.
        rewrite bpow_m53 in Hlt. unfold v_expected in Hlt. lra. }
      cbn [fabs SFabs].
      replace (fle (S754_finite false md ed) abs_tol) with false by reflexivity.
      rewrite orb_false_r, orb_true_iff.
      rewrite (fle_normal md 6780341057008873 ed (-63) Hmd ltac:(lia)).
      rewrite (fle_normal md mt ed et Hmd Hmt). fold vd vta. rewrite Hvtb.
      split; [intros H; right; exact H|intros [H|H]; [exfalso; lra|exact H]].
    + rewrite (Rabs_pos_eq (v_expected - va)) by lra. exact Hd_rel.
    + exact Hta_rel.
  - (* a above the reference *)
    fold va in Hz. apply rounds_to_abs in Hz.
    pose proof (rounds_to_rel _ _ Hz) as Hd_rel. rewrite bpow_m52 in Hd_rel. fold u52 in Hd_rel.
    destruct (rounds_to_normal _ _ _ Hz) as (md & ed & Hzd & Hmd).
    rewrite Hzd in Hd_rel |- *. cbn [B2R cond_Zopp] in Hd_rel.
    set (vd := (IZR (Z.pos md) * bpow ed)%R) in *.
    exists vd, vta. split; [|split].
    + destruct (feq _ _) eqn:Hf.
      { apply feq_normal_true in Hf as [-> ->]. exfalso. unfold va in Hlt.
        rewrite bpow_m53 in Hlt. unfold v_expected in Hlt. lra. }
      replace (fle (S754_finite false md ed) abs_tol) with false by reflexivity.
      rewrite orb_false_r, orb_true_iff.
      rewrite (fle_normal md 6780341057008873 ed (-63) Hmd ltac:(lia)).
      rewrite (fle_normal md mt ed et Hmd Hmt). fold vd vta. rewrite Hvtb.
      split; [intros H; right; exact H|intros [H|H]; [exfalso; lra|exact H]].
    + rewrite (Rabs_left (v_expected - va)) by lra.
      replace (- (v_expected - va))%R with (va - v_expected)%R by ring. exact Hd_rel.
    + exact Hta_rel.
Qed.

Lemma Rabs_le_inv (a b : R) : (Rabs a <= b)%R -> (- b <= a <= b)%R.
Proof. unfold Rabs. destruct (Rcase_abs a); lra. Qed.

(** The real-number core of the tolerance test: with every rounding error
    bounded by [2 ^ -52], acceptance implies a relative distance of at most
    [1e-3 + 1e-9] and is implied by one of at most [1e-3 - 1e-9], the
    distance being relative to the larger of the two ratios. *)
Lemma isclose_bracket_R (rho va vd vta : R) :
  (0 < rho)%R ->
  (Rabs (va - rho) <= rho * u52)%R ->
  (Rabs (vd - Rabs (v_expected - va)) <= Rabs (v_expected - va) * u52)%R ->
  (Rabs (vta - v_rel_tol * va) <= v_rel_tol * va * u52)%R ->
  (((va = v_expected \/ vd <= v_tol_expected \/ vd <= vta) ->
    (rho <= 2187 / 2975 -> 1000000000 * (2187 / 2975 - rho) <= 1000001 * (2187 / 2975)) /\
    (2187 / 2975 <= rho -> 1000000000 * (rho - 2187 / 2975) <= 1000001 * rho)) /\
   ((rho <= 2187 / 2975 /\ 1000000000 * (2187 / 2975 - rho) <= 999999 * (2187 / 2975)) \/
    (2187 / 2975 <= rho /\ 1000000000 * (rho - 2187 / 2975) <= 999999 * rho) ->
    (va = v_expected \/ vd <= v_tol_expected \/ vd <= vta)))%R.
Proof.
  unfold u52, v_expected, v_rel_tol, v_tol_expected.
  intros Hrho Ha Hd Ht.
  apply Rabs_le_inv in Ha. apply Rabs_le_inv in Ht.
  set (D := Rabs (6621426813485227 * / 9007199254740992 - va)) in *.
  apply Rabs_le_inv in Hd.
  assert (HD : (D = 6621426813485227 * / 9007199254740992 - va /\ va <= 6621426813485227 * / 9007199254740992
              \/ D = va - 6621426813485227 * / 9007199254740992 /\ 6621426813485227 * / 9007199254740992 <= va)%R).
  { unfold D, Rabs. destruct (Rcase_abs _); [right|left]; split; lra. }
  clearbody D.
  split.
  - intros [H|[H|H]]; destruct HD as [[HD1 HD2]|[HD1 HD2]]; split; intros; lra.
  - intros [[H1 H2]|[H1 H2]]; destruct HD as [[HD1 HD2]|[HD1 HD2]].
    + right; left. lra.
    + right; left. lra.
    + right; right. lra.
    + right; right. lra.
Qed.

(** The ratio [w / h] of two image dimensions as a double. *)
Lemma ratio_normal (w h : Z) :
  0 < w < 2 ^ 31 -> 0 < h < 2 ^ 31 ->
  exists (ma : positive) (ea : Z),
    fdiv (of_int w) (of_int h) = S754_finite false ma ea /\
    2 ^ 52 <= Z.pos ma < 2 ^ 53 /\ -84 <= ea <= -21 /\
    (Rabs (IZR (Z.pos ma) * bpow ea - IZR w / IZR h) <= IZR w / IZR h * u52)%R.
Proof.
  intros Hw Hh.
  destruct (of_int_range w 31 Hw ltac:(lia)) as (mw & ew & -> & Hmw & Hvw & Hew).
  destruct (of_int_range h 31 Hh ltac:(lia)) as (mh & eh & -> & Hmh & Hvh & Heh).
  pose proof (fdiv_rounds mw mh ew eh Hmw Hmh ltac:(lia) ltac:(lia)) as Hr.
  rewrite Hvw, Hvh in Hr.
  pose proof (rounds_to_rel _ _ Hr) as Hrel. rewrite bpow_m52 in Hrel. fold u52 in Hrel.
  destruct (rounds_to_normal _ _ _ Hr) as (ma & ea & Hz & Hma).
  rewrite Hz in Hrel |- *. cbn [B2R cond_Zopp] in Hrel.
  exists ma, ea. split; [reflexivity|]. split; [exact Hma|]. split; [|exact Hrel].
  assert (HwR : (1 <= IZR w <= 2147483647)%R) by (split; apply IZR_le; lia).
  assert (HhR : (1 <= IZR h <= 2147483647)%R) by (split; apply IZR_le; lia).
  set (rho := (IZR w / IZR h)%R) in *.
  assert (Hrh : (rho * IZR h = IZR w)%R) by (unfold rho; field; lra).
  assert (Hrho : (/ 2147483647 <= rho <= 2147483647)%R).
  { split.
    - apply Rmult_le_reg_r with (IZR h); [lra|]. rewrite Hrh.
      apply Rle_trans with (/ 2147483647 * 2147483647)%R; [|lra].
      apply Rmult_le_compat_l; lra.
    - apply Rmult_le_reg_r with (IZR h); [lra|]. rewrite Hrh. nra. }
  apply Rabs_le_inv in Hrel. unfold u52 in Hrel.
  split.
  - apply (normal_exp_lo ma ea (-32)); [lia|]. rewrite bpow_m32. lra.
  - apply (normal_exp_hi ma ea 32); [lia|]. rewrite bpow_32. lra.
Qed.

(** The tolerance test on integer dimensions, with exact integer
    arithmetic on both sides: [|w/h - 2187/2975| <= t * max (w/h) (2187/2975)]
    is [|2975 w - 2187 h| <= t * max (2975 w) (2187 h)]. *)
Lemma isclose_ratio_bracket (w h : Z) :
  0 < w < 2 ^ 31 -> 0 < h < 2 ^ 31 ->
  let a := fdiv (of_int w) (of_int h) in
  (isclose a EXPECTED_ASPECT_RATIO rel_tol abs_tol = true ->
   1000000000 * Z.abs (2975 * w - 2187 * h) <= 1000001 * Z.max (2975 * w) (2187 * h)) /\
  (1000000000 * Z.abs (2975 * w - 2187 * h) <= 999999 * Z.max (2975 * w) (2187 * h) ->
   isclose a EXPECTED_ASPECT_RATIO rel_tol abs_tol = true).
Proof.
  intros Hw Hh a. subst a.
  destruct (ratio_normal w h Hw Hh) as (ma & ea & -> & Hma & Hea & Hrel).
  destruct (isclose_expected_R ma ea Hma Hea) as (vd & vta & Hiff & Hd & Ht).
  assert (HwR : (0 < IZR w)%R) by (apply IZR_lt; lia).
  assert (HhR : (0 < IZR h)%R) by (apply IZR_lt; lia).
  set (rho := (IZR w / IZR h)%R) in *.
  assert (Hrh : (rho * IZR h = IZR w)%R) by (unfold rho; field; lra).
  assert (Hrho : (0 < rho)%R) by (unfold rho; apply Rdiv_lt_0_compat; lra).
  destruct (isclose_bracket_R rho _ vd vta Hrho Hrel Hd Ht) as [HA HB].
  rewrite Hiff. clear Hiff Hd Ht Hrel.
  assert (Hcmp1 : 2975 * w <= 2187 * h -> (rho <= 2187 / 2975)%R).
  { intros H. apply IZR_le in H. rewrite !mult_IZR in H.
    apply Rmult_le_reg_r with (IZR h); [lra|]. rewrite Hrh. lra. }
  assert (Hcmp2 : 2187 * h <= 2975 * w -> (2187 / 2975 <= rho)%R).
  { intros H. apply IZR_le in H. rewrite !mult_IZR in H.
    apply Rmult_le_reg_r with (IZR h); [lra|]. rewrite Hrh. lra. }
  split.
  - intros H. destruct (HA H) as [H1 H2]. clear HA HB.
    destruct (Z_le_gt_dec (2975 * w) (2187 * h)) as [Hle|Hgt].
    + specialize (H1 (Hcmp1 Hle)).
      rewrite Z.max_r, Z.abs_neq by lia.
      apply le_IZR. rewrite !mult_IZR, opp_IZR, minus_IZR, !mult_IZR.
      assert (1000000000 * (2187 / 2975 - rho) * (2975 * IZR h)
              <= 1000001 * (2187 / 2975) * (2975 * IZR h))%R
        by (apply Rmult_le_compat_r; lra).
      replace (1000000000 * (2187 / 2975 - rho) * (2975 * IZR h))%R
        with (1000000000 * (2187 * IZR h - 2975 * IZR w))%R in H0
        by (rewrite <- Hrh; field).
      lra.
    + specialize (H2 (Hcmp2 ltac:(lia))).
      rewrite Z.max_l, Z.abs_eq by lia.
      apply le_IZR. rewrite !mult_IZR, minus_IZR, !mult_IZR.
      assert (1000000000 * (rho - 2187 / 2975) * (2975 * IZR h)
              <= 1000001 * rho * (2975 * IZR h))%R
        by (apply Rmult_le_compat_r; lra).
      replace (1000000000 * (rho - 2187 / 2975) * (2975 * IZR h))%R
        with (1000000000 * (2975 * IZR w - 2187 * IZR h))%R in H0
        by (rewrite <- Hrh; field).
      replace (1000001 * rho * (2975 * IZR h))%R
        with (1000001 * (2975 * IZR w))%R in H0 by (rewrite <- Hrh; ring).
      lra.
  - intros H. apply HB. clear HA HB.
    destruct (Z_le_gt_dec (2975 * w) (2187 * h)) as [Hle|Hgt].
    + left. split; [exact (Hcmp1 Hle)|].
      rewrite Z.max_r, Z.abs_neq in H by lia.
      apply IZR_le in H. rewrite !mult_IZR, opp_IZR, minus_IZR, !mult_IZR in H.
      apply Rmult_le_reg_r with (2975 * IZR h)%R; [lra|].
      replace (1000000000 * (2187 / 2975 - rho) * (2975 * IZR h))%R
        with (1000000000 * (2187 * IZR h - 2975 * IZR w))%R
        by (rewrite <- Hrh; field).
      lra.
    + right. split; [exact (Hcmp2 ltac:(lia))|].
      rewrite Z.max_l, Z.abs_eq in H by lia.
      apply IZR_le in H. rewrite !mult_IZR, minus_IZR, !mult_IZR in H.
      apply Rmult_le_reg_r with (2975 * IZR h)%R; [lra|].
      replace (1000000000 * (rho - 2187 / 2975) * (2975 * IZR h))%R
        with (1000000000 * (2975 * IZR w - 2187 * IZR h))%R
        by (rewrite <- Hrh; field).
      replace (999999 * rho * (2975 * IZR h))%R
        with (999999 * (2975 * IZR w))%R by (rewrite <- Hrh; ring).
      lra.
Qed.

End F64Facts.

(** ** Strings *)

Module PyStrFacts.
Import PyStr.

Lemma mem_strip_chars (c : ascii) :
  mem_ascii c "0123456789_ " = is_strip_char c.
Proof. destruct c as [[] [] [] [] [] [] [] []]; reflexivity. Qed.

(** [lstrip] over the program's character set is the left-trim of the
    specification. *)
Lemma lstrip_ltrim (s : string) : lstrip "0123456789_ " s = ltrim_class s.
Proof.
  induction s as [|c s IH]; [reflexivity|].
  cbn [lstrip ltrim_class]. rewrite mem_strip_chars, IH. reflexivity.
Qed.

Lemma ltrim_all_strip (s : string) :
  all_strip_chars s = true -> ltrim_class s = EmptyString.
Proof.
  induction s as [|c s IH]; [reflexivity|]. cbn [all_strip_chars ltrim_class].
  intros [Hc Hs]%andb_true_iff. rewrite Hc. auto.
Qed.

Lemma normalize_quote_other (c : ascii) (s : string) :
  c <> "226"%char -> normalize_quote (String c s) = String c (normalize_quote s).
Proof.
  intros H. destruct c as [[] [] [] [] [] [] [] []]; try reflexivity.
  exfalso. apply H. reflexivity.
Qed.

Lemma normalize_quote_226_other (d : ascii) (s : string) :
  d <> "128"%char ->
  normalize_quote (String "226" (String d s)) = String "226" (normalize_quote (String d s)).
Proof.
  intros H. destruct d as [[] [] [] [] [] [] [] []]; try reflexivity.
  exfalso. apply H. reflexivity.
Qed.

Lemma normalize_quote_226_128_other (e : ascii) (s : string) :
  e <> "153"%char ->
  normalize_quote (String "226" (String "128" (String e s)))
  = String "226" (String "128" (normalize_quote (String e s))).
Proof.
  intros H. destruct e as [[] [] [] [] [] [] [] []]; try reflexivity.
  exfalso. apply H. reflexivity.
Qed.

(** [replace] of the right single quotation mark is [normalize_quote]. *)
Lemma replace_quote_bounded (n : nat) (s : string) :
  (String.length s <= n)%nat ->
  replace_from "’" "'" 0 s = normalize_quote s.
Proof.
  revert s. induction n as [n IH] using lt_wf_ind. intros s Hlen.
  destruct s as [|c s1]; [reflexivity|].
  assert (IH' : forall t, (String.length t < String.length (String c s1))%nat ->
                          replace_from "’" "'" 0 t = normalize_quote t).
  { intros t Ht. cbn [String.length] in *. apply (IH (String.length t)); lia. }
  clear IH.
  cbn [replace_from String.prefix].
  destruct (ascii_dec "226" c) as [<-|Hc].
  2:{ rewrite normalize_quote_other by congruence. f_equal. apply IH'. cbn. lia. }
  destruct s1 as [|d s2].
  { reflexivity. }
  cbn [String.prefix].
  destruct (ascii_dec "128" d) as [<-|Hd].
  2:{ rewrite normalize_quote_226_other by congruence. f_equal. apply IH'. cbn. lia. }
  destruct s2 as [|e s3].
  { reflexivity. }
  cbn [String.prefix].
  destruct (ascii_dec "153" e) as [<-|He].
  2:{ rewrite normalize_quote_226_128_other by congruence.
      f_equal. rewrite (IH' (String "128" (String e s3))) by (cbn; lia).
      rewrite normalize_quote_other by discriminate. reflexivity. }
  replace (String.prefix "" s3) with true by (destruct s3; reflexivity).
  cbn. f_equal. apply IH'. cbn. lia.
Qed.

Lemma replace_quote (s : string) :
  replace "’" "'" s = normalize_quote s.
Proof. apply (replace_quote_bounded (String.length s)). lia. Qed.

(** *** Prefixes and suffixes *)

Lemma app_cons (c : ascii) (a b : string) : String c a +:+ b = String c (a +:+ b).
Proof. reflexivity. Qed.

Lemma app_nil_l (b : string) : EmptyString +:+ b = b.
Proof. reflexivity. Qed.

Lemma take_drop (n : nat) (s : string) : take n s +:+ drop n s = s.
Proof.
  revert s. induction n as [|n IH]; intros [|c s]; cbn [take drop];
    rewrite ?app_cons, ?app_nil_l; try reflexivity.
  f_equal. apply IH.
Qed.

Lemma take_app_length (a b : string) : take (String.length a) (a +:+ b) = a.
Proof.
  induction a as [|c a IH]; rewrite ?app_cons, ?app_nil_l; cbn [String.length take].
  - now destruct b.
  - f_equal. apply IH.
Qed.

Lemma drop_app_length (a b : string) : drop (String.length a) (a +:+ b) = b.
Proof.
  induction a as [|c a IH]; rewrite ?app_cons, ?app_nil_l; cbn [String.length drop]; auto.
Qed.

Lemma length_app (a b : string) :
  String.length (a +:+ b) = (String.length a + String.length b)%nat.
Proof.
  induction a as [|c a IH]; rewrite ?app_cons, ?app_nil_l; cbn [String.length]; auto.
  rewrite IH. reflexivity.
Qed.

Lemma lower_app (a b : string) : lower (a +:+ b) = lower a +:+ lower b.
Proof.
  induction a as [|c a IH]; rewrite ?app_cons, ?app_nil_l; cbn [lower];
    rewrite ?app_cons, ?app_nil_l; [reflexivity|f_equal; apply IH].
Qed.

Lemma endswith_app (a b : string) : endswith (a +:+ b) b = true.
Proof.
  unfold endswith. rewrite length_app.
  replace (String.length a + String.length b - String.length b)%nat
    with (String.length a) by lia.
  rewrite drop_app_length, String.eqb_refl, andb_true_r.
  apply Nat.leb_le. lia.
Qed.

Lemma endswith_any_app (a b : string) (suffixes : list string) :
  In b suffixes -> endswith_any (a +:+ b) suffixes = true.
Proof.
  intros H. unfold endswith_any. apply existsb_exists.
  exists b. split; [exact H|apply endswith_app].
Qed.

(** *** [rfind] and [splitext] *)

Lemma rfind_ge (c : ascii) (s : string) : -1 <= rfind c s.
Proof.
  induction s as [|x s IH]; cbn [rfind]; [lia|].
  destruct (Z.leb_spec 0 (rfind c s)); [lia|]. destruct (Ascii.eqb x c); lia.
Qed.

Lemma rfind_absent (c : ascii) (s : string) :
  contains c s = false -> rfind c s = -1.
Proof.
  induction s as [|x s IH]; cbn [rfind contains]; [reflexivity|].
  intros [Hx Hs]%orb_false_iff. rewrite (IH Hs), Hx. reflexivity.
Qed.

Lemma contains_app (c : ascii) (a b : string) :
  contains c (a +:+ b) = contains c a || contains c b.
Proof.
  induction a as [|x a IH]; rewrite ?app_cons, ?app_nil_l; cbn [contains]; [reflexivity|].
  rewrite IH. now rewrite orb_assoc.
Qed.

Lemma rfind_app_last (c : ascii) (a e : string) :
  contains c e = false ->
  rfind c (a +:+ String c e) = Z.of_nat (String.length a).
Proof.
  intros He. induction a as [|x a IH].
  - rewrite app_nil_l. cbn [rfind String.length]. rewrite (rfind_absent c e He).
    cbn. now rewrite Ascii.eqb_refl.
  - rewrite app_cons. cbn [rfind String.length]. rewrite IH.
    destruct (Z.leb_spec 0 (Z.of_nat (String.length a))); lia.
Qed.

Lemma has_non_dot_app (a rest : string) (from upto idx : Z) :
  only_dots a = false -> from <= idx -> idx + Z.of_nat (String.length a) <= upto ->
  has_non_dot (a +:+ rest) from upto idx = true.
Proof.
  revert idx. induction a as [|x a IH]; intros idx Hd Hf Hu; [discriminate|].
  rewrite app_cons. cbn [has_non_dot]. cbn [only_dots String.length] in Hd, Hu.
  destruct (Ascii.eqb x ".") eqn:Hx.
  - cbn [andb] in Hd. rewrite (IH (idx + 1) Hd) by lia. apply orb_true_r.
  - apply orb_true_iff. left. rewrite !andb_true_iff. repeat split.
    + apply Z.leb_le. lia.
    + apply Z.ltb_lt. lia.
Qed.

(** The two parts of [splitext] always make up the name. *)
Lemma splitext_app (p : string) : (splitext p).1 +:+ (splitext p).2 = p.
Proof.
  unfold splitext. destruct (_ && _); cbn [fst snd].
  - apply take_drop.
  - induction p as [|c p IH]; rewrite ?app_cons, ?app_nil_l; [reflexivity|now rewrite IH].
Qed.

(** For an ordinary base name and an extension that is a dot followed by
    characters other than dot and slash, [splitext] splits between them. *)
Lemma splitext_ordinary (base e : string) :
  ordinary_base base -> contains "." e = false -> contains "/" e = false ->
  splitext (base +:+ String "." e) = (base, String "." e).
Proof.
  intros [Hslash Hdots] He Hes. unfold splitext.
  rewrite (rfind_absent "/"), (rfind_app_last "." base e He).
  2:{ rewrite contains_app, Hslash. cbn [contains]. rewrite Hes. reflexivity. }
  replace (-1 <? Z.of_nat (String.length base)) with true
    by (symmetry; apply Z.ltb_lt; lia).
  rewrite has_non_dot_app by (auto; lia). cbn [andb].
  rewrite Nat2Z.id, take_app_length, drop_app_length. reflexivity.
Qed.

Lemma lower_ascii_dot (x : ascii) :
  Ascii.eqb (lower_ascii x) "." = Ascii.eqb x ".".
Proof. destruct x as [[] [] [] [] [] [] [] []]; reflexivity. Qed.

Lemma lower_ascii_slash (x : ascii) :
  Ascii.eqb (lower_ascii x) "/" = Ascii.eqb x "/".
Proof. destruct x as [[] [] [] [] [] [] [] []]; reflexivity. Qed.

Lemma contains_lower_dot (s : string) : contains "." (lower s) = contains "." s.
Proof.
  induction s as [|x s IH]; cbn [lower contains]; [reflexivity|].
  now rewrite lower_ascii_dot, IH.
Qed.

Lemma contains_lower_slash (s : string) : contains "/" (lower s) = contains "/" s.
Proof.
  induction s as [|x s IH]; cbn [lower contains]; [reflexivity|].
  now rewrite lower_ascii_slash, IH.
Qed.

(** An extension that lower-cases to one of the export stage's is a dot
    followed by letters. *)
Lemma forge_extension_shape (ext : string) :
  In (lower ext) forge_extensions ->
  exists e, ext = String "." e /\ contains "." e = false /\ contains "/" e = false.
Proof.
  intros H. destruct ext as [|c e].
  { cbn in H. intuition discriminate. }
  assert (Hc : Ascii.eqb c "." = true).
  { rewrite <- lower_ascii_dot. cbn [lower] in H. cbn in H. apply Ascii.eqb_eq.
    destruct H as [H|[H|[H|[]]]]; congruence. }
  apply Ascii.eqb_eq in Hc. subst c. exists e. split; [reflexivity|].
  rewrite <- contains_lower_dot, <- contains_lower_slash.
  cbn [lower] in H. cbn in H.
  destruct H as [H|[H|[H|[]]]].
  - replace (lower e) with "png"%string by congruence. split; reflexivity.
  - replace (lower e) with "jpg"%string by congruence. split; reflexivity.
  - replace (lower e) with "jpeg"%string by congruence. split; reflexivity.
Qed.

Lemma all_strip_ordinary (base : string) :
  base <> EmptyString -> all_strip_chars base = true -> ordinary_base base.
Proof.
  intros Hne Hall. split.
  - clear Hne. induction base as [|c s IH]; [reflexivity|].
    cbn [all_strip_chars contains] in *. apply andb_true_iff in Hall as [Hc Hs].
    rewrite (IH Hs), orb_false_r.
    destruct c as [[] [] [] [] [] [] [] []]; try reflexivity; discriminate.
  - destruct base as [|c s]; [congruence|].
    cbn [all_strip_chars only_dots] in *. apply andb_true_iff in Hall as [Hc _].
    replace (Ascii.eqb c ".") with false; [reflexivity|].
    destruct c as [[] [] [] [] [] [] [] []]; try reflexivity; discriminate.
Qed.

End PyStrFacts.

(** ** Directories and the loops over them *)

Module FsFacts.

(** *** Sequences of writes *)

Lemma apply_writes_app (ws1 ws2 : list (string * file)) (d : dir) :
  apply_writes (ws1 ++ ws2) d = apply_writes ws2 (apply_writes ws1 d).
Proof. unfold apply_writes. apply foldl_app. Qed.

Lemma apply_writes_cons (kv : string * file) (ws : list (string * file)) (d : dir) :
  apply_writes (kv :: ws) d = apply_writes ws (<[kv.1 := kv.2]> d).
Proof. reflexivity. Qed.

(** A write that is repeated after a sequence hides its first occurrence. *)
Lemma apply_writes_absorb (ws : list (string * file)) (k : string) (v : file) (d : dir) :
  <[k := v]> (apply_writes ws (<[k := v]> d)) = <[k := v]> (apply_writes ws d).
Proof.
  revert d. induction ws as [|[k' v'] ws IH]; intros d.
  - cbn. apply insert_insert_eq.
  - rewrite !apply_writes_cons. cbn [fst snd].
    destruct (decide (k' = k)) as [->|Hne].
    + now rewrite insert_insert_eq.
    + rewrite (insert_insert_ne _ k' k) by congruence. apply IH.
Qed.

(** Writing the same sequence twice is writing it once. *)
Lemma apply_writes_idem (ws : list (string * file)) (d : dir) :
  apply_writes ws (apply_writes ws d) = apply_writes ws d.
Proof.
  revert d. induction ws as [|[k v] ws IH] using rev_ind; intros d; [reflexivity|].
  rewrite !apply_writes_app. cbn. rewrite apply_writes_absorb. now rewrite IH.
Qed.

Lemma apply_writes_lookup_other (ws : list (string * file)) (d : dir) (k : string) :
  k ∉ ws.*1 -> apply_writes ws d !! k = d !! k.
Proof.
  revert d. induction ws as [|[k' v'] ws IH]; intros d Hk; [reflexivity|].
  rewrite apply_writes_cons. cbn [fst snd] in *.
  apply not_elem_of_cons in Hk as [Hne Hk].
  rewrite IH by exact Hk. now rewrite lookup_insert_ne.
Qed.

(** When every write to [k] carries the same value, that value is what is
    found at [k]. *)
Lemma apply_writes_lookup_same (ws : list (string * file)) (d : dir) (k : string) (v : file) :
  (k, v) ∈ ws -> (forall v', (k, v') ∈ ws -> v' = v) ->
  apply_writes ws d !! k = Some v.
Proof.
  revert d. induction ws as [|[k' v'] ws IH] using rev_ind; intros d Hin Hsame.
  { inversion Hin. }
  rewrite apply_writes_app. cbn.
  destruct (decide (k' = k)) as [->|Hne].
  - rewrite lookup_insert_eq. f_equal. apply Hsame. apply elem_of_app. right. left.
  - rewrite lookup_insert_ne by exact Hne. apply IH.
    + apply elem_of_app in Hin as [Hin|Hin]; [exact Hin|].
      apply list_elem_of_singleton in Hin. congruence.
    + intros v0 H0. apply Hsame. apply elem_of_app. now left.
Qed.

(** *** Directory listings *)

Lemma listdir_NoDup (d : dir) : NoDup (listdir d).
Proof. apply NoDup_fst_map_to_list. Qed.

Lemma elem_of_listdir (d : dir) (name : string) :
  name ∈ listdir d <-> is_Some (d !! name).
Proof.
  unfold listdir. rewrite list_elem_of_fmap. split.
  - intros ([k v] & -> & H). apply elem_of_map_to_list in H. cbn. eauto.
  - intros [v H]. exists (name, v). split; [reflexivity|]. now apply elem_of_map_to_list.
Qed.

(** *** [sorted] *)

Lemma insert_sorted_perm (x : string) (l : list string) :
  PyStr.insert_sorted x l ≡ₚ x :: l.
Proof.
  induction l as [|y l IH]; [reflexivity|]. cbn.
  destruct (String.leb x y); [reflexivity|].
  rewrite IH. apply Permutation_swap.
Qed.

Lemma sorted_perm (l : list string) : PyStr.sorted l ≡ₚ l.
Proof.
  induction l as [|x l IH]; [reflexivity|]. cbn.
  rewrite insert_sorted_perm. now rewrite IH.
Qed.

Lemma sorted_length (l : list string) : length (PyStr.sorted l) = length l.
Proof. now rewrite sorted_perm. Qed.

Lemma sorted_nil_inv (l : list string) : PyStr.sorted l = [] -> l = [].
Proof.
  intros H. apply length_zero_iff_nil. rewrite <- sorted_length, H. reflexivity.
Qed.

Lemma elem_of_sorted (l : list string) (x : string) : x ∈ PyStr.sorted l <-> x ∈ l.
Proof. now rewrite sorted_perm. Qed.

Lemma insert_sorted_Sorted (x : string) (l : list string) :
  Sorted (fun a b => String.leb a b = true) l ->
  Sorted (fun a b => String.leb a b = true) (PyStr.insert_sorted x l).
Proof.
  induction l as [|y l IH]; intros Hs; cbn.
  - repeat constructor.
  - destruct (String.leb x y) eqn:Hxy.
    + constructor; [exact Hs|]. constructor. exact Hxy.
    + inversion Hs as [|? ? Hl Hy]; subst. constructor; [now apply IH|].
      assert (Hyx : String.leb y x = true).
      { destruct (String.leb_total x y) as [H|H]; [congruence|exact H]. }
      destruct l as [|z l]; cbn.
      * constructor. exact Hyx.
      * destruct (String.leb x z); constructor; [exact Hyx|].
        now inversion Hy.
Qed.

Lemma sorted_Sorted (l : list string) :
  Sorted (fun a b => String.leb a b = true) (PyStr.sorted l).
Proof.
  induction l as [|x l IH]; cbn; [constructor|]. now apply insert_sorted_Sorted.
Qed.

(** *** The folders of a project *)

Lemma string_length_app (a b : string) :
  String.length (a +:+ b) = (String.length a + String.length b)%nat.
Proof. apply PyStrFacts.length_app. Qed.

Lemma path_join_relative (a b : string) :
  String.prefix "/" b = false ->
  exists sep, PyStr.path_join a b = a +:+ sep +:+ b.
Proof.
  intros Hb. unfold PyStr.path_join. rewrite Hb.
  destruct (String.eqb a "" || PyStr.endswith a "/").
  - exists ""%string. now rewrite PyStrFacts.app_nil_l.
  - now exists "/"%string.
Qed.

Lemma path_join_sep (a b : string) :
  String.prefix "/" b = false ->
  PyStr.path_join a b =
    a +:+ (if String.eqb a "" || PyStr.endswith a "/" then "" else "/") +:+ b.
Proof.
  intros Hb. unfold PyStr.path_join. rewrite Hb.
  destruct (String.eqb a "" || PyStr.endswith a "/"); [|reflexivity].
  now rewrite PyStrFacts.app_nil_l.
Qed.

(** A folder joined under the project path is not the project path. *)
Lemma path_join_ne_parent (a b : string) :
  String.prefix "/" b = false -> b <> ""%string -> PyStr.path_join a b <> a.
Proof.
  intros Hb Hne Heq. apply (f_equal String.length) in Heq.
  rewrite path_join_sep in Heq by exact Hb.
  rewrite !string_length_app in Heq.
  destruct b; [congruence|]. cbn in Heq. lia.
Qed.

(** Two different names give two different folders. *)
Lemma path_join_inj (a b b' : string) :
  String.prefix "/" b = false -> String.prefix "/" b' = false ->
  PyStr.path_join a b = PyStr.path_join a b' -> b = b'.
Proof.
  intros Hb Hb' Heq. rewrite !path_join_sep in Heq by assumption.
  apply String.app_inj in Heq. now apply String.app_inj in Heq.
Qed.

(** *** The Cropper's loop *)

Lemma makedirs_lookup_other (st : fs) (path other : string) :
  other <> path -> makedirs st path !! other = st !! other.
Proof.
  intros Hne. unfold makedirs. destruct (st !! path); [reflexivity|].
  now rewrite lookup_insert_ne.
Qed.

Lemma makedirs_lookup (st : fs) (path : string) :
  makedirs st path !! path = Some (default ∅ (st !! path)).
Proof.
  unfold makedirs. destruct (st !! path) eqn:H; cbn; [exact H|].
  apply lookup_insert_eq.
Qed.

Lemma makedirs_keeps (st : fs) (path other : string) (d : dir) :
  st !! other = Some d -> makedirs st path !! other = Some d.
Proof.
  intros H. unfold makedirs. destruct (st !! path) eqn:Hp; [exact H|].
  rewrite lookup_insert_ne; [exact H|]. congruence.
Qed.

Lemma makedirs_insert (st : fs) (path : string) (d : dir) :
  <[path := d]> (makedirs st path) = <[path := d]> st.
Proof.
  unfold makedirs. destruct (st !! path); [reflexivity|]. apply insert_insert_eq.
Qed.

Lemma read_file_dir (st : fs) (folder name : string) (d : dir) :
  st !! folder = Some d -> read_file st folder name = d !! name.
Proof. intros H. unfold read_file. now rewrite H. Qed.

Lemma crop_try_dir (st : fs) (input_folder output_folder name : string) (k : Z)
    (d o : dir) :
  st !! input_folder = Some d -> st !! output_folder = Some o ->
  crop_try st input_folder output_folder name k =
    match d !! name with
    | Some (ImageFile img) =>
        match crop_and_resize img k with
        | inl e => inl e
        | inr None => inr (st, LogSkipAspect name)
        | inr (Some resized_img) =>
            inr (<[output_folder := <[name := ImageFile resized_img]> o]> st,
                 LogProcessed name (width img) (height img))
        end
    | _ => inl OSError
    end.
Proof.
  intros Hin Hout. unfold crop_try, pil_open. rewrite (read_file_dir _ _ _ _ Hin).
  destruct (d !! name) as [[img| |]|]; try reflexivity. cbn [try_bind].
  destruct (crop_and_resize img k) as [e|[r|]]; try reflexivity. cbn [try_bind].
  unfold pil_save, write_file. rewrite Hout. reflexivity.
Qed.

(** With the output kept apart from the input, the loop performs the writes
    that [crop_writes] lists. *)
Lemma crop_fold_fs (input_folder output_folder : string) (k : Z) (d : dir)
    (names : list string) :
  input_folder <> output_folder ->
  forall (st : fs) (o : dir) (log : list log_entry),
  st !! input_folder = Some d -> st !! output_folder = Some o ->
  (fold_left (crop_file input_folder output_folder k) names (st, log)).1 =
    <[output_folder := apply_writes (crop_writes d k names) o]> st.
Proof.
  intros Hne. induction names as [|name names IH]; intros st o log Hin Hout.
  - cbn. symmetry. now apply insert_id.
  - cbn [fold_left]. unfold crop_file at 2. unfold crop_writes. cbn [omap list_omap].
    unfold crop_write at 1. unfold accepted_by.
    destruct (PyStr.endswith_any (PyStr.lower name) crop_extensions).
    2:{ now apply IH. }
    rewrite (crop_try_dir _ _ _ _ _ _ _ Hin Hout).
    destruct (d !! name) as [[img| |]|]; try (now apply IH).
    destruct (crop_and_resize img k) as [e|[r|]]; try (now apply IH).
    rewrite (IH _ (<[name := ImageFile r]> o)).
    + now rewrite insert_insert_eq.
    + rewrite lookup_insert_ne; [exact Hin|congruence].
    + apply lookup_insert_eq.
Qed.

(** The loop only appends to what was printed. *)
Lemma crop_fold_log (input_folder output_folder : string) (k : Z)
    (names : list string) (st : fs) (log : list log_entry) :
  exists lines,
    (fold_left (crop_file input_folder output_folder k) names (st, log)).2 =
      log ++ lines.
Proof.
  revert st log. induction names as [|name names IH]; intros st log.
  - exists []. cbn. now rewrite app_nil_r.
  - cbn [fold_left]. unfold crop_file at 2.
    destruct (PyStr.endswith_any (PyStr.lower name) crop_extensions); [|apply IH].
    destruct (crop_try st input_folder output_folder name k) as [e|[st' line]].
    + destruct (IH st (log ++ [LogCouldNotProcess name e])) as [l Hl].
      exists (LogCouldNotProcess name e :: l). rewrite Hl. now rewrite <- app_assoc.
    + destruct (IH st' (log ++ [line])) as [l Hl].
      exists (line :: l). rewrite Hl. now rewrite <- app_assoc.
Qed.

Lemma crop_stage_missing (st : fs) (input_folder output_folder : string) (k : Z) :
  st !! input_folder = None ->
  crop_and_downsize_for_share st input_folder output_folder k =
    Outcome st [LogCropInputMissing input_folder] None.
Proof.
  intros H. unfold crop_and_downsize_for_share, isdir. now rewrite H.
Qed.

Lemma crop_stage_present (st : fs) (input_folder output_folder : string) (k : Z)
    (d : dir) :
  st !! input_folder = Some d ->
  crop_and_downsize_for_share st input_folder output_folder k =
    let r := fold_left (crop_file input_folder output_folder k) (listdir d)
                       (makedirs st output_folder, [LogScanning input_folder]) in
    Outcome r.1 r.2 None.
Proof.
  intros H. unfold crop_and_downsize_for_share, isdir, os_listdir. rewrite H. cbn [negb].
  rewrite (makedirs_keeps _ _ _ _ H). cbn zeta.
  now destruct (fold_left _ _ _).
Qed.

(** The Cropper never raises. *)
Lemma crop_stage_no_exn (st : fs) (input_folder output_folder : string) (k : Z) :
  out_exn (crop_and_downsize_for_share st input_folder output_folder k) = None.
Proof.
  destruct (st !! input_folder) as [d|] eqn:H.
  - now rewrite (crop_stage_present _ _ _ _ _ H).
  - now rewrite (crop_stage_missing _ _ _ _ H).
Qed.

Lemma crop_stage_fs (st : fs) (input_folder output_folder : string) (k : Z) (d : dir) :
  input_folder <> output_folder -> st !! input_folder = Some d ->
  out_fs (crop_and_downsize_for_share st input_folder output_folder k) =
    <[output_folder := apply_writes (crop_writes d k (listdir d))
                                    (default ∅ (st !! output_folder))]> st.
Proof.
  intros Hne H. rewrite (crop_stage_present _ _ _ _ _ H). cbn [out_fs].
  rewrite (crop_fold_fs _ _ _ d _ Hne _ (default ∅ (st !! output_folder))).
  - apply makedirs_insert.
  - now apply makedirs_keeps.
  - apply makedirs_lookup.
Qed.

Lemma crop_write_name (d : dir) (k : Z) (name key : string) (f : file) :
  crop_write d k name = Some (key, f) -> key = name.
Proof.
  unfold crop_write. destruct (accepted_by crop_extensions name); [|discriminate].
  destruct (d !! name) as [[img| |]|]; try discriminate.
  destruct (crop_and_resize img k) as [e|[r|]]; try discriminate. congruence.
Qed.

(** What the Cropper writes for an entry of its input is what is found under
    that name in its output. *)
Lemma crop_stage_lookup (st : fs) (input_folder output_folder : string) (k : Z)
    (d : dir) (name : string) (f : file) :
  input_folder <> output_folder -> st !! input_folder = Some d ->
  is_Some (d !! name) -> crop_write d k name = Some (name, f) ->
  read_file (out_fs (crop_and_downsize_for_share st input_folder output_folder k))
            output_folder name = Some f.
Proof.
  intros Hne H Hname Hw. rewrite (crop_stage_fs _ _ _ _ _ Hne H).
  unfold read_file. rewrite lookup_insert_eq. cbn.
  apply apply_writes_lookup_same.
  - unfold crop_writes. apply list_elem_of_omap. exists name. split; [|exact Hw].
    now apply elem_of_listdir.
  - intros v' Hv'. unfold crop_writes in Hv'. apply list_elem_of_omap in Hv'.
    destruct Hv' as (n & _ & Hn). pose proof (crop_write_name _ _ _ _ _ Hn) as ->.
    congruence.
Qed.

(** *** The loop of Rename/Export *)

(** Once a copy has raised, the rest of the loop does not run. *)
Lemma forge_fold_exn (source_folder destination_folder : string)
    (names : list string) (acc : outcome) :
  is_Some (out_exn acc) ->
  fold_left (forge_file source_folder destination_folder) names acc = acc.
Proof.
  intros [e He]. induction names as [|name names IH]; [reflexivity|].
  cbn [fold_left]. unfold forge_file at 2. rewrite He. exact IH.
Qed.

Lemma shutil_copy2_dir (st : fs) (src_folder src_name dst_folder dst_name : string)
    (d o : dir) :
  st !! src_folder = Some d -> st !! dst_folder = Some o ->
  shutil_copy2 st src_folder src_name dst_folder dst_name =
    match d !! src_name with
    | Some Unreadable | None => inl OSError
    | Some f => inr (<[dst_folder := <[dst_name := f]> o]> st)
    end.
Proof.
  intros Hs Hd. unfold shutil_copy2, write_file.
  rewrite (read_file_dir _ _ _ _ Hs), Hd. reflexivity.
Qed.

Lemma forge_file_dir (source_folder destination_folder : string) (st : fs)
    (d o : dir) (log : list log_entry) (name : string) :
  st !! source_folder = Some d -> st !! destination_folder = Some o ->
  forge_file source_folder destination_folder (Outcome st log None) name =
    if accepted_by forge_extensions name then
      match d !! name with
      | Some Unreadable | None => Outcome st log (Some OSError)
      | Some f =>
          Outcome (<[destination_folder := <[new_file_name name := f]> o]> st)
                  (log ++ [LogCopied name (new_file_name name)]) None
      end
    else Outcome st log None.
Proof.
  intros Hs Hd. unfold forge_file, accepted_by. cbn [out_exn out_fs out_log].
  destruct (PyStr.endswith_any (PyStr.lower name) forge_extensions); [|reflexivity].
  rewrite (shutil_copy2_dir _ _ _ _ _ _ _ Hs Hd).
  now destruct (d !! name) as [[img|content|]|].
Qed.

Lemma forge_fold_fs (source_folder destination_folder : string) (d : dir)
    (names : list string) :
  source_folder <> destination_folder ->
  forall (st : fs) (o : dir) (log : list log_entry),
  st !! source_folder = Some d -> st !! destination_folder = Some o ->
  let r := fold_left (forge_file source_folder destination_folder) names
                     (Outcome st log None) in
  out_fs r = <[destination_folder := apply_writes (forge_writes d names).1 o]> st /\
  out_exn r = (forge_writes d names).2.
Proof.
  intros Hne. induction names as [|name names IH]; intros st o log Hs Hd.
  - cbn. split; [|reflexivity]. symmetry. now apply insert_id.
  - cbn [fold_left forge_writes]. cbn zeta.
    rewrite (forge_file_dir _ _ _ _ _ _ _ Hs Hd).
    destruct (accepted_by forge_extensions name).
    2:{ now apply IH. }
    assert (Hstop :
              let r := fold_left (forge_file source_folder destination_folder) names
                                 (Outcome st log (Some OSError)) in
              out_fs r = <[destination_folder := apply_writes [] o]> st /\
              out_exn r = Some OSError).
    { cbn zeta. rewrite forge_fold_exn by (cbn; eauto). cbn.
      split; [|reflexivity]. symmetry. now apply insert_id. }
    assert (Hgo : forall f : file,
              let r := fold_left (forge_file source_folder destination_folder) names
                         (Outcome (<[destination_folder := <[new_file_name name := f]> o]> st)
                                  (log ++ [LogCopied name (new_file_name name)]) None) in
              out_fs r =
                <[destination_folder :=
                    apply_writes (let '(ws, e) := forge_writes d names in
                                  ((new_file_name name, f) :: ws, e)).1 o]> st /\
              out_exn r = (let '(ws, e) := forge_writes d names in
                           ((new_file_name name, f) :: ws, e)).2).
    { intros f.
      specialize (IH (<[destination_folder := <[new_file_name name := f]> o]> st)
                     (<[new_file_name name := f]> o)
                     (log ++ [LogCopied name (new_file_name name)])).
      rewrite lookup_insert_ne in IH by congruence.
      rewrite lookup_insert_eq in IH.
      specialize (IH Hs eq_refl). cbn zeta in IH. destruct IH as [IH1 IH2].
      cbn zeta. rewrite IH1, IH2. destruct (forge_writes d names) as [ws e].
      cbn. rewrite insert_insert_eq. split; reflexivity. }
    destruct (d !! name) as [f|]; [|exact Hstop].
    destruct f as [img|content|]; [apply Hgo|apply Hgo|exact Hstop].
Qed.

Lemma forge_stage_missing (st : fs) (source_folder destination_folder : string) :
  st !! source_folder = None ->
  rename_for_forge st source_folder destination_folder =
    Outcome st [LogForgeSourceMissing source_folder] None.
Proof.
  intros H. unfold rename_for_forge, isdir. now rewrite H.
Qed.

Lemma forge_stage_present (st : fs) (source_folder destination_folder : string)
    (d : dir) :
  st !! source_folder = Some d ->
  rename_for_forge st source_folder destination_folder =
    fold_left (forge_file source_folder destination_folder) (listdir d)
              (Outcome (makedirs st destination_folder) [LogCopying] None).
Proof.
  intros H. unfold rename_for_forge, isdir, os_listdir. rewrite H. cbn [negb].
  now rewrite (makedirs_keeps _ _ _ _ H).
Qed.

Lemma forge_stage_fs (st : fs) (source_folder destination_folder : string) (d : dir) :
  source_folder <> destination_folder -> st !! source_folder = Some d ->
  let r := rename_for_forge st source_folder destination_folder in
  out_fs r =
    <[destination_folder := apply_writes (forge_writes d (listdir d)).1
                                         (default ∅ (st !! destination_folder))]> st /\
  out_exn r = (forge_writes d (listdir d)).2.
Proof.
  intros Hne H. cbn zeta. rewrite (forge_stage_present _ _ _ _ H).
  destruct (forge_fold_fs _ _ d (listdir d) Hne (makedirs st destination_folder)
              (default ∅ (st !! destination_folder)) [LogCopying]) as [H1 H2].
  - now apply makedirs_keeps.
  - apply makedirs_lookup.
  - split; [|exact H2]. rewrite H1. apply makedirs_insert.
Qed.

(** *** The Grid Composer's loops *)


(** The inner loop prints nothing but warnings. *)
Lemma paste_fold_log (st : fs) (folder_path : string) (cols sw sh sp : Z)
    (cells : list (Z * string)) (canvas : image) (log : list log_entry) :
  exists skipped : list string,
    (fold_left (paste_cell st folder_path cols sw sh sp) cells (canvas, log)).2 =
      log ++ map LogPasteWarning skipped.
Proof.
  revert canvas log. induction cells as [|[i name] cells IH]; intros canvas log.
  - exists []. cbn. now rewrite app_nil_r.
  - cbn [fold_left]. unfold paste_cell at 2.
    destruct (pil_open st folder_path name) as [e|img].
    + destruct (IH canvas (log ++ [LogPasteWarning name])) as [l Hl].
      exists (name :: l). rewrite Hl. now rewrite <- app_assoc.
    + apply IH.
Qed.



Lemma make_grid_raised (folder_path output_path project_folder_name : string)
    (rows cols : Z) (bg : string) (sp : Z) (image_files : list string) (sw sh : Z)
    (acc : outcome) (g : Z) :
  is_Some (out_exn acc) ->
  make_grid folder_path output_path project_folder_name rows cols bg sp
            image_files sw sh acc g = acc.
Proof. intros [e He]. unfold make_grid. now rewrite He. Qed.

Lemma make_grid_page (folder_path output_path project_folder_name : string)
    (rows cols : Z) (bg : string) (sp : Z) (image_files : list string) (sw sh : Z)
    (acc : outcome) (g : Z) (canvas : image) :
  out_exn acc = None ->
  pil_new bg (sw * cols + sp * (cols + 1)) (sh * rows + sp * (rows + 1)) = inr canvas ->
  make_grid folder_path output_path project_folder_name rows cols bg sp
            image_files sw sh acc g =
    let r := fold_left (paste_cell (out_fs acc) folder_path cols sw sh sp)
               (PyStr.enumerate (page_slice image_files (rows * cols) g))
               (canvas, out_log acc ++ [LogProcessingGrid (g + 1)]) in
    let output_filename := grid_output_filename project_folder_name g in
    match pil_save (out_fs acc) output_path output_filename r.1 with
    | inr st' => Outcome st' (r.2 ++ [LogGridSaved output_path output_filename]) None
    | inl e => Outcome (out_fs acc) (r.2 ++ [LogGridSaveError e]) None
    end.
Proof.
  intros Hexn Hnew. unfold make_grid. rewrite Hexn, Hnew. unfold page_slice. cbn zeta.
  now destruct (fold_left _ _ _).
Qed.

Lemma make_grid_exn (folder_path output_path project_folder_name : string)
    (rows cols : Z) (bg : string) (sp : Z) (image_files : list string) (sw sh : Z)
    (acc : outcome) (g : Z) :
  out_exn (make_grid folder_path output_path project_folder_name rows cols bg sp
                     image_files sw sh acc g) =
    match out_exn acc with
    | Some e => Some e
    | None =>
        match pil_new bg (sw * cols + sp * (cols + 1)) (sh * rows + sp * (rows + 1)) with
        | inl e => Some e
        | inr _ => None
        end
    end.
Proof.
  destruct (out_exn acc) as [e|] eqn:Hexn.
  - rewrite make_grid_raised by (rewrite Hexn; eauto). exact Hexn.
  - destruct (pil_new bg _ _) as [e|canvas] eqn:Hnew.
    + unfold make_grid. now rewrite Hexn, Hnew.
    + rewrite (make_grid_page _ _ _ _ _ _ _ _ _ _ _ _ _ Hexn Hnew). cbn zeta.
      now destruct (pil_save _ _ _ _).
Qed.

(** A page writes into the output folder only. *)
Lemma make_grid_frame (folder_path output_path project_folder_name : string)
    (rows cols : Z) (bg : string) (sp : Z) (image_files : list string) (sw sh : Z)
    (acc : outcome) (g : Z) (other : string) :
  other <> output_path ->
  out_fs (make_grid folder_path output_path project_folder_name rows cols bg sp
                    image_files sw sh acc g) !! other = out_fs acc !! other.
Proof.
  intros Hne. destruct (out_exn acc) as [e|] eqn:Hexn.
  - now rewrite make_grid_raised by (rewrite Hexn; eauto).
  - destruct (pil_new bg (sw * cols + sp * (cols + 1)) (sh * rows + sp * (rows + 1)))
      as [e|canvas] eqn:Hnew.
    + unfold make_grid. now rewrite Hexn, Hnew.
    + rewrite (make_grid_page _ _ _ _ _ _ _ _ _ _ _ _ _ Hexn Hnew). cbn zeta.
      unfold pil_save, write_file.
      destruct (out_fs acc !! output_path); [|reflexivity].
      cbn [out_fs]. rewrite lookup_insert_ne; [reflexivity|congruence].
Qed.

Lemma make_grid_log (folder_path output_path project_folder_name : string)
    (rows cols : Z) (bg : string) (sp : Z) (image_files : list string) (sw sh : Z)
    (acc : outcome) (g : Z) :
  exists lines,
    out_log (make_grid folder_path output_path project_folder_name rows cols bg sp
                       image_files sw sh acc g) = out_log acc ++ lines.
Proof.
  destruct (out_exn acc) as [e|] eqn:Hexn.
  - rewrite make_grid_raised by (rewrite Hexn; eauto). exists []. now rewrite app_nil_r.
  - destruct (pil_new bg (sw * cols + sp * (cols + 1)) (sh * rows + sp * (rows + 1)))
      as [e|canvas] eqn:Hnew.
    + unfold make_grid. rewrite Hexn, Hnew. eexists. reflexivity.
    + rewrite (make_grid_page _ _ _ _ _ _ _ _ _ _ _ _ _ Hexn Hnew). cbn zeta.
      destruct (paste_fold_log (out_fs acc) folder_path cols sw sh sp
                  (PyStr.enumerate (page_slice image_files (rows * cols) g)) canvas
                  (out_log acc ++ [LogProcessingGrid (g + 1)])) as [l Hl].
      rewrite Hl. destruct (pil_save _ _ _ _); cbn [out_log];
        rewrite <- !app_assoc; eexists; reflexivity.
Qed.

Section GridPages.

Variables (folder_path output_path project_folder_name : string).
Variables (rows cols : Z) (bg : string) (sp : Z).
Variables (image_files : list string) (sw sh : Z).

Let page := make_grid folder_path output_path project_folder_name rows cols bg sp
                      image_files sw sh.

Lemma grid_fold_exn (gs : list Z) (acc : outcome) :
  out_exn (fold_left page gs acc) =
    match out_exn acc with
    | Some e => Some e
    | None =>
        match gs with
        | [] => None
        | _ :: _ =>
            match pil_new bg (sw * cols + sp * (cols + 1)) (sh * rows + sp * (rows + 1)) with
            | inl e => Some e
            | inr _ => None
            end
        end
    end.
Proof.
  revert acc. induction gs as [|g gs IH]; intros acc.
  - cbn. now destruct (out_exn acc).
  - cbn [fold_left]. rewrite IH. unfold page. rewrite make_grid_exn.
    destruct (out_exn acc); [reflexivity|].
    destruct (pil_new bg _ _); [reflexivity|]. now destruct gs.
Qed.

Lemma grid_fold_frame (gs : list Z) (acc : outcome) (other : string) :
  other <> output_path ->
  out_fs (fold_left page gs acc) !! other = out_fs acc !! other.
Proof.
  intros Hne. revert acc. induction gs as [|g gs IH]; intros acc; [reflexivity|].
  cbn [fold_left]. rewrite IH. unfold page. now apply make_grid_frame.
Qed.

Lemma grid_fold_log (gs : list Z) (acc : outcome) :
  exists lines, out_log (fold_left page gs acc) = out_log acc ++ lines.
Proof.
  revert acc. induction gs as [|g gs IH]; intros acc.
  - exists []. cbn. now rewrite app_nil_r.
  - cbn [fold_left]. destruct (IH (page acc g)) as [l Hl].
    destruct (make_grid_log folder_path output_path project_folder_name rows cols bg sp
                image_files sw sh acc g) as [l' Hl'].
    fold page in Hl'. rewrite Hl, Hl', <- app_assoc. eexists. reflexivity.
Qed.


End GridPages.

(** *** What each stage changes *)

Lemma crop_stage_frame (st : fs) (input_folder output_folder : string) (k : Z)
    (other : string) :
  input_folder <> output_folder -> other <> output_folder ->
  out_fs (crop_and_downsize_for_share st input_folder output_folder k) !! other =
    st !! other.
Proof.
  intros Hne Ho. destruct (st !! input_folder) as [d|] eqn:H.
  - rewrite (crop_stage_fs _ _ _ _ _ Hne H). now rewrite lookup_insert_ne.
  - now rewrite (crop_stage_missing _ _ _ _ H).
Qed.

Lemma crop_stage_dir (st : fs) (input_folder output_folder : string) (k : Z) :
  input_folder <> output_folder ->
  out_fs (crop_and_downsize_for_share st input_folder output_folder k) !! output_folder =
    match st !! input_folder with
    | Some d => Some (apply_writes (crop_writes d k (listdir d))
                                   (default ∅ (st !! output_folder)))
    | None => st !! output_folder
    end.
Proof.
  intros Hne. destruct (st !! input_folder) as [d|] eqn:H.
  - rewrite (crop_stage_fs _ _ _ _ _ Hne H). apply lookup_insert_eq.
  - now rewrite (crop_stage_missing _ _ _ _ H).
Qed.

Lemma forge_stage_frame (st : fs) (source_folder destination_folder other : string) :
  source_folder <> destination_folder -> other <> destination_folder ->
  out_fs (rename_for_forge st source_folder destination_folder) !! other = st !! other.
Proof.
  intros Hne Ho. destruct (st !! source_folder) as [d|] eqn:H.
  - destruct (forge_stage_fs _ _ _ _ Hne H) as [-> _]. now rewrite lookup_insert_ne.
  - now rewrite (forge_stage_missing _ _ _ H).
Qed.

Lemma forge_stage_dir (st : fs) (source_folder destination_folder : string) :
  source_folder <> destination_folder ->
  out_fs (rename_for_forge st source_folder destination_folder) !! destination_folder =
    match st !! source_folder with
    | Some d => Some (apply_writes (forge_writes d (listdir d)).1
                                   (default ∅ (st !! destination_folder)))
    | None => st !! destination_folder
    end.
Proof.
  intros Hne. destruct (st !! source_folder) as [d|] eqn:H.
  - destruct (forge_stage_fs _ _ _ _ Hne H) as [-> _]. apply lookup_insert_eq.
  - now rewrite (forge_stage_missing _ _ _ H).
Qed.

Lemma grid_stage_missing (abspath : string -> string) (st : fs)
    (folder_path output_path : string) (rows cols : Z) (bg : string) (sp : Z) :
  st !! folder_path = None ->
  run_grid_maker abspath st folder_path output_path rows cols bg sp =
    Outcome st [LogGridSourceMissing folder_path] None.
Proof.
  intros H. unfold run_grid_maker, isdir. now rewrite H.
Qed.

(** The Grid Composer writes into its output folder only. *)
Lemma grid_stage_frame (abspath : string -> string) (st : fs)
    (folder_path output_path : string) (rows cols : Z) (bg : string) (sp : Z)
    (other : string) :
  other <> output_path ->
  out_fs (run_grid_maker abspath st folder_path output_path rows cols bg sp) !! other =
    st !! other.
Proof.
  intros Hne. unfold run_grid_maker.
  destruct (negb (isdir st folder_path)); [reflexivity|].
  destruct (os_listdir st folder_path) as [e|names]; [reflexivity|].
  destruct (PyStr.sorted _) as [|first rest]; [reflexivity|].
  destruct (try_bind _ _) as [e|num_grids]; [reflexivity|].
  destruct (pil_open st folder_path first) as [e|img]; [reflexivity|].
  now rewrite grid_fold_frame.
Qed.

(** Whether the Grid Composer raises depends on its source folder alone. *)
Lemma grid_stage_exn_congr (abspath : string -> string) (st1 st2 : fs)
    (folder_path output_path : string) (rows cols : Z) (bg : string) (sp : Z) :
  st1 !! folder_path = st2 !! folder_path ->
  out_exn (run_grid_maker abspath st1 folder_path output_path rows cols bg sp) =
  out_exn (run_grid_maker abspath st2 folder_path output_path rows cols bg sp).
Proof.
  intros H. unfold run_grid_maker, isdir, os_listdir, pil_open, read_file.
  rewrite H. destruct (st2 !! folder_path) as [d|]; [|reflexivity]. cbn [negb].
  destruct (PyStr.sorted _) as [|first rest]; [reflexivity|].
  destruct (try_bind _ _) as [e|num_grids]; [reflexivity|].
  cbn [mbind option_bind].
  destruct (d !! first) as [[img| |]|]; try reflexivity.
  now rewrite !grid_fold_exn.
Qed.

(** *** The images the Grid Composer takes *)

Lemma elem_of_image_files (d : dir) (name : string) :
  name ∈ PyStr.sorted
           (filter (fun f => PyStr.endswith_any (PyStr.lower f) valid_extensions = true)
                   (listdir d)) <->
  accepted_by valid_extensions name = true /\ is_Some (d !! name).
Proof.
  rewrite elem_of_sorted, list_elem_of_filter, elem_of_listdir. reflexivity.
Qed.

Lemma image_files_nil (d : dir) :
  PyStr.sorted
    (filter (fun f => PyStr.endswith_any (PyStr.lower f) valid_extensions = true)
            (listdir d)) = [] <->
  forall name, is_Some (d !! name) -> accepted_by valid_extensions name = false.
Proof.
  split.
  - intros Hnil name Hname. destruct (accepted_by valid_extensions name) eqn:Hacc; [|reflexivity].
    assert (Hin : name ∈ ([] : list string)); [|inversion Hin].
    rewrite <- Hnil. now apply elem_of_image_files.
  - intros Hnone. destruct (PyStr.sorted _) as [|x l] eqn:Hl; [reflexivity|].
    assert (Hx : x ∈ x :: l) by left. rewrite <- Hl in Hx.
    apply elem_of_image_files in Hx as [Hacc Hsome].
    rewrite (Hnone x Hsome) in Hacc. discriminate.
Qed.

Lemma grid_stage_empty (abspath : string -> string) (st : fs)
    (folder_path output_path : string) (rows cols : Z) (bg : string) (sp : Z) (d : dir) :
  st !! folder_path = Some d ->
  (forall name, is_Some (d !! name) -> accepted_by valid_extensions name = false) ->
  run_grid_maker abspath st folder_path output_path rows cols bg sp =
    Outcome st [LogNoImages folder_path] None.
Proof.
  intros H Hnone. apply image_files_nil in Hnone.
  unfold run_grid_maker, isdir, os_listdir. rewrite H. cbn [negb]. now rewrite Hnone.
Qed.

Lemma grid_stage_zero (abspath : string -> string) (st : fs)
    (folder_path output_path : string) (rows cols : Z) (bg : string) (sp : Z) (d : dir)
    (name : string) :
  st !! folder_path = Some d -> rows * cols = 0 ->
  is_Some (d !! name) -> accepted_by valid_extensions name = true ->
  run_grid_maker abspath st folder_path output_path rows cols bg sp =
    Outcome st [] (Some ZeroDivisionError).
Proof.
  intros H Hzero Hname Hacc.
  unfold run_grid_maker, isdir, os_listdir. rewrite H. cbn [negb].
  destruct (PyStr.sorted _) as [|first rest] eqn:Hfiles.
  - rewrite (proj1 (image_files_nil d) Hfiles name Hname) in Hacc. discriminate.
  - rewrite Hzero. reflexivity.
Qed.

(** With an image to take, the Grid Composer does not return the way it
    does on an empty folder. *)
Lemma grid_stage_not_empty (abspath : string -> string) (st : fs)
    (folder_path output_path : string) (rows cols : Z) (bg : string) (sp : Z) (d : dir)
    (name : string) :
  st !! folder_path = Some d ->
  is_Some (d !! name) -> accepted_by valid_extensions name = true ->
  run_grid_maker abspath st folder_path output_path rows cols bg sp <>
    Outcome st [LogNoImages folder_path] None.
Proof.
  intros H Hname Hacc.
  unfold run_grid_maker, isdir, os_listdir. rewrite H. cbn [negb].
  destruct (PyStr.sorted _) as [|first rest] eqn:Hfiles.
  - rewrite (proj1 (image_files_nil d) Hfiles name Hname) in Hacc. discriminate.
  - destruct (try_bind _ _) as [e|num_grids]; [discriminate|].
    destruct (pil_open st folder_path first) as [e|img]; [discriminate|].
    intros Heq. apply (f_equal out_log) in Heq.
    match type of Heq with
    | out_log (fold_left ?f ?gs ?acc) = _ =>
        destruct (grid_fold_log folder_path output_path
                    (PyStr.basename (abspath output_path)) rows cols bg sp
                    (first :: rest) (width img) (height img) gs acc) as [lines Hl]
    end.
    rewrite Hl in Heq. discriminate.
Qed.

(** *** A file that cannot be read *)

Lemma accepted_forge_crop (name : string) :
  accepted_by forge_extensions name = true -> accepted_by crop_extensions name = true.
Proof.
  unfold accepted_by, PyStr.endswith_any, forge_extensions, crop_extensions.
  cbn [existsb]. intros H.
  repeat (apply orb_true_iff in H as [H|H]; [rewrite H; now rewrite ?orb_true_r|]).
  discriminate.
Qed.

Lemma forge_stage_stops (st : fs) (source_folder destination_folder : string) (d : dir)
    (l1 l2 : list string) (bad : string) :
  source_folder <> destination_folder -> st !! source_folder = Some d ->
  listdir d = l1 ++ bad :: l2 ->
  accepted_by forge_extensions bad = true ->
  d !! bad = Some Unreadable \/ d !! bad = None ->
  let before := fold_left (forge_file source_folder destination_folder) l1
                  (Outcome (makedirs st destination_folder) [LogCopying] None) in
  out_exn before = None ->
  rename_for_forge st source_folder destination_folder =
    Outcome (out_fs before) (out_log before) (Some OSError) /\
  out_fs before =
    <[destination_folder := apply_writes (forge_writes d l1).1
                                         (default ∅ (st !! destination_folder))]> st.
Proof.
  intros Hne Hs Hlist Hacc Hbad before Hbefore.
  destruct (forge_fold_fs _ _ d l1 Hne (makedirs st destination_folder)
              (default ∅ (st !! destination_folder)) [LogCopying]) as [Hfs _].
  { now apply makedirs_keeps. }
  { apply makedirs_lookup. }
  fold before in Hfs. rewrite makedirs_insert in Hfs. split; [|exact Hfs].
  rewrite (forge_stage_present _ _ _ _ Hs), Hlist, fold_left_app. fold before.
  cbn [fold_left].
  assert (Hb : before = Outcome (out_fs before) (out_log before) None)
    by (destruct before; cbn in *; congruence).
  rewrite Hb at 1.
  rewrite (forge_file_dir source_folder destination_folder (out_fs before) d
             (apply_writes (forge_writes d l1).1 (default ∅ (st !! destination_folder)))).
  - rewrite Hacc.
    assert (Hstop : forall acc, out_exn acc = Some OSError ->
              fold_left (forge_file source_folder destination_folder) l2 acc = acc)
      by (intros acc Ha; apply forge_fold_exn; rewrite Ha; eauto).
    destruct Hbad as [-> | ->]; now rewrite Hstop.
  - rewrite Hfs. rewrite lookup_insert_ne; [exact Hs|congruence].
  - rewrite Hfs. apply lookup_insert_eq.
Qed.


(** *** One page *)


Lemma enumerate_length {A} (l : list A) :
  length (PyStr.enumerate l) = length l.
Proof.
  unfold PyStr.enumerate. rewrite length_zip_with, length_seqZ. lia.
Qed.




(** *** Pages *)







(** *** Names of the grid files *)




(** *** The Grid Composer on a folder with images *)


(** *** The aspect ratio test, in real numbers *)

(** Clearing the denominators of [relative_distance_le]. *)
Lemma relative_distance_le_Z (c w h : Z) :
  0 < h ->
  relative_distance_le (IZR c / 1000000000) w h <->
  1000000000 * Z.abs (2975 * w - 2187 * h) <= c * Z.max (2975 * w) (2187 * h).
Proof.
  intros Hh. unfold relative_distance_le.
  assert (HhR : (0 < IZR h)%R) by (now apply IZR_lt).
  assert (Hx : (IZR w / IZR h - 2187 / 2975 =
                IZR (2975 * w - 2187 * h) / (2975 * IZR h))%R).
  { rewrite minus_IZR, !mult_IZR. field. lra. }
  assert (Habs : (Rabs (IZR w / IZR h - 2187 / 2975) =
                  IZR (Z.abs (2975 * w - 2187 * h)) / (2975 * IZR h))%R).
  { rewrite Hx, abs_IZR. unfold Rdiv. rewrite Rabs_mult, Rabs_inv.
    rewrite (Rabs_pos_eq (2975 * IZR h)) by lra. reflexivity. }
  assert (Hmax : (Rmax (IZR w / IZR h) (2187 / 2975) =
                  IZR (Z.max (2975 * w) (2187 * h)) / (2975 * IZR h))%R).
  { assert (Hsign : ((IZR w / IZR h - 2187 / 2975) * (2975 * IZR h) =
                     IZR (2975 * w - 2187 * h))%R) by (rewrite Hx; field; lra).
    destruct (Z.max_spec (2975 * w) (2187 * h)) as [[Hlt ->]|[Hle ->]].
    - rewrite Rmax_right.
      + rewrite mult_IZR. field. lra.
      + assert (IZR (2975 * w - 2187 * h) < 0)%R by (apply IZR_lt; lia). nra.
    - rewrite Rmax_left.
      + rewrite mult_IZR. field. lra.
      + assert (0 <= IZR (2975 * w - 2187 * h))%R by (apply IZR_le; lia). nra. }
  rewrite Habs, Hmax.
  set (A := Z.abs (2975 * w - 2187 * h)). set (M := Z.max (2975 * w) (2187 * h)).
  assert (Hiff : (IZR A / (2975 * IZR h) <= IZR c / 1000000000 * (IZR M / (2975 * IZR h)) <->
                  IZR (1000000000 * A) <= IZR (c * M))%R).
  { rewrite !mult_IZR.
    assert (Hd : (0 < 2975 * IZR h)%R) by lra.
    assert (Heq : (IZR c / 1000000000 * (IZR M / (2975 * IZR h)) - IZR A / (2975 * IZR h) =
                   (IZR c * IZR M - 1000000000 * IZR A) * / (1000000000 * (2975 * IZR h)))%R)
      by (field; lra).
    assert (Hd' : (0 < / (1000000000 * (2975 * IZR h)))%R)
      by (apply Rinv_0_lt_compat; lra).
    split; intros H.
    - assert (0 <= (IZR c * IZR M - 1000000000 * IZR A) *
                   / (1000000000 * (2975 * IZR h)))%R by lra.
      nra.
    - assert (0 <= (IZR c * IZR M - 1000000000 * IZR A) *
                   / (1000000000 * (2975 * IZR h)))%R by nra.
      lra. }
  rewrite Hiff. split; [apply le_IZR|apply IZR_le].
Qed.

Lemma aspect_ok_isclose (w h : Z) :
  h <> 0 ->
  aspect_ok w h =
    inr (F64.isclose (F64.fdiv (F64.of_int w) (F64.of_int h))
                     EXPECTED_ASPECT_RATIO F64.rel_tol F64.abs_tol).
Proof.
  intros Hh. unfold aspect_ok, truediv, F64.int_truediv.
  now destruct (Z.eqb_spec h 0).
Qed.

(** *** Crop and downscale of an accepted image *)

Lemma crop_and_resize_accepted (img : image) (k : Z) :
  0 < width img < 2 ^ 31 -> 0 < height img < 2 ^ 31 ->
  aspect_ok (width img) (height img) = inr true ->
  1 <= k -> k <= width img * 2010 / 2187 -> k <= height img * 2814 / 2975 ->
  let target_width := width img * 2010 / 2187 in
  let target_height := height img * 2814 / 2975 in
  let left := (width img - target_width) / 2 in
  let top := (height img - target_height) / 2 in
  crop_and_resize img k =
    inr (Some (Image (target_width / k) (target_height / k)
                 (Resampled (Cropped (px img) left top (left + target_width)
                                     (top + target_height))
                            (target_width / k) (target_height / k)))).
Proof.
  intros Hw Hh Hok Hk Hkw Hkh tw th left top.
  unfold crop_and_resize. rewrite Hok. cbn [try_bind negb].
  unfold int_of_float.
  rewrite (F64Facts.target_width_exact _ Hw), (F64Facts.target_height_exact _ Hh).
  cbn [try_bind]. fold tw th left top. unfold pil_crop. cbn [width height px].
  unfold floordiv. destruct (Z.eqb_spec k 0) as [H0|_]; [lia|]. cbn [try_bind].
  replace (left + tw - left) with tw by lia. replace (top + th - top) with th by lia.
  unfold pil_resize. cbn [px].
  assert (1 <= tw / k) by (apply Z.div_le_lower_bound; lia).
  assert (1 <= th / k) by (apply Z.div_le_lower_bound; lia).
  destruct (Z.ltb_spec (tw / k) 1); [lia|]. destruct (Z.ltb_spec (th / k) 1); [lia|].
  reflexivity.
Qed.

Lemma crop_and_resize_rejected (img : image) (k : Z) :
  aspect_ok (width img) (height img) = inr false ->
  crop_and_resize img k = inr None.
Proof. intros H. unfold crop_and_resize. now rewrite H. Qed.

(** *** The line the Cropper prints for an entry *)

Lemma crop_stage_line (st : fs) (input_folder output_folder : string) (k : Z)
    (d : dir) (name : string) :
  input_folder <> output_folder -> st !! input_folder = Some d ->
  is_Some (d !! name) -> accepted_by crop_extensions name = true ->
  match d !! name with
  | Some (ImageFile img) =>
      match crop_and_resize img k with
      | inl e => LogCouldNotProcess name e
      | inr None => LogSkipAspect name
      | inr (Some _) => LogProcessed name (width img) (height img)
      end
  | _ => LogCouldNotProcess name OSError
  end ∈ out_log (crop_and_downsize_for_share st input_folder output_folder k).
Proof.
  intros Hne Hs Hname Hacc.
  apply elem_of_listdir, list_elem_of_split in Hname as (l1 & l2 & Hlist).
  rewrite (crop_stage_present _ _ _ _ _ Hs), Hlist, fold_left_app. cbn [out_log fold_left].
  pose proof (crop_fold_fs input_folder output_folder k d l1 Hne
                (makedirs st output_folder) (default ∅ (st !! output_folder))
                [LogScanning input_folder]
                (makedirs_keeps _ _ _ _ Hs) (makedirs_lookup _ _)) as Hfs.
  destruct (fold_left _ l1 _) as [st1 log1]. cbn [fst] in Hfs.
  unfold crop_file at 2. unfold accepted_by in Hacc. rewrite Hacc.
  rewrite (crop_try_dir st1 _ _ _ _ d
             (apply_writes (crop_writes d k l1) (default ∅ (st !! output_folder)))).
  2:{ rewrite Hfs, lookup_insert_ne by congruence. now apply makedirs_keeps. }
  2:{ rewrite Hfs. apply lookup_insert_eq. }
  assert (Hin : forall st2 line,
            line ∈ (fold_left (crop_file input_folder output_folder k) l2
                              (st2, log1 ++ [line])).2).
  { intros st2 line.
    destruct (crop_fold_log input_folder output_folder k l2 st2 (log1 ++ [line]))
      as [lines ->].
    rewrite !elem_of_app. left. right. left. }
  destruct (d !! name) as [[img| |]|]; try apply Hin.
  destruct (crop_and_resize img k) as [e|[r|]]; apply Hin.
Qed.

Lemma crop_stage_isolates (st : fs) (input_folder output_folder : string) (k : Z)
    (d : dir) (bad : string) :
  input_folder <> output_folder -> st !! input_folder = Some d ->
  accepted_by crop_extensions bad = true ->
  d !! bad = Some Unreadable ->
  LogCouldNotProcess bad OSError ∈
    out_log (crop_and_downsize_for_share st input_folder output_folder k).
Proof.
  intros Hne Hs Hacc Hbad.
  pose proof (crop_stage_line st _ _ k d bad Hne Hs ltac:(rewrite Hbad; eauto) Hacc) as H.
  now rewrite Hbad in H.
Qed.

(** An entry for which nothing is written is, in the output folder, what it
    was before the stage. *)
Lemma crop_stage_untouched (st : fs) (input_folder output_folder : string) (k : Z)
    (d : dir) (name : string) :
  input_folder <> output_folder -> st !! input_folder = Some d ->
  crop_write d k name = None ->
  read_file (out_fs (crop_and_downsize_for_share st input_folder output_folder k))
            output_folder name = read_file st output_folder name.
Proof.
  intros Hne Hs Hw. rewrite (crop_stage_fs _ _ _ _ _ Hne Hs).
  unfold read_file. rewrite lookup_insert_eq. cbn.
  rewrite apply_writes_lookup_other.
  - now destruct (st !! output_folder).
  - intros Hin. apply list_elem_of_fmap in Hin as ([key f] & Hkey & Hin). cbn in Hkey.
    subst key. unfold crop_writes in Hin. apply list_elem_of_omap in Hin as (n & _ & Hn).
    pose proof (crop_write_name _ _ _ _ _ Hn) as ->. congruence.
Qed.

(** *** The pipeline *)

Lemma then_stage_raised (acc : outcome) (line_before line_after : log_entry)
    (stage : fs -> outcome) :
  is_Some (out_exn acc) -> then_stage acc line_before stage line_after = acc.
Proof. intros [e He]. unfold then_stage. now rewrite He. Qed.

Lemma then_stage_fs (acc : outcome) (line_before line_after : log_entry)
    (stage : fs -> outcome) :
  out_exn acc = None ->
  out_fs (then_stage acc line_before stage line_after) = out_fs (stage (out_fs acc)).
Proof.
  intros He. unfold then_stage. rewrite He. now destruct (out_exn (stage (out_fs acc))).
Qed.

Lemma then_stage_exn (acc : outcome) (line_before line_after : log_entry)
    (stage : fs -> outcome) :
  out_exn acc = None ->
  out_exn (then_stage acc line_before stage line_after) = out_exn (stage (out_fs acc)).
Proof.
  intros He. unfold then_stage. rewrite He.
  now destruct (out_exn (stage (out_fs acc))) eqn:H.
Qed.

Section Pipeline.

Variables (abspath : string -> string) (project_path : string).
Variables (rows cols : Z) (bg : string) (sp k : Z).

Let print_folder := PyStr.path_join project_path "Print".
Let share_folder := PyStr.path_join project_path "Share".
Let forge_folder := PyStr.path_join project_path "Forge".
Let pipeline (st : fs) : outcome :=
  run_image_pipeline abspath st project_path rows cols bg sp k.
Let cropped (st : fs) : fs :=
  out_fs (crop_and_downsize_for_share st print_folder share_folder k).
Let grids (st : fs) : outcome :=
  run_grid_maker abspath (cropped st) share_folder project_path rows cols bg sp.

Lemma folders_distinct :
  print_folder <> share_folder /\ print_folder <> forge_folder /\
  share_folder <> forge_folder /\
  print_folder <> project_path /\ share_folder <> project_path /\
  forge_folder <> project_path.
Proof.
  unfold print_folder, share_folder, forge_folder.
  repeat split;
    try (apply path_join_ne_parent; [reflexivity|discriminate]);
    intros H; apply path_join_inj in H; try reflexivity; discriminate.
Qed.

Lemma pipeline_fs (st : fs) :
  out_fs (pipeline st) =
    match out_exn (grids st) with
    | Some _ => out_fs (grids st)
    | None => out_fs (rename_for_forge (out_fs (grids st)) share_folder forge_folder)
    end.
Proof.
  unfold pipeline, run_image_pipeline. cbn zeta.
  fold print_folder share_folder forge_folder.
  set (o1 := then_stage (Outcome st [LogPipelineStart] None) _ _ _).
  set (o2 := then_stage o1 _ _ _). set (o3 := then_stage o2 _ _ _).
  assert (H1 : out_fs o1 = cropped st /\ out_exn o1 = None).
  { subst o1. rewrite then_stage_exn, then_stage_fs by reflexivity.
    cbn [out_fs]. split; [reflexivity|apply crop_stage_no_exn]. }
  destruct H1 as [H1 H1'].
  assert (H2 : out_fs o2 = out_fs (grids st) /\ out_exn o2 = out_exn (grids st)).
  { subst o2. rewrite then_stage_exn, then_stage_fs by exact H1'. now rewrite H1. }
  destruct H2 as [H2 H2'].
  transitivity (out_fs o3); [now destruct (out_exn o3)|].
  subst o3. destruct (out_exn (grids st)) as [e|] eqn:Hg.
  - rewrite then_stage_raised by (rewrite H2'; eauto). exact H2.
  - rewrite then_stage_fs by exact H2'. now rewrite H2.
Qed.

Lemma cropped_share (st : fs) :
  cropped st !! share_folder =
    match st !! print_folder with
    | Some d => Some (apply_writes (crop_writes d k (listdir d))
                                   (default ∅ (st !! share_folder)))
    | None => st !! share_folder
    end.
Proof. apply crop_stage_dir, folders_distinct. Qed.

Lemma cropped_other (st : fs) (other : string) :
  other <> share_folder -> cropped st !! other = st !! other.
Proof. apply crop_stage_frame, folders_distinct. Qed.

Lemma grids_other (st : fs) (other : string) :
  other <> project_path -> out_fs (grids st) !! other = cropped st !! other.
Proof. apply grid_stage_frame. Qed.

(** The pipeline leaves the Print folder alone. *)
Lemma pipeline_print (st : fs) : out_fs (pipeline st) !! print_folder = st !! print_folder.
Proof.
  destruct folders_distinct as (H1 & H2 & H3 & H4 & H5 & H6).
  rewrite pipeline_fs. destruct (out_exn (grids st)).
  - now rewrite grids_other, cropped_other.
  - now rewrite forge_stage_frame, grids_other, cropped_other.
Qed.

Lemma pipeline_share (st : fs) :
  out_fs (pipeline st) !! share_folder = cropped st !! share_folder.
Proof.
  destruct folders_distinct as (H1 & H2 & H3 & H4 & H5 & H6).
  rewrite pipeline_fs. destruct (out_exn (grids st)).
  - now rewrite grids_other.
  - now rewrite forge_stage_frame, grids_other.
Qed.

Lemma pipeline_forge (st : fs) :
  out_fs (pipeline st) !! forge_folder =
    match out_exn (grids st) with
    | Some _ => st !! forge_folder
    | None =>
        match cropped st !! share_folder with
        | Some s => Some (apply_writes (forge_writes s (listdir s)).1
                                       (default ∅ (st !! forge_folder)))
        | None => st !! forge_folder
        end
    end.
Proof.
  destruct folders_distinct as (H1 & H2 & H3 & H4 & H5 & H6).
  rewrite pipeline_fs. destruct (out_exn (grids st)).
  - rewrite grids_other, cropped_other; congruence.
  - rewrite forge_stage_dir by exact H3.
    rewrite !grids_other by assumption. rewrite (cropped_other st forge_folder) by congruence.
    reflexivity.
Qed.

(** A second run crops to the same Share folder. *)
Lemma cropped_again (st : fs) :
  cropped (out_fs (pipeline st)) !! share_folder = cropped st !! share_folder.
Proof.
  rewrite (cropped_share (out_fs (pipeline st))), pipeline_print, pipeline_share.
  rewrite (cropped_share st). destruct (st !! print_folder) as [d|]; [|reflexivity].
  cbn [default from_option]. unfold Datatypes.id. now rewrite apply_writes_idem.
Qed.

Lemma pipeline_share_again (st : fs) :
  out_fs (pipeline (out_fs (pipeline st))) !! share_folder =
  out_fs (pipeline st) !! share_folder.
Proof. now rewrite !pipeline_share, cropped_again. Qed.

Lemma pipeline_forge_again (st : fs) :
  out_fs (pipeline (out_fs (pipeline st))) !! forge_folder =
  out_fs (pipeline st) !! forge_folder.
Proof.
  rewrite (pipeline_forge (out_fs (pipeline st))).
  assert (Hexn : out_exn (grids (out_fs (pipeline st))) = out_exn (grids st)).
  { unfold grids. apply grid_stage_exn_congr, cropped_again. }
  rewrite Hexn, cropped_again. rewrite (pipeline_forge st).
  destruct (out_exn (grids st)); [reflexivity|].
  destruct (cropped st !! share_folder) as [s|]; [|reflexivity].
  cbn [default from_option]. unfold Datatypes.id. now rewrite apply_writes_idem.
Qed.

End Pipeline.

End FsFacts.

(** * Part III: the claims of the specification *)

(** ** Rename/Export: the exported name *)

(** Claim C5.  For every file that Rename/Export takes (a name ending in
    .png, .jpg or .jpeg in any letter case), the exported name is the base
    name, that is the root [os.path.splitext] gives, with its leading ASCII
    digits, underscores and spaces trimmed and every right single quotation
    mark replaced by an ASCII apostrophe, followed by the literal suffix
    '.fullborder.jpg'; the extension of the source name is not part of it.
    Whenever the name is an ordinary base followed by one of the three
    extensions, root and extension are that base and that extension. *)
Theorem C5_export_name (file_name : string) :
  accepted_by forge_extensions file_name = true ->
  (PyStr.splitext file_name).1 +:+ (PyStr.splitext file_name).2 = file_name /\
  new_file_name file_name =
    normalize_quote (ltrim_class (PyStr.splitext file_name).1) +:+ ".fullborder.jpg" /\
  (forall base ext : string,
     file_name = base +:+ ext ->
     In (PyStr.lower ext) forge_extensions -> ordinary_base base ->
     PyStr.splitext file_name = (base, ext)).
Proof.
  intros _. split; [apply PyStrFacts.splitext_app|]. split.
  - unfold new_file_name. destruct (PyStr.splitext file_name) as [base ext]. cbn [fst].
    now rewrite PyStrFacts.lstrip_ltrim, PyStrFacts.replace_quote.
  - intros base ext -> Hext Hbase.
    destruct (PyStrFacts.forge_extension_shape ext Hext) as (e & -> & He & Hes).
    now apply PyStrFacts.splitext_ordinary.
Qed.

(** The example of the specification, "003_Sliver’s Mark.jpg". *)
Lemma C5_export_name_witness :
  accepted_by forge_extensions "003_Sliver’s Mark.jpg" = true /\
  new_file_name "003_Sliver’s Mark.jpg" = "Sliver's Mark.fullborder.jpg"%string /\
  PyStr.splitext "003_Sliver’s Mark.jpg" = ("003_Sliver’s Mark", ".jpg")%string.
Proof.
  assert (Hacc : accepted_by forge_extensions "003_Sliver’s Mark.jpg" = true)
    by reflexivity.
  split; [exact Hacc|].
  destruct (C5_export_name "003_Sliver’s Mark.jpg" Hacc) as (_ & Hname & Hsplit).
  split.
  - exact Hname.
  - apply (Hsplit "003_Sliver’s Mark" ".jpg")%string.
    + reflexivity.
    + simpl. tauto.
    + split; reflexivity.
Defined.

(** Claim C10.  When the base name of a file that Rename/Export takes
    consists of ASCII digits, underscores and spaces only, the exported
    name is exactly '.fullborder.jpg'; two such files are therefore copied
    to one and the same destination name. *)
Theorem C10_only_strip_chars (file_name other_name : string) :
  accepted_by forge_extensions file_name = true ->
  all_strip_chars (PyStr.splitext file_name).1 = true ->
  accepted_by forge_extensions other_name = true ->
  all_strip_chars (PyStr.splitext other_name).1 = true ->
  new_file_name file_name = ".fullborder.jpg"%string /\
  new_file_name file_name = new_file_name other_name.
Proof.
  assert (H : forall f, all_strip_chars (PyStr.splitext f).1 = true ->
                        new_file_name f = ".fullborder.jpg"%string).
  { intros f Hf. unfold new_file_name. destruct (PyStr.splitext f) as [base ext].
    cbn [fst] in Hf.
    rewrite PyStrFacts.lstrip_ltrim, PyStrFacts.replace_quote.
    now rewrite (PyStrFacts.ltrim_all_strip base Hf). }
  intros _ H1 _ H2. split; [now apply H|]. now rewrite !H.
Qed.

Lemma C10_only_strip_chars_witness :
  new_file_name "003.jpg" = ".fullborder.jpg"%string /\
  new_file_name "003.jpg" = new_file_name "12_ 7.PNG".
Proof.
  apply (C10_only_strip_chars "003.jpg" "12_ 7.PNG"); reflexivity.
Defined.

(** ** Missing folders *)

(** Claim C6.  A stage whose input folder does not exist prints one line
    and returns: the file system is left as it was, so no output folder is
    created and no file is written.  The pipeline goes on: when the Print
    folder is missing, the Grid Composer and Rename/Export are still run, on
    the unchanged file system; when the Share folder is missing as well,
    each of them finds its input missing in turn and the pipeline runs to
    its last line. *)
Theorem C6_missing_input_directory (st : fs) (folder : string) :
  isdir st folder = false ->
  (forall (output : string) (k : Z),
     crop_and_downsize_for_share st folder output k =
       Outcome st [LogCropInputMissing folder] None) /\
  (forall (abspath : string -> string) (output : string) (rows cols : Z)
          (bg : string) (sp : Z),
     run_grid_maker abspath st folder output rows cols bg sp =
       Outcome st [LogGridSourceMissing folder] None) /\
  (forall output : string,
     rename_for_forge st folder output =
       Outcome st [LogForgeSourceMissing folder] None) /\
  (forall (abspath : string -> string) (project_path : string) (rows cols : Z)
          (bg : string) (sp k : Z),
     folder = PyStr.path_join project_path "Print" ->
     let share_folder := PyStr.path_join project_path "Share" in
     let forge_folder := PyStr.path_join project_path "Forge" in
     let o := Outcome st [LogPipelineStart; LogStepStart 1;
                          LogCropInputMissing folder; LogStepFinished 1] None in
     let o := then_stage o (LogStepStart 2)
                (fun st' => run_grid_maker abspath st' share_folder project_path
                              rows cols bg sp)
                (LogStepFinished 2) in
     let o := then_stage o (LogStepStart 3)
                (fun st' => rename_for_forge st' share_folder forge_folder)
                (LogStepFinished 3) in
     run_image_pipeline abspath st project_path rows cols bg sp k =
       match out_exn o with
       | Some _ => o
       | None => Outcome (out_fs o) (out_log o ++ [LogPipelineFinished]) None
       end /\
     (isdir st share_folder = false ->
      run_image_pipeline abspath st project_path rows cols bg sp k =
        Outcome st [LogPipelineStart;
                    LogStepStart 1; LogCropInputMissing folder; LogStepFinished 1;
                    LogStepStart 2; LogGridSourceMissing share_folder; LogStepFinished 2;
                    LogStepStart 3; LogForgeSourceMissing share_folder; LogStepFinished 3;
                    LogPipelineFinished] None)).
Proof.
  intros Hdir.
  assert (Hcrop : forall output k,
            crop_and_downsize_for_share st folder output k =
              Outcome st [LogCropInputMissing folder] None).
  { intros. unfold crop_and_downsize_for_share. now rewrite Hdir. }
  assert (Hgrid : forall abspath st' input output rows cols bg sp,
            isdir st' input = false ->
            run_grid_maker abspath st' input output rows cols bg sp =
              Outcome st' [LogGridSourceMissing input] None).
  { intros * H. unfold run_grid_maker. now rewrite H. }
  assert (Hforge : forall st' input output,
            isdir st' input = false ->
            rename_for_forge st' input output =
              Outcome st' [LogForgeSourceMissing input] None).
  { intros * H. unfold rename_for_forge. now rewrite H. }
  split; [exact Hcrop|]. split; [intros; now apply Hgrid|].
  split; [intros; now apply Hforge|].
  intros abspath project_path rows cols bg sp k -> share_folder forge_folder.
  assert (Hfirst :
            then_stage (Outcome st [LogPipelineStart] None) (LogStepStart 1)
              (fun st' => crop_and_downsize_for_share st'
                            (PyStr.path_join project_path "Print") share_folder k)
              (LogStepFinished 1) =
            Outcome st [LogPipelineStart; LogStepStart 1;
                        LogCropInputMissing (PyStr.path_join project_path "Print");
                        LogStepFinished 1] None).
  { unfold then_stage. cbn [out_exn out_fs out_log]. now rewrite Hcrop. }
  split.
  - unfold run_image_pipeline. cbn zeta. fold share_folder. now rewrite Hfirst.
  - intros Hshare. unfold run_image_pipeline. cbn zeta. fold share_folder.
    rewrite Hfirst. unfold then_stage. cbn [out_exn out_fs out_log].
    rewrite (Hgrid _ _ _ _ _ _ _ _ Hshare). cbn [out_exn out_fs out_log].
    rewrite (Hforge _ _ _ Hshare). reflexivity.
Qed.

Lemma C6_missing_input_directory_witness :
  run_image_pipeline (fun p => p) ∅ "deck" 4 4 "black" 0 3 =
    Outcome ∅ [LogPipelineStart;
               LogStepStart 1; LogCropInputMissing "deck/Print"; LogStepFinished 1;
               LogStepStart 2; LogGridSourceMissing "deck/Share"; LogStepFinished 2;
               LogStepStart 3; LogForgeSourceMissing "deck/Share"; LogStepFinished 3;
               LogPipelineFinished] None.
Proof.
  assert (Hdir : isdir (∅ : fs) "deck/Print" = false) by reflexivity.
  destruct (C6_missing_input_directory ∅ "deck/Print" Hdir) as (_ & _ & _ & Hrun).
  destruct (Hrun (fun p => p) "deck"%string 4 4 "black"%string 0 3 eq_refl) as [_ H].
  apply H. reflexivity.
Defined.

(** ** The Grid Composer *)

(** Claim C9.  Let the source folder of the Grid Composer exist.  With
    [rows * cols = 0] and at least one entry of an accepted extension, the
    call raises [ZeroDivisionError] with the file system untouched and
    nothing printed, so before any grid file is created.  For any rows and
    columns, the early return that prints "No images found" and does nothing
    is taken exactly when the folder has no entry of an accepted
    extension. *)
Theorem C9_zero_capacity (abspath : string -> string) (st : fs)
    (folder_path output_path : string) (rows cols : Z) (bg : string) (sp : Z)
    (d : dir) :
  st !! folder_path = Some d -> rows * cols = 0 ->
  ((exists name, is_Some (d !! name) /\ accepted_by valid_extensions name = true) ->
   run_grid_maker abspath st folder_path output_path rows cols bg sp =
     Outcome st [] (Some ZeroDivisionError)) /\
  (forall rows' cols' : Z,
     run_grid_maker abspath st folder_path output_path rows' cols' bg sp =
       Outcome st [LogNoImages folder_path] None <->
     (forall name, is_Some (d !! name) -> accepted_by valid_extensions name = false)).
Proof.
  intros Hdir Hzero. split.
  - intros (name & Hname & Hacc). now apply (FsFacts.grid_stage_zero _ _ _ _ _ _ _ _ d name).
  - intros rows' cols'. split.
    + intros Hrun name Hname.
      destruct (accepted_by valid_extensions name) eqn:Hacc; [|reflexivity].
      exfalso. revert Hrun.
      now apply (FsFacts.grid_stage_not_empty _ _ _ _ _ _ _ _ d name).
    + intros Hnone. now apply (FsFacts.grid_stage_empty _ _ _ _ _ _ _ _ d).
Qed.

Lemma C9_zero_capacity_witness :
  let st : fs :=
    {[ "deck/Share"%string :=
         ({[ "a.png"%string := ImageFile (Image 670 938 (Original "a")) ]} : dir) ]} in
  run_grid_maker (fun p => p) st "deck/Share" "deck" 0 4 "black" 0 =
    Outcome st [] (Some ZeroDivisionError).
Proof.
  intros st.
  refine (proj1 (C9_zero_capacity (fun p => p) st "deck/Share" "deck" 0 4 "black" 0
                   {[ "a.png"%string := ImageFile (Image 670 938 (Original "a")) ]}
                   _ _) _).
  - reflexivity.
  - reflexivity.
  - exists "a.png"%string. split; [|reflexivity]. rewrite lookup_singleton_eq. eauto.
Defined.

(** ** Failures of single files *)

(** Claim C7.  Let the entries of a folder be listed as [l1], then [bad],
    then [l2], where [bad] has an extension Rename/Export takes and cannot
    be read, and let the copies of [l1] succeed.  Rename/Export then ends
    with [OSError] in the state the copies of [l1] left: the destination
    holds the copies of [l1] and nothing of [l2].  The Cropper, run on the
    same folder, prints that [bad] could not be processed, does not raise,
    and writes every image of [l2] it can process. *)
Theorem C7_no_isolation_in_rename (st : fs) (source_folder destination_folder : string)
    (d : dir) (l1 l2 : list string) (bad : string) :
  st !! source_folder = Some d -> source_folder <> destination_folder ->
  listdir d = l1 ++ bad :: l2 ->
  accepted_by forge_extensions bad = true ->
  d !! bad = Some Unreadable ->
  let before := fold_left (forge_file source_folder destination_folder) l1
                  (Outcome (makedirs st destination_folder) [LogCopying] None) in
  out_exn before = None ->
  (rename_for_forge st source_folder destination_folder =
     Outcome (out_fs before) (out_log before) (Some OSError) /\
   out_fs before =
     <[destination_folder := apply_writes (forge_writes d l1).1
                                          (default ∅ (st !! destination_folder))]> st) /\
  (forall k : Z,
     let r := crop_and_downsize_for_share st source_folder destination_folder k in
     out_exn r = None /\
     LogCouldNotProcess bad OSError ∈ out_log r /\
     (forall (name : string) (f : file),
        name ∈ l2 -> crop_write d k name = Some (name, f) ->
        read_file (out_fs r) destination_folder name = Some f)).
Proof.
  intros Hs Hne Hlist Hacc Hbad before Hbefore. split.
  - apply (FsFacts.forge_stage_stops st _ _ d l1 l2 bad); auto.
  - intros k r. split; [apply FsFacts.crop_stage_no_exn|]. split.
    + apply (FsFacts.crop_stage_isolates st _ _ k d bad); auto.
      now apply FsFacts.accepted_forge_crop.
    + intros name f Hname Hw.
      apply (FsFacts.crop_stage_lookup st _ _ k d); auto.
      apply FsFacts.elem_of_listdir. rewrite Hlist.
      rewrite elem_of_app, elem_of_cons. auto.
Qed.

Lemma C7_no_isolation_in_rename_witness :
  let card := Image 670 938 (Original "card") in
  let d : dir := {[ "c.png"%string := ImageFile card;
                    "a.png"%string := Unreadable;
                    "b.png"%string := ImageFile card ]} in
  let st : fs := {[ "deck/Share"%string := d ]} in
  listdir d = ["c.png"; "a.png"; "b.png"]%string /\
  rename_for_forge st "deck/Share" "deck/Forge" =
    Outcome (<[ "deck/Forge"%string :=
                  ({[ "c.fullborder.jpg"%string := ImageFile card ]} : dir) ]> st)
            [LogCopying; LogCopied "c.png" "c.fullborder.jpg"] (Some OSError).
Proof.
  intros card d st.
  assert (Hlist : listdir d = ["c.png"%string] ++ "a.png"%string :: ["b.png"%string])
    by (vm_compute; reflexivity).
  split; [exact Hlist|].
  destruct (C7_no_isolation_in_rename st "deck/Share" "deck/Forge" d
              ["c.png"%string] ["b.png"%string] "a.png") as [[Hrun _] _].
  - reflexivity.
  - discriminate.
  - exact Hlist.
  - reflexivity.
  - reflexivity.
  - reflexivity.
  - rewrite Hrun. vm_compute. reflexivity.
Defined.





(** ** The Cropper *)




(** Claim C2, as stated, fails: the test is [math.isclose], whose tolerance
    is relative to the larger of the two ratios, not to the reference.  An
    image of 1106 x 1503 pixels is accepted, though its ratio is farther
    from 2187/2975 than one thousandth of 2187/2975. *)
Lemma C2_counterexample :
  aspect_ok 1106 1503 = inr true /\ ~ within_reference_tolerance 1106 1503.
Proof.
  split.
  - vm_compute. reflexivity.
  - unfold within_reference_tolerance. intros H.
    rewrite Rabs_pos_eq in H by lra. lra.
Qed.

(** Claim C2, amended.  For an image of width [w] and height [h], both
    positive and below [2 ^ 31], the aspect ratio test returns without
    raising; it accepts only if [|w/h - 2187/2975|] is at most
    [1/1000 + 1/10^9] times the larger of [w/h] and [2187/2975], and it
    accepts whenever that distance is at most [1/1000 - 1/10^9] times the
    larger of the two.  For an entry the Cropper takes whose image the test
    rejects, the stage prints the skip line, leaves the entry of that name
    in the output folder as it was (no output is written for it), and
    returns without an exception. *)
Theorem C2_aspect_tolerance (st : fs) (input_folder output_folder : string)
    (d : dir) (name : string) (img : image) (k : Z) :
  st !! input_folder = Some d -> input_folder <> output_folder ->
  d !! name = Some (ImageFile img) ->
  accepted_by crop_extensions name = true ->
  0 < width img < 2 ^ 31 -> 0 < height img < 2 ^ 31 ->
  let w := width img in
  let h := height img in
  let r := crop_and_downsize_for_share st input_folder output_folder k in
  (aspect_ok w h = inr true \/ aspect_ok w h = inr false) /\
  (aspect_ok w h = inr true ->
   relative_distance_le (1 / 1000 + 1 / 1000000000) w h) /\
  (relative_distance_le (1 / 1000 - 1 / 1000000000) w h ->
   aspect_ok w h = inr true) /\
  (aspect_ok w h = inr false ->
   LogSkipAspect name ∈ out_log r /\
   read_file (out_fs r) output_folder name = read_file st output_folder name /\
   out_exn r = None).
Proof.
  intros Hs Hne Hname Hacc Hw Hh w h r.
  assert (Hok : aspect_ok w h = inr _) by (apply FsFacts.aspect_ok_isclose; lia).
  destruct (F64Facts.isclose_ratio_bracket w h Hw Hh) as [Honly Hif]. cbn zeta in Honly, Hif.
  split; [|split; [|split]].
  - rewrite Hok. destruct (F64.isclose _ _ _ _); auto.
  - intros Htrue. rewrite Hok in Htrue.
    replace (1 / 1000 + 1 / 1000000000)%R with (IZR 1000001 / 1000000000)%R by lra.
    apply FsFacts.relative_distance_le_Z; [lia|]. apply Honly. congruence.
  - intros Hclose. rewrite Hok. f_equal. apply Hif.
    apply (FsFacts.relative_distance_le_Z 999999 w h); [lia|].
    replace (IZR 999999 / 1000000000)%R with (1 / 1000 - 1 / 1000000000)%R by lra.
    exact Hclose.
  - intros Hfalse.
    pose proof (FsFacts.crop_and_resize_rejected img k Hfalse) as Hrej.
    split; [|split].
    + pose proof (FsFacts.crop_stage_line st input_folder output_folder k d name Hne Hs
                    ltac:(rewrite Hname; eauto) Hacc) as Hline.
      now rewrite Hname, Hrej in Hline.
    + apply (FsFacts.crop_stage_untouched st _ _ k d name Hne Hs).
      unfold crop_write. now rewrite Hacc, Hname, Hrej.
    + apply FsFacts.crop_stage_no_exn.
Qed.

Lemma C2_aspect_tolerance_witness :
  let st : fs :=
    {[ "deck/Print"%string :=
         ({[ "wide.png"%string := ImageFile (Image 3000 2975 (Original "wide")) ]} : dir) ]} in
  let r := crop_and_downsize_for_share st "deck/Print" "deck/Share" 3 in
  LogSkipAspect "wide.png" ∈ out_log r /\
  read_file (out_fs r) "deck/Share" "wide.png" = read_file st "deck/Share" "wide.png" /\
  out_exn r = None.
Proof.
  intros st r.
  destruct (C2_aspect_tolerance st "deck/Print" "deck/Share"
              {[ "wide.png"%string := ImageFile (Image 3000 2975 (Original "wide")) ]}
              "wide.png" (Image 3000 2975 (Original "wide")) 3)
    as (_ & _ & _ & Hskip).
  - reflexivity.
  - discriminate.
  - reflexivity.
  - reflexivity.
  - simpl. lia.
  - simpl. lia.
  - apply Hskip. vm_compute. reflexivity.
Defined.

(** ** The pipeline, run twice *)

(** Claim C8.  A run of the pipeline leaves the Print folder as it found
    it, and a second run with the same parameters, started on the file
    system the first run left, ends with the Share folder and the Forge
    folder holding exactly what they held after the first run: the same
    entries with the same content.  This holds whatever the first run met,
    an exception of the Grid Composer or of Rename/Export included. *)
Theorem C8_second_run_identical (abspath : string -> string) (st : fs)
    (project_path : string) (rows cols : Z) (bg : string) (sp k : Z) :
  let run (st' : fs) : fs :=
    out_fs (run_image_pipeline abspath st' project_path rows cols bg sp k) in
  run st !! PyStr.path_join project_path "Print" =
    st !! PyStr.path_join project_path "Print" /\
  run (run st) !! PyStr.path_join project_path "Share" =
    run st !! PyStr.path_join project_path "Share" /\
  run (run st) !! PyStr.path_join project_path "Forge" =
    run st !! PyStr.path_join project_path "Forge".
Proof.
  intros run. split; [|split].
  - apply FsFacts.pipeline_print.
  - apply FsFacts.pipeline_share_again.
  - apply FsFacts.pipeline_forge_again.
Qed.

(** * Part IV: further properties of the three stages *)

(** ** Helper facts *)

Module StageFacts.

Lemma crop_and_resize_cases (img : image) (k : Z) :
  0 < width img < 2 ^ 31 -> 0 < height img < 2 ^ 31 ->
  let target_width := width img * 2010 / 2187 in
  let target_height := height img * 2814 / 2975 in
  crop_and_resize img k =
    if F64.isclose (F64.fdiv (F64.of_int (width img)) (F64.of_int (height img)))
                   EXPECTED_ASPECT_RATIO F64.rel_tol F64.abs_tol
    then
      if k =? 0 then inl ZeroDivisionError
      else if (target_width / k <? 1) || (target_height / k <? 1) then inl ValueError
      else
        let left := (width img - target_width) / 2 in
        let top := (height img - target_height) / 2 in
        inr (Some (Image (target_width / k) (target_height / k)
                     (Resampled (Cropped (px img) left top (left + target_width)
                                         (top + target_height))
                                (target_width / k) (target_height / k))))
    else inr None.
Proof.
  intros Hw Hh tw th. unfold crop_and_resize.
  rewrite FsFacts.aspect_ok_isclose by lia. cbn [try_bind].
  destruct (F64.isclose _ _ _ _); [|reflexivity]. cbn [negb].
  unfold int_of_float.
  rewrite (F64Facts.target_width_exact _ Hw), (F64Facts.target_height_exact _ Hh).
  cbn [try_bind]. fold tw th. unfold pil_crop. cbn [width height px].
  replace ((width img - tw) / 2 + tw - (width img - tw) / 2) with tw by lia.
  replace ((height img - th) / 2 + th - (height img - th) / 2) with th by lia.
  unfold floordiv. destruct (k =? 0); [reflexivity|]. cbn [try_bind].
  unfold pil_resize. cbn [px]. now destruct ((tw / k <? 1) || (th / k <? 1)).
Qed.


(** The order on names is transitive. *)
Lemma string_leb_trans (a b c : string) :
  String.leb a b = true -> String.leb b c = true -> String.leb a c = true.
Proof.
  unfold String.leb. revert b c.
  induction a as [|x a IH]; intros [|y b] [|z c]; cbn; try congruence.
  unfold Ascii.compare.
  destruct (N.compare_spec (N_of_ascii x) (N_of_ascii y)) as [Hxy|Hxy|Hxy];
    destruct (N.compare_spec (N_of_ascii y) (N_of_ascii z)) as [Hyz|Hyz|Hyz];
    destruct (N.compare_spec (N_of_ascii x) (N_of_ascii z)) as [Hxz|Hxz|Hxz];
    try congruence; try lia.
  apply IH.
Qed.

(** Two ascending lists with the same elements are the same list. *)
Lemma sorted_unique (l1 l2 : list string) :
  Sorted (fun a b => String.leb a b = true) l1 ->
  Sorted (fun a b => String.leb a b = true) l2 ->
  l1 ≡ₚ l2 -> l1 = l2.
Proof.
  intros H1 H2.
  apply Sorted_StronglySorted in H1; [|intros a b c; apply string_leb_trans].
  apply Sorted_StronglySorted in H2; [|intros a b c; apply string_leb_trans].
  revert l2 H2. induction H1 as [|x l1 Hs1 IH Hx]; intros l2 H2 Hperm.
  - symmetry. now apply Permutation_nil.
  - destruct H2 as [|y l2 Hs2 Hy].
    + apply Permutation_sym, Permutation_nil in Hperm. discriminate.
    + assert (Hxy : x = y).
      { assert (Hin1 : x ∈ y :: l2) by (rewrite <- Hperm; left).
        assert (Hin2 : y ∈ x :: l1) by (rewrite Hperm; left).
        apply elem_of_cons in Hin1 as [?|Hin1]; [assumption|].
        apply elem_of_cons in Hin2 as [?|Hin2]; [congruence|].
        rewrite Forall_forall in Hx, Hy.
        apply String.leb_antisym;
          [apply Hx, Hin2|apply Hy, Hin1]. }
      subst y. f_equal. apply IH; [exact Hs2|]. now apply Permutation_cons_inv in Hperm.
Qed.


Section GridPagesMore.

Variables (folder_path output_path project_folder_name : string).
Variables (rows cols : Z) (bg : string) (sp : Z).
Variables (image_files : list string) (sw sh : Z).

Let page := make_grid folder_path output_path project_folder_name rows cols bg sp
                      image_files sw sh.



End GridPagesMore.

(** What [forge_writes] lists are copies of readable entries the stage
    takes, under their exported names. *)
Lemma forge_writes_keys (d : dir) (names : list string) (key : string) (f : file) :
  (key, f) ∈ (forge_writes d names).1 ->
  exists name, name ∈ names /\ accepted_by forge_extensions name = true /\
               d !! name = Some f /\ f <> Unreadable /\ key = new_file_name name.
Proof.
  induction names as [|n names IH]; cbn [forge_writes].
  - intros H. inversion H.
  - destruct (accepted_by forge_extensions n) eqn:Hacc.
    2:{ intros H. destruct (IH H) as (name & Hin & Hrest). exists name. split; [now right|exact Hrest]. }
    assert (Hgo : forall g, d !! n = Some g -> g <> Unreadable ->
              (key, f) ∈ (let '(ws, e) := forge_writes d names in
                          ((new_file_name n, g) :: ws, e)).1 ->
              exists name, name ∈ n :: names /\ accepted_by forge_extensions name = true /\
                           d !! name = Some f /\ f <> Unreadable /\ key = new_file_name name).
    { intros g Hg Hgu H. destruct (forge_writes d names) as [ws e]. cbn [fst] in *.
      apply elem_of_cons in H as [H|H].
      - injection H as -> ->. exists n. split; [left|]. auto.
      - destruct (IH H) as (name & Hin & Hrest). exists name. split; [now right|exact Hrest]. }
    destruct (d !! n) as [[img|content|]|] eqn:Hn.
    + now apply Hgo.
    + now apply Hgo.
    + intros H. inversion H.
    + intros H. inversion H.
Qed.

Lemma forge_writes_all (d : dir) (names : list string) :
  (forall n, n ∈ names -> accepted_by forge_extensions n = true ->
             exists f, d !! n = Some f /\ f <> Unreadable) ->
  (forge_writes d names).2 = None /\
  (forall n f, n ∈ names -> accepted_by forge_extensions n = true -> d !! n = Some f ->
               (new_file_name n, f) ∈ (forge_writes d names).1).
Proof.
  induction names as [|n names IH]; intros Hall; cbn [forge_writes].
  - split; [reflexivity|]. intros n f H. inversion H.
  - destruct IH as [IH1 IH2].
    { intros m Hm. apply Hall. now right. }
    destruct (accepted_by forge_extensions n) eqn:Hacc.
    2:{ split; [exact IH1|]. intros m f Hm Hma Hmf.
        apply elem_of_cons in Hm as [->|Hm]; [congruence|]. now apply IH2. }
    destruct (Hall n ltac:(left) Hacc) as (g & Hg & Hgu). rewrite Hg.
    assert (Hgo : (let '(ws, e) := forge_writes d names in
                   ((new_file_name n, g) :: ws, e)).2 = None /\
                  (forall m f, m ∈ n :: names -> accepted_by forge_extensions m = true ->
                               d !! m = Some f ->
                               (new_file_name m, f) ∈
                                 (let '(ws, e) := forge_writes d names in
                                  ((new_file_name n, g) :: ws, e)).1)).
    { destruct (forge_writes d names) as [ws e]. cbn [fst snd] in *.
      split; [exact IH1|]. intros m f Hm Hma Hmf.
      apply elem_of_cons in Hm as [->|Hm].
      - replace f with g by congruence. left.
      - right. now apply IH2. }
    destruct g as [img|content|]; [exact Hgo|exact Hgo|congruence].
Qed.

Lemma ltrim_class_head (s : string) :
  ltrim_class s = EmptyString \/
  exists c rest, ltrim_class s = String c rest /\ is_strip_char c = false.
Proof.
  induction s as [|c s IH]; [now left|]. cbn [ltrim_class].
  destruct (is_strip_char c) eqn:Hc; [exact IH|]. right. eauto.
Qed.

Lemma normalize_quote_head (c : ascii) (s : string) :
  is_strip_char c = false ->
  exists c' rest, normalize_quote (String c s) = String c' rest /\
                  is_strip_char c' = false.
Proof.
  intros Hc. destruct (Ascii.eqb_spec c "226") as [->|Hne].
  - destruct s as [|d s]; [cbn; eauto|].
    destruct (Ascii.eqb_spec d "128") as [->|Hd].
    + destruct s as [|e s]; [cbn; eauto|].
      destruct (Ascii.eqb_spec e "153") as [->|He].
      * cbn. eauto.
      * rewrite PyStrFacts.normalize_quote_226_128_other by exact He. eauto.
    + rewrite PyStrFacts.normalize_quote_226_other by exact Hd. eauto.
  - rewrite PyStrFacts.normalize_quote_other by exact Hne. eauto.
Qed.



Lemma then_stage_started (acc : outcome) (line_before line_after : log_entry)
    (stage : fs -> outcome) :
  out_exn acc = None ->
  then_stage acc line_before stage line_after =
    let r := stage (out_fs acc) in
    match out_exn r with
    | Some e => Outcome (out_fs r) (out_log acc ++ [line_before] ++ out_log r) (Some e)
    | None =>
        Outcome (out_fs r) (out_log acc ++ [line_before] ++ out_log r ++ [line_after]) None
    end.
Proof. intros He. unfold then_stage. now rewrite He. Qed.

Section PipelineMore.

Variables (abspath : string -> string) (project_path : string).
Variables (rows cols : Z) (bg : string) (sp k : Z).

Let print_folder := PyStr.path_join project_path "Print".
Let share_folder := PyStr.path_join project_path "Share".
Let forge_folder := PyStr.path_join project_path "Forge".
Let pipeline (st : fs) : outcome :=
  run_image_pipeline abspath st project_path rows cols bg sp k.
Let cropped (st : fs) : outcome :=
  crop_and_downsize_for_share st print_folder share_folder k.
Let grids (st : fs) : outcome :=
  run_grid_maker abspath (out_fs (cropped st)) share_folder project_path rows cols bg sp.
Let renamed (st : fs) : outcome :=
  rename_for_forge (out_fs (grids st)) share_folder forge_folder.

(** The pipeline, stage by stage. *)
Lemma pipeline_stages (st : fs) :
  pipeline st =
    let log2 := [LogPipelineStart; LogStepStart 1] ++ out_log (cropped st) ++
                [LogStepFinished 1; LogStepStart 2] ++ out_log (grids st) in
    match out_exn (grids st) with
    | Some e => Outcome (out_fs (grids st)) log2 (Some e)
    | None =>
        let log3 := log2 ++ [LogStepFinished 2; LogStepStart 3] ++ out_log (renamed st) in
        match out_exn (renamed st) with
        | Some e => Outcome (out_fs (renamed st)) log3 (Some e)
        | None =>
            Outcome (out_fs (renamed st))
                    (log3 ++ [LogStepFinished 3; LogPipelineFinished]) None
        end
    end.
Proof.
  unfold pipeline, run_image_pipeline. cbn zeta.
  fold print_folder share_folder forge_folder.
  set (o1 := then_stage (Outcome st [LogPipelineStart] None) _ _ _).
  assert (E1 : o1 = Outcome (out_fs (cropped st))
                      ([LogPipelineStart; LogStepStart 1] ++ out_log (cropped st) ++
                       [LogStepFinished 1]) None).
  { subst o1. rewrite then_stage_started by reflexivity. cbn zeta. cbn [out_fs out_log].
    fold (cropped st). unfold cropped at 1. now rewrite FsFacts.crop_stage_no_exn. }
  rewrite E1. clear E1 o1.
  set (o2 := then_stage _ (LogStepStart 2) _ _).
  assert (E2 : o2 =
            let log2 := [LogPipelineStart; LogStepStart 1] ++ out_log (cropped st) ++
                        [LogStepFinished 1; LogStepStart 2] ++ out_log (grids st) in
            match out_exn (grids st) with
            | Some e => Outcome (out_fs (grids st)) log2 (Some e)
            | None => Outcome (out_fs (grids st)) (log2 ++ [LogStepFinished 2]) None
            end).
  { subst o2. rewrite then_stage_started by reflexivity. cbn zeta. cbn [out_fs out_log].
    fold (grids st). destruct (out_exn (grids st)); f_equal;
      rewrite <- ?app_assoc; reflexivity. }
  rewrite E2. clear E2 o2. cbn zeta.
  destruct (out_exn (grids st)) as [e|] eqn:Hg.
  - rewrite FsFacts.then_stage_raised by (cbn; eauto). reflexivity.
  - rewrite then_stage_started by reflexivity. cbn zeta. cbn [out_fs out_log].
    fold (renamed st).
    destruct (out_exn (renamed st)) as [e|]; cbn [out_exn out_fs out_log];
      f_equal; rewrite <- ?app_assoc; reflexivity.
Qed.

End PipelineMore.

(** A page writes at most the file of its own name. *)
Lemma make_grid_other_names (folder_path output_path project_folder_name : string)
    (rows cols : Z) (bg : string) (sp : Z) (image_files : list string) (sw sh : Z)
    (acc : outcome) (g : Z) (name : string) :
  name <> grid_output_filename project_folder_name g ->
  read_file (out_fs (make_grid folder_path output_path project_folder_name rows cols
                               bg sp image_files sw sh acc g)) output_path name =
  read_file (out_fs acc) output_path name.
Proof.
  intros Hne. destruct (out_exn acc) as [e|] eqn:Hexn.
  - now rewrite FsFacts.make_grid_raised by (rewrite Hexn; eauto).
  - destruct (pil_new bg (sw * cols + sp * (cols + 1)) (sh * rows + sp * (rows + 1)))
      as [e|canvas] eqn:Hnew.
    + unfold make_grid. now rewrite Hexn, Hnew.
    + rewrite (FsFacts.make_grid_page _ _ _ _ _ _ _ _ _ _ _ _ _ Hexn Hnew). cbn zeta.
      unfold pil_save, write_file.
      destruct (out_fs acc !! output_path) as [o|] eqn:Ho; [|reflexivity].
      cbn [out_fs]. unfold read_file. rewrite lookup_insert_eq, Ho. cbn.
      now rewrite lookup_insert_ne by congruence.
Qed.

Lemma grid_fold_other_names (folder_path output_path project_folder_name : string)
    (rows cols : Z) (bg : string) (sp : Z) (image_files : list string) (sw sh : Z)
    (gs : list Z) (acc : outcome) (name : string) :
  (forall g, name <> grid_output_filename project_folder_name g) ->
  read_file (out_fs (fold_left (make_grid folder_path output_path project_folder_name
                                          rows cols bg sp image_files sw sh) gs acc))
            output_path name =
  read_file (out_fs acc) output_path name.
Proof.
  intros Hne. revert acc. induction gs as [|g gs IH]; intros acc; [reflexivity|].
  cbn [fold_left]. rewrite IH. now apply make_grid_other_names.
Qed.

Lemma grid_stage_other_names (abspath : string -> string) (st : fs)
    (folder_path output_path : string) (rows cols : Z) (bg : string) (sp : Z)
    (name : string) :
  (forall g, name <> grid_output_filename (PyStr.basename (abspath output_path)) g) ->
  read_file (out_fs (run_grid_maker abspath st folder_path output_path rows cols bg sp))
            output_path name = read_file st output_path name.
Proof.
  intros Hne. unfold run_grid_maker.
  destruct (negb (isdir st folder_path)); [reflexivity|].
  destruct (os_listdir st folder_path) as [e|names]; [reflexivity|].
  destruct (PyStr.sorted _) as [|first rest]; [reflexivity|].
  destruct (try_bind _ _) as [e|num_grids]; [reflexivity|].
  destruct (pil_open st folder_path first) as [e|img]; [reflexivity|].
  now rewrite grid_fold_other_names.
Qed.

Lemma drop_nil (n : nat) : PyStr.drop n EmptyString = EmptyString.
Proof. now destruct n. Qed.

Lemma drop_app (n : nat) (a b : string) :
  PyStr.drop n (a +:+ b) = PyStr.drop n a +:+ PyStr.drop (n - String.length a) b.
Proof.
  revert n. induction a as [|c a IH]; intros n.
  - rewrite PyStrFacts.app_nil_l, drop_nil, PyStrFacts.app_nil_l.
    cbn [String.length]. now rewrite Nat.sub_0_r.
  - destruct n as [|n]; [reflexivity|].
    rewrite PyStrFacts.app_cons. cbn [PyStr.drop String.length]. apply IH.
Qed.

Lemma drop_all (n : nat) (a : string) :
  (String.length a <= n)%nat -> PyStr.drop n a = EmptyString.
Proof.
  revert n. induction a as [|c a IH]; intros n Hn; [apply drop_nil|].
  destruct n as [|n]; cbn [String.length] in Hn; [lia|]. cbn [PyStr.drop]. apply IH. lia.
Qed.

Lemma drop_last (a : string) :
  a <> EmptyString ->
  exists c, PyStr.drop (String.length a - 1) a = String c EmptyString.
Proof.
  induction a as [|c a IH]; [congruence|]. intros _.
  destruct a as [|c' a]; [now exists c|].
  destruct IH as [x Hx]; [discriminate|]. exists x.
  cbn [String.length] in *.
  replace (S (S (String.length a)) - 1)%nat with (S (S (String.length a) - 1)) by lia.
  exact Hx.
Qed.

(** [endswith] on a name with a known extension. *)
Lemma endswith_same_length (a e suffix : string) :
  String.length e = String.length suffix ->
  PyStr.endswith (a +:+ e) suffix = String.eqb e suffix.
Proof.
  intros Hlen. unfold PyStr.endswith. rewrite PyStrFacts.length_app, <- Hlen.
  replace (String.length a + String.length e - String.length e)%nat
    with (String.length a) by lia.
  rewrite PyStrFacts.drop_app_length.
  replace (String.length e <=? String.length a + String.length e)%nat with true
    by (symmetry; apply Nat.leb_le; lia).
  reflexivity.
Qed.

Lemma endswith_longer_suffix (a e suffix : string) :
  String.length suffix = S (String.length e) ->
  (forall c, String.eqb (String c e) suffix = false) ->
  PyStr.endswith (a +:+ e) suffix = false.
Proof.
  intros Hlen Hne. unfold PyStr.endswith. rewrite PyStrFacts.length_app, Hlen.
  destruct a as [|c a].
  - cbn [String.length]. replace (S (String.length e) <=? 0 + String.length e)%nat
      with false by (symmetry; apply Nat.leb_gt; lia). reflexivity.
  - destruct (drop_last (String c a)) as [x Hx]; [discriminate|].
    replace (String.length (String c a) + String.length e - S (String.length e))%nat
      with (String.length (String c a) - 1)%nat by (cbn [String.length]; lia).
    rewrite drop_app, Hx.
    replace (String.length (String c a) - 1 - String.length (String c a))%nat with O by lia.
    cbn [PyStr.drop]. rewrite PyStrFacts.app_cons, PyStrFacts.app_nil_l, Hne.
    apply andb_false_r.
Qed.

Lemma endswith_shorter_suffix (a e suffix : string) :
  String.length e = S (String.length suffix) ->
  PyStr.endswith (a +:+ e) suffix = String.eqb (PyStr.drop 1 e) suffix.
Proof.
  intros Hlen. unfold PyStr.endswith. rewrite PyStrFacts.length_app, Hlen.
  replace (String.length a + S (String.length suffix) - String.length suffix)%nat
    with (S (String.length a)) by lia.
  rewrite drop_app, drop_all by lia. rewrite PyStrFacts.app_nil_l.
  replace (S (String.length a) - String.length a)%nat with 1%nat by lia.
  replace (String.length suffix <=? String.length a + S (String.length suffix))%nat
    with true by (symmetry; apply Nat.leb_le; lia).
  reflexivity.
Qed.

Lemma apply_writes_lookup_last (ws1 ws2 : list (string * file)) (o : dir)
    (key : string) (f : file) :
  key ∉ ws2.*1 -> apply_writes (ws1 ++ (key, f) :: ws2) o !! key = Some f.
Proof.
  intros Hkey. rewrite FsFacts.apply_writes_app, FsFacts.apply_writes_cons.
  rewrite FsFacts.apply_writes_lookup_other by exact Hkey. apply lookup_insert_eq.
Qed.

Lemma forge_writes_app (d : dir) (l1 l2 : list string) :
  forge_writes d (l1 ++ l2) =
    match (forge_writes d l1).2 with
    | Some e => forge_writes d l1
    | None => ((forge_writes d l1).1 ++ (forge_writes d l2).1, (forge_writes d l2).2)
    end.
Proof.
  induction l1 as [|n l1 IH].
  - cbn. now destruct (forge_writes d l2).
  - cbn [app forge_writes]. destruct (accepted_by forge_extensions n); [|exact IH].
    assert (Hgo : forall g,
              (let '(ws, e) := forge_writes d (l1 ++ l2) in ((new_file_name n, g) :: ws, e)) =
              match (let '(ws, e) := forge_writes d l1 in
                     ((new_file_name n, g) :: ws, e)).2 with
              | Some e => let '(ws, e) := forge_writes d l1 in ((new_file_name n, g) :: ws, e)
              | None =>
                  ((let '(ws, e) := forge_writes d l1 in
                    ((new_file_name n, g) :: ws, e)).1 ++ (forge_writes d l2).1,
                   (forge_writes d l2).2)
              end).
    { intros g. rewrite IH. destruct (forge_writes d l1) as [ws [e|]]; reflexivity. }
    destruct (d !! n) as [[img|content|]|]; try reflexivity; apply Hgo.
Qed.

End StageFacts.

(** ** The Cropper *)

(** Property X1.  With the output folder apart from the input folder, the
    Cropper never ends with an exception and leaves every folder other than
    its output folder as it was, its input folder included; when the input
    folder exists, the output folder exists afterwards, whether or not a
    file was written. *)
Theorem cropper_touches_output_only (st : fs) (input_folder output_folder : string)
    (k : Z) :
  input_folder <> output_folder ->
  let r := crop_and_downsize_for_share st input_folder output_folder k in
  out_exn r = None /\
  (forall other, other <> output_folder -> out_fs r !! other = st !! other) /\
  (isdir st input_folder = true -> isdir (out_fs r) output_folder = true).
Proof.
  intros Hne r. split; [apply FsFacts.crop_stage_no_exn|]. split.
  - intros other Ho. now apply FsFacts.crop_stage_frame.
  - unfold isdir. intros Hin. subst r. rewrite FsFacts.crop_stage_dir by exact Hne.
    destruct (st !! input_folder); [reflexivity|discriminate].
Qed.

Lemma cropper_touches_output_only_witness :
  let st : fs :=
    {[ "deck/Print"%string :=
         ({[ "notes.txt"%string := DataFile "to do" ]} : dir) ]} in
  let r := crop_and_downsize_for_share st "deck/Print" "deck/Share" 3 in
  out_exn r = None /\
  out_fs r !! "deck/Print"%string = st !! "deck/Print"%string /\
  isdir (out_fs r) "deck/Share" = true.
Proof.
  intros st r.
  destruct (cropper_touches_output_only st "deck/Print" "deck/Share" 3)
    as (Hexn & Hframe & Hdir).
  - discriminate.
  - split; [exact Hexn|]. split.
    + apply Hframe. discriminate.
    + apply Hdir. reflexivity.
Defined.





(** Property X4.  For an image the Cropper accepts (sides positive and below
    [2 ^ 31]) and a downscale factor between 1 and the sides of the crop,
    the crop box lies inside the image and is centred: the margin on the
    right (bottom) is the margin on the left (top) or one pixel more.  The
    resized image is at least one pixel and at most the crop in each
    direction. *)
Theorem crop_box_centred (img : image) (k : Z) :
  0 < width img < 2 ^ 31 -> 0 < height img < 2 ^ 31 ->
  aspect_ok (width img) (height img) = inr true ->
  1 <= k -> k <= width img * 2010 / 2187 -> k <= height img * 2814 / 2975 ->
  exists left top right bottom new_width new_height : Z,
    crop_and_resize img k =
      inr (Some (Image new_width new_height
                   (Resampled (Cropped (px img) left top right bottom)
                              new_width new_height))) /\
    0 <= left /\ left < right /\ right <= width img /\
    0 <= top /\ top < bottom /\ bottom <= height img /\
    0 <= (width img - right) - left <= 1 /\
    0 <= (height img - bottom) - top <= 1 /\
    1 <= new_width <= right - left /\
    1 <= new_height <= bottom - top.
Proof.
  intros Hw Hh Hok Hk Hkw Hkh.
  pose proof (FsFacts.crop_and_resize_accepted img k Hw Hh Hok Hk Hkw Hkh) as Hcrop.
  cbn zeta in Hcrop.
  set (tw := width img * 2010 / 2187) in *. set (th := height img * 2814 / 2975) in *.
  assert (Htw : tw <= width img).
  { subst tw. apply Z.div_le_upper_bound; lia. }
  assert (Hth : th <= height img).
  { subst th. apply Z.div_le_upper_bound; lia. }
  pose proof (Z.div_mod (width img - tw) 2 ltac:(lia)) as Hl.
  pose proof (Z.mod_pos_bound (width img - tw) 2 ltac:(lia)) as Hlm.
  pose proof (Z.div_mod (height img - th) 2 ltac:(lia)) as Ht.
  pose proof (Z.mod_pos_bound (height img - th) 2 ltac:(lia)) as Htm.
  assert (Hnw : 1 <= tw / k <= tw).
  { split; [apply Z.div_le_lower_bound; lia|]. apply Z.div_le_upper_bound; nia. }
  assert (Hnh : 1 <= th / k <= th).
  { split; [apply Z.div_le_lower_bound; lia|]. apply Z.div_le_upper_bound; nia. }
  eexists _, _, _, _, _, _. split; [exact Hcrop|]. repeat split; lia.
Qed.

Lemma crop_box_centred_witness :
  exists left top right bottom new_width new_height : Z,
    crop_and_resize (Image 2188 2976 (Original "card")) 3 =
      inr (Some (Image new_width new_height
                   (Resampled (Cropped (Original "card") left top right bottom)
                              new_width new_height))) /\
    0 <= (2188 - right) - left <= 1 /\ 0 <= (2976 - bottom) - top <= 1.
Proof.
  destruct (crop_box_centred (Image 2188 2976 (Original "card")) 3)
    as (left & top & right & bottom & nw & nh & Hcrop & H).
  - simpl. lia.
  - simpl. lia.
  - vm_compute. reflexivity.
  - lia.
  - vm_compute. discriminate.
  - vm_compute. discriminate.
  - exists left, top, right, bottom, nw, nh. cbn [width height px] in *.
    split; [exact Hcrop|]. split; apply H.
Defined.

(** Property X5.  With a downscale factor that is zero or negative the
    Cropper writes nothing for an image (sides positive and below
    [2 ^ 31]): the entry of that name in the output folder stays what it
    was, and the line printed for the image is the aspect ratio skip or
    the report of a [ZeroDivisionError] (factor 0) or of Pillow's
    [ValueError] for an empty size (negative factor). *)
Theorem cropper_nonpositive_factor (st : fs) (input_folder output_folder : string)
    (d : dir) (name : string) (img : image) (k : Z) :
  st !! input_folder = Some d -> input_folder <> output_folder ->
  d !! name = Some (ImageFile img) ->
  accepted_by crop_extensions name = true ->
  0 < width img < 2 ^ 31 -> 0 < height img < 2 ^ 31 ->
  k <= 0 ->
  let r := crop_and_downsize_for_share st input_folder output_folder k in
  read_file (out_fs r) output_folder name = read_file st output_folder name /\
  (LogSkipAspect name ∈ out_log r \/
   LogCouldNotProcess name (if k =? 0 then ZeroDivisionError else ValueError)
     ∈ out_log r).
Proof.
  intros Hs Hne Hname Hacc Hw Hh Hk r.
  pose proof (StageFacts.crop_and_resize_cases img k Hw Hh) as Hcases. cbn zeta in Hcases.
  assert (Hpos : 0 <= width img * 2010 / 2187) by (apply Z.div_pos; lia).
  assert (Hres : crop_and_resize img k = inr None \/
                 crop_and_resize img k =
                   inl (if k =? 0 then ZeroDivisionError else ValueError)).
  { rewrite Hcases. destruct (F64.isclose _ _ _ _); [right|now left].
    destruct (Z.eqb_spec k 0) as [H0|H0]; [reflexivity|].
    assert (Hdiv : width img * 2010 / 2187 / k <= 0).
    { apply Z.opp_le_mono. rewrite Z.opp_0, <- Z.div_opp_opp by lia.
      rewrite <- (Z.opp_involutive (- (_ / 2187) / - k)).
      apply Z.opp_nonneg_nonpos.
      pose proof (Z.div_mod (- (width img * 2010 / 2187)) (- k) ltac:(lia)) as Hd.
      pose proof (Z.mod_pos_bound (- (width img * 2010 / 2187)) (- k) ltac:(lia)) as Hm.
      nia. }
    destruct (Z.ltb_spec (width img * 2010 / 2187 / k) 1); [reflexivity|lia]. }
  pose proof (FsFacts.crop_stage_line st input_folder output_folder k d name Hne Hs
                ltac:(rewrite Hname; eauto) Hacc) as Hline.
  rewrite Hname in Hline. split.
  - apply (FsFacts.crop_stage_untouched st _ _ k d name Hne Hs).
    unfold crop_write. rewrite Hacc, Hname. now destruct Hres as [-> | ->].
  - destruct Hres as [Hres|Hres]; rewrite Hres in Hline; [now left|now right].
Qed.

Lemma cropper_nonpositive_factor_witness :
  let st : fs :=
    {[ "deck/Print"%string :=
         ({[ "card.png"%string := ImageFile (Image 2187 2975 (Original "card")) ]} : dir) ]} in
  let r := crop_and_downsize_for_share st "deck/Print" "deck/Share" 0 in
  read_file (out_fs r) "deck/Share" "card.png" = None /\
  out_log r = [LogScanning "deck/Print"; LogCouldNotProcess "card.png" ZeroDivisionError].
Proof.
  intros st r.
  destruct (cropper_nonpositive_factor st "deck/Print" "deck/Share"
              {[ "card.png"%string := ImageFile (Image 2187 2975 (Original "card")) ]}
              "card.png" (Image 2187 2975 (Original "card")) 0) as [Hread _].
  - reflexivity.
  - discriminate.
  - reflexivity.
  - reflexivity.
  - simpl. lia.
  - simpl. lia.
  - lia.
  - split; [|vm_compute; reflexivity].
    transitivity (read_file st "deck/Share" "card.png"); [exact Hread|reflexivity].
Defined.

(** Property X6.  An image whose sides are the same multiple [m] of the
    reference 2187 x 2975 (below [2 ^ 31]) passes the aspect ratio test, and
    its crop is that multiple of 2010 x 2814: with a downscale factor [k]
    between 1 and [2010 * m] the Cropper's result is
    [2010 * m / k] by [2814 * m / k]. *)
Theorem cropper_scaled_reference (m k : Z) (p : pixels) :
  1 <= m -> 2975 * m < 2 ^ 31 -> 1 <= k <= 2010 * m ->
  aspect_ok (2187 * m) (2975 * m) = inr true /\
  exists out : image,
    crop_and_resize (Image (2187 * m) (2975 * m) p) k = inr (Some out) /\
    width out = 2010 * m / k /\ height out = 2814 * m / k.
Proof.
  intros Hm Hmax Hk.
  assert (Hok : aspect_ok (2187 * m) (2975 * m) = inr true).
  { rewrite FsFacts.aspect_ok_isclose by lia. f_equal.
    apply (F64Facts.isclose_ratio_bracket (2187 * m) (2975 * m)); lia. }
  split; [exact Hok|].
  assert (Htw : 2187 * m * 2010 / 2187 = 2010 * m).
  { replace (2187 * m * 2010) with (2010 * m * 2187) by lia. apply Z.div_mul. lia. }
  assert (Hth : 2975 * m * 2814 / 2975 = 2814 * m).
  { replace (2975 * m * 2814) with (2814 * m * 2975) by lia. apply Z.div_mul. lia. }
  pose proof (FsFacts.crop_and_resize_accepted (Image (2187 * m) (2975 * m) p) k) as Hcrop.
  cbn [width height px] in Hcrop. rewrite Htw, Hth in Hcrop.
  eexists. split; [apply Hcrop; try lia; exact Hok|]. split; reflexivity.
Qed.

Lemma cropper_scaled_reference_witness :
  aspect_ok (2187 * 2) (2975 * 2) = inr true /\
  exists out : image,
    crop_and_resize (Image (2187 * 2) (2975 * 2) (Original "card")) 3 = inr (Some out) /\
    width out = 2010 * 2 / 3 /\ height out = 2814 * 2 / 3.
Proof. apply (cropper_scaled_reference 2 3 (Original "card")); lia. Defined.

(** ** The Grid Composer *)







(** Property X10.  The list of images the Grid Composer works from does
    not depend on the order in which the directory lists its entries: two
    listings of the same entries give the same sorted list, hence the same
    pages. *)
Theorem grid_listing_order_irrelevant (names names' : list string) :
  names ≡ₚ names' ->
  PyStr.sorted
    (filter (fun f => PyStr.endswith_any (PyStr.lower f) valid_extensions = true) names) =
  PyStr.sorted
    (filter (fun f => PyStr.endswith_any (PyStr.lower f) valid_extensions = true) names').
Proof.
  intros Hperm. apply StageFacts.sorted_unique; try apply FsFacts.sorted_Sorted.
  rewrite !FsFacts.sorted_perm. now rewrite Hperm.
Qed.

Lemma grid_listing_order_irrelevant_witness :
  PyStr.sorted
    (filter (fun f => PyStr.endswith_any (PyStr.lower f) valid_extensions = true)
            ["b.png"; "notes.txt"; "a.png"]%string) =
  PyStr.sorted
    (filter (fun f => PyStr.endswith_any (PyStr.lower f) valid_extensions = true)
            ["a.png"; "b.png"; "notes.txt"]%string).
Proof.
  apply grid_listing_order_irrelevant.
  change (["b.png"; "notes.txt"; "a.png"]%string ≡ₚ
          ["a.png"%string] ++ "b.png"%string :: ["notes.txt"%string]).
  apply Permutation_cons_app. apply perm_swap.
Defined.

(** ** Rename/Export *)

(** Property X11.  When every entry of the source folder that Rename/Export
    takes can be read, the stage returns without an exception; an entry
    whose exported name no other such entry shares is then found in the
    destination folder under its exported name, with the content of the
    source entry.  (Source and destination folders differ.) *)
Theorem rename_copies_content (st : fs) (source_folder destination_folder : string)
    (d : dir) (name : string) (f : file) :
  st !! source_folder = Some d -> source_folder <> destination_folder ->
  (forall n g, d !! n = Some g -> accepted_by forge_extensions n = true ->
               g <> Unreadable) ->
  d !! name = Some f -> accepted_by forge_extensions name = true ->
  (forall other g, d !! other = Some g -> accepted_by forge_extensions other = true ->
                   new_file_name other = new_file_name name -> other = name) ->
  let r := rename_for_forge st source_folder destination_folder in
  out_exn r = None /\
  read_file (out_fs r) destination_folder (new_file_name name) = Some f.
Proof.
  intros Hs Hne Hread Hname Hacc Huniq r.
  destruct (FsFacts.forge_stage_fs st _ _ d Hne Hs) as [Hfs Hexn]. fold r in Hfs, Hexn.
  destruct (StageFacts.forge_writes_all d (listdir d)) as [Hnone Hall].
  { intros n Hn Hn'. apply FsFacts.elem_of_listdir in Hn as [g Hg].
    exists g. split; [exact Hg|]. now apply (Hread n). }
  split; [now rewrite Hexn|].
  rewrite Hfs. unfold read_file. rewrite lookup_insert_eq. cbn.
  apply FsFacts.apply_writes_lookup_same.
  - apply Hall; auto. apply FsFacts.elem_of_listdir. eauto.
  - intros v' Hv'.
    destruct (StageFacts.forge_writes_keys d (listdir d) _ _ Hv')
      as (other & _ & Hoacc & Hother & _ & Hkey).
    assert (other = name) by (apply (Huniq other v'); auto). congruence.
Qed.

Lemma rename_copies_content_witness :
  let card := ImageFile (Image 670 938 (Original "card")) in
  let d : dir := {[ "003_Sliver’s Mark.jpg"%string := card;
                    "notes.txt"%string := DataFile "to do" ]} in
  let st : fs := {[ "deck/Share"%string := d ]} in
  let r := rename_for_forge st "deck/Share" "deck/Forge" in
  out_exn r = None /\
  read_file (out_fs r) "deck/Forge" "Sliver's Mark.fullborder.jpg" = Some card.
Proof.
  intros card d st r.
  apply (rename_copies_content st "deck/Share" "deck/Forge" d
           "003_Sliver’s Mark.jpg" card).
  - reflexivity.
  - discriminate.
  - intros n g Hn Hacc ->.
    destruct (decide (n = "003_Sliver’s Mark.jpg"%string)) as [->|H1];
      [vm_compute in Hn; discriminate Hn|].
    destruct (decide (n = "notes.txt"%string)) as [->|H2];
      [vm_compute in Hn; discriminate Hn|].
    unfold d in Hn. rewrite lookup_insert_ne, lookup_singleton_ne in Hn by congruence.
    discriminate Hn.
  - reflexivity.
  - reflexivity.
  - intros other g Ho Hacc _.
    destruct (decide (other = "003_Sliver’s Mark.jpg"%string)) as [->|H1]; [reflexivity|].
    destruct (decide (other = "notes.txt"%string)) as [->|H2];
      [vm_compute in Hacc; discriminate Hacc|].
    unfold d in Ho. rewrite lookup_insert_ne, lookup_singleton_ne in Ho by congruence.
    discriminate Ho.
Defined.

(** Property X12.  Rename/Export writes into its destination folder only,
    and there only under names that end in '.fullborder.jpg': every other
    folder, the source folder included, and every destination entry of
    another name is after the stage what it was before, whether the stage
    returns or ends with an exception. *)
Theorem rename_touches_exported_names_only (st : fs)
    (source_folder destination_folder : string) :
  source_folder <> destination_folder ->
  let r := rename_for_forge st source_folder destination_folder in
  (forall other, other <> destination_folder -> out_fs r !! other = st !! other) /\
  (forall name, PyStr.endswith name ".fullborder.jpg" = false ->
     read_file (out_fs r) destination_folder name =
     read_file st destination_folder name).
Proof.
  intros Hne r. split.
  - intros other Ho. now apply FsFacts.forge_stage_frame.
  - intros name Hname. subst r. destruct (st !! source_folder) as [d|] eqn:Hs.
    2:{ now rewrite (FsFacts.forge_stage_missing _ _ _ Hs). }
    destruct (FsFacts.forge_stage_fs st _ _ d Hne Hs) as [Hfs _]. rewrite Hfs.
    unfold read_file. rewrite lookup_insert_eq. cbn.
    rewrite FsFacts.apply_writes_lookup_other.
    + now destruct (st !! destination_folder).
    + intros Hin. apply list_elem_of_fmap in Hin as ([key f] & Hkey & Hin).
      cbn in Hkey. subst key.
      destruct (StageFacts.forge_writes_keys d (listdir d) _ _ Hin)
        as (n & _ & _ & _ & _ & Hn).
      rewrite Hn in Hname. unfold new_file_name in Hname.
      destruct (PyStr.splitext n) as [base ext].
      rewrite PyStrFacts.endswith_app in Hname. discriminate Hname.
Qed.

Lemma rename_touches_exported_names_only_witness :
  let d : dir := {[ "003_Sliver’s Mark.jpg"%string :=
                      ImageFile (Image 670 938 (Original "card")) ]} in
  let st : fs := {[ "deck/Share"%string := d;
                    "deck/Forge"%string :=
                      ({[ "readme.txt"%string := DataFile "keep" ]} : dir) ]} in
  let r := rename_for_forge st "deck/Share" "deck/Forge" in
  out_fs r !! "deck/Share"%string = Some d /\
  read_file (out_fs r) "deck/Forge" "readme.txt" = Some (DataFile "keep").
Proof.
  intros d st r.
  destruct (rename_touches_exported_names_only st "deck/Share" "deck/Forge")
    as [Hframe Hkeep].
  - discriminate.
  - split.
    + transitivity (st !! "deck/Share"%string); [|reflexivity].
      apply Hframe. discriminate.
    + transitivity (read_file st "deck/Forge" "readme.txt"); [|reflexivity].
      apply Hkeep. reflexivity.
Defined.

(** Property X13.  An exported name never begins with an ASCII digit, an
    underscore or a space: the left trim removes them all, and what
    follows, the first character of the rest or the dot of the suffix, is
    outside that class. *)
Theorem export_name_first_character (file_name : string) :
  exists c rest, new_file_name file_name = String c rest /\ is_strip_char c = false.
Proof.
  unfold new_file_name. destruct (PyStr.splitext file_name) as [base ext].
  rewrite PyStrFacts.lstrip_ltrim, PyStrFacts.replace_quote.
  destruct (StageFacts.ltrim_class_head base) as [->|(c & rest & -> & Hc)].
  - cbn [normalize_quote]. rewrite PyStrFacts.app_nil_l. eauto.
  - destruct (StageFacts.normalize_quote_head c rest Hc) as (c' & rest' & -> & Hc').
    rewrite PyStrFacts.app_cons. eauto.
Qed.


(** ** The pipeline *)

(** Property X14.  Nothing in the pipeline catches what a stage raises.
    When the Grid Composer, run on what the Cropper left, ends with an
    exception, the pipeline ends with that exception: the lines printed stop
    with the Grid Composer's, Rename/Export is not run, and the Forge
    folder is what it was before the run, while the Share folder keeps what
    the Cropper wrote. *)
Theorem pipeline_stops_when_grid_raises (abspath : string -> string) (st : fs)
    (project_path : string) (rows cols : Z) (bg : string) (sp k : Z) (e : exn) :
  let print_folder := PyStr.path_join project_path "Print" in
  let share_folder := PyStr.path_join project_path "Share" in
  let forge_folder := PyStr.path_join project_path "Forge" in
  let c := crop_and_downsize_for_share st print_folder share_folder k in
  let g := run_grid_maker abspath (out_fs c) share_folder project_path rows cols bg sp in
  let r := run_image_pipeline abspath st project_path rows cols bg sp k in
  out_exn g = Some e ->
  out_exn r = Some e /\
  out_log r = [LogPipelineStart; LogStepStart 1] ++ out_log c ++
              [LogStepFinished 1; LogStepStart 2] ++ out_log g /\
  out_fs r !! forge_folder = st !! forge_folder /\
  out_fs r !! share_folder = out_fs c !! share_folder.
Proof.
  intros print_folder share_folder forge_folder c g r Hg.
  pose proof (StageFacts.pipeline_stages abspath project_path rows cols bg sp k st) as Hrun.
  destruct (FsFacts.folders_distinct project_path) as (H1 & H2 & H3 & H4 & H5 & H6).
  subst print_folder share_folder forge_folder c g r.
  cbv beta zeta in Hrun. rewrite Hg in Hrun. rewrite Hrun. cbn [out_exn out_log out_fs].
  repeat split.
  - rewrite FsFacts.grid_stage_frame by exact H6.
    now rewrite FsFacts.crop_stage_frame by congruence.
  - now rewrite FsFacts.grid_stage_frame by exact H5.
Qed.

Lemma pipeline_stops_when_grid_raises_witness :
  let st : fs :=
    {[ "deck/Print"%string :=
         ({[ "card.png"%string := ImageFile (Image 2187 2975 (Original "card")) ]} : dir) ]} in
  let r := run_image_pipeline (fun p => p) st "deck" 0 4 "black" 0 3 in
  out_exn r = Some ZeroDivisionError /\
  out_fs r !! "deck/Forge"%string = None.
Proof.
  intros st r.
  destruct (pipeline_stops_when_grid_raises (fun p => p) st "deck" 0 4 "black" 0 3
              ZeroDivisionError) as (Hexn & _ & Hforge & _).
  - vm_compute. reflexivity.
  - split; [exact Hexn|exact Hforge].
Defined.



(** Property X16.  A run of the pipeline writes into three folders only:
    Share, Forge and the project folder itself (where the grids go).  Every
    other folder of the file system, the Print folder among them, is after
    the run what it was before, whether the run ends with an exception or
    not. *)
Theorem pipeline_touches_three_folders (abspath : string -> string) (st : fs)
    (project_path : string) (rows cols : Z) (bg : string) (sp k : Z) (other : string) :
  other <> PyStr.path_join project_path "Share" ->
  other <> PyStr.path_join project_path "Forge" ->
  other <> project_path ->
  out_fs (run_image_pipeline abspath st project_path rows cols bg sp k) !! other =
    st !! other.
Proof.
  intros HS HF HP.
  destruct (FsFacts.folders_distinct project_path) as (H1 & H2 & H3 & H4 & H5 & H6).
  rewrite FsFacts.pipeline_fs. cbv beta.
  destruct (out_exn (run_grid_maker _ _ _ _ _ _ _ _)).
  - rewrite FsFacts.grid_stage_frame by exact HP.
    now apply FsFacts.crop_stage_frame.
  - rewrite FsFacts.forge_stage_frame by assumption.
    rewrite FsFacts.grid_stage_frame by exact HP.
    now apply FsFacts.crop_stage_frame.
Qed.

Lemma pipeline_touches_three_folders_witness :
  let print : dir := {[ "card.png"%string := ImageFile (Image 2187 2975 (Original "card")) ]} in
  let st : fs := {[ "deck/Print"%string := print; "deck"%string := (∅ : dir) ]} in
  out_fs (run_image_pipeline (fun p => p) st "deck" 4 4 "black" 0 3) !! "deck/Print"%string =
    Some print.
Proof.
  intros print st.
  rewrite (pipeline_touches_three_folders (fun p => p) st "deck" 4 4 "black" 0 3
             "deck/Print"); [reflexivity|discriminate|discriminate|discriminate].
Defined.

(** Property X17.  The Grid Composer writes into its output folder only,
    and there only under names of the form "<project> <number>.jpg":
    every other folder, and every entry of the output folder with another
    name, is left as it was, whatever the call meets. *)
Theorem grid_touches_grid_files_only (abspath : string -> string) (st : fs)
    (folder_path output_path : string) (rows cols : Z) (bg : string) (sp : Z) :
  let r := run_grid_maker abspath st folder_path output_path rows cols bg sp in
  (forall other, other <> output_path -> out_fs r !! other = st !! other) /\
  (forall name,
     (forall g, name <> grid_output_filename (PyStr.basename (abspath output_path)) g) ->
     read_file (out_fs r) output_path name = read_file st output_path name).
Proof.
  intros r. split.
  - intros other Ho. now apply FsFacts.grid_stage_frame.
  - intros name Hname. now apply StageFacts.grid_stage_other_names.
Qed.

(** Property X18.  The three stages take nested sets of extensions: what
    Rename/Export takes the Cropper takes, and what the Cropper takes the
    Grid Composer takes.  The inclusions are strict: a name ending in
    '.bmp' or '.tiff' is cropped and tiled but never exported, and a name
    ending in '.gif' is tiled but neither cropped nor exported. *)
Theorem stage_extensions_nested (name base : string) :
  (accepted_by forge_extensions name = true -> accepted_by crop_extensions name = true) /\
  (accepted_by crop_extensions name = true -> accepted_by valid_extensions name = true) /\
  (accepted_by crop_extensions (base +:+ ".bmp") = true /\
   accepted_by forge_extensions (base +:+ ".bmp") = false) /\
  (accepted_by crop_extensions (base +:+ ".tiff") = true /\
   accepted_by forge_extensions (base +:+ ".tiff") = false) /\
  (accepted_by valid_extensions (base +:+ ".gif") = true /\
   accepted_by crop_extensions (base +:+ ".gif") = false).
Proof.
  split; [apply FsFacts.accepted_forge_crop|]. split.
  { unfold accepted_by, PyStr.endswith_any, crop_extensions, valid_extensions.
    cbn [existsb]. intros H.
    repeat (apply orb_true_iff in H as [H|H]; [rewrite H; now rewrite ?orb_true_r|]).
    discriminate H. }
  assert (Hyes : forall e exts, In e exts -> PyStr.lower e = e ->
            accepted_by exts (base +:+ e) = true).
  { intros e exts He Hlow. unfold accepted_by. rewrite PyStrFacts.lower_app, Hlow.
    now apply PyStrFacts.endswith_any_app. }
  assert (Hsame : forall e suffix, String.length e = String.length suffix ->
            String.eqb e suffix = false ->
            PyStr.endswith (PyStr.lower base +:+ e) suffix = false).
  { intros e suffix Hlen Hne. now rewrite StageFacts.endswith_same_length. }
  assert (Hlong : forall e suffix,
            String.length suffix = S (String.length e) ->
            (forall c, String.eqb (String c e) suffix = false) ->
            PyStr.endswith (PyStr.lower base +:+ e) suffix = false)
    by (intros; now apply StageFacts.endswith_longer_suffix).
  assert (Hshort : forall e suffix, String.length e = S (String.length suffix) ->
            String.eqb (PyStr.drop 1 e) suffix = false ->
            PyStr.endswith (PyStr.lower base +:+ e) suffix = false).
  { intros e suffix Hlen Hne. now rewrite StageFacts.endswith_shorter_suffix. }
  assert (Hno : forall c e suffix, String.eqb e suffix = false ->
            String.eqb (String c e) (String "." suffix) = false).
  { intros c e suffix H. cbn. rewrite H. now destruct (Ascii.eqb c "."). }
  repeat split.
  - apply Hyes; [cbn; tauto|reflexivity].
  - unfold accepted_by, PyStr.endswith_any, forge_extensions. cbn [existsb].
    rewrite PyStrFacts.lower_app. change (PyStr.lower ".bmp") with ".bmp"%string.
    rewrite (Hsame ".bmp" ".png")%string, (Hsame ".bmp" ".jpg")%string,
      (Hlong ".bmp" ".jpeg")%string; try reflexivity.
    intros c. now apply Hno.
  - apply Hyes; [cbn; tauto|reflexivity].
  - unfold accepted_by, PyStr.endswith_any, forge_extensions. cbn [existsb].
    rewrite PyStrFacts.lower_app. change (PyStr.lower ".tiff") with ".tiff"%string.
    rewrite (Hshort ".tiff" ".png")%string, (Hshort ".tiff" ".jpg")%string,
      (Hsame ".tiff" ".jpeg")%string; reflexivity.
  - apply Hyes; [cbn; tauto|reflexivity].
  - unfold accepted_by, PyStr.endswith_any, crop_extensions. cbn [existsb].
    rewrite PyStrFacts.lower_app. change (PyStr.lower ".gif") with ".gif"%string.
    rewrite (Hsame ".gif" ".png")%string, (Hsame ".gif" ".jpg")%string,
      (Hsame ".gif" ".bmp")%string, (Hlong ".gif" ".jpeg")%string,
      (Hlong ".gif" ".tiff")%string; try reflexivity; intros c; now apply Hno.
Qed.

Lemma stage_extensions_nested_witness :
  accepted_by crop_extensions "card.JPG" = true /\
  accepted_by valid_extensions "card.JPG" = true /\
  accepted_by forge_extensions "scan.bmp" = false.
Proof.
  destruct (stage_extensions_nested "card.JPG" "scan") as (H1 & H2 & (_ & H3) & _).
  split; [apply H1; reflexivity|]. split; [apply H2, H1; reflexivity|exact H3].
Defined.

(** Property X19.  When several entries export under one name, the copies
    overwrite each other in listing order and the last one stays: if the
    stage ends without an exception and no entry listed after [last]
    exports under the name of [last], the destination holds the content of
    [last] under that name, whatever was copied under it before. *)
Theorem rename_collision_last_wins (st : fs) (source_folder destination_folder : string)
    (d : dir) (before after : list string) (last : string) (f : file) :
  st !! source_folder = Some d -> source_folder <> destination_folder ->
  listdir d = before ++ last :: after ->
  out_exn (rename_for_forge st source_folder destination_folder) = None ->
  accepted_by forge_extensions last = true -> d !! last = Some f ->
  (forall n, n ∈ after -> accepted_by forge_extensions n = true ->
             new_file_name n <> new_file_name last) ->
  read_file (out_fs (rename_for_forge st source_folder destination_folder))
            destination_folder (new_file_name last) = Some f.
Proof.
  intros Hs Hne Hlist Hnone Hacc Hlast Hafter.
  destruct (FsFacts.forge_stage_fs st _ _ d Hne Hs) as [Hfs Hexn].
  rewrite Hexn in Hnone. rewrite Hfs. clear Hfs Hexn.
  unfold read_file. rewrite lookup_insert_eq. cbn.
  rewrite Hlist in *. rewrite StageFacts.forge_writes_app in *.
  destruct (forge_writes d before) as [ws1 [e|]]; cbn [fst snd] in *; [discriminate Hnone|].
  cbn [forge_writes] in *. rewrite Hacc, Hlast in *.
  assert (Hgo : forall ws3 : list (string * file),
            (forall key g, (key, g) ∈ ws3 -> key <> new_file_name last) ->
            apply_writes (ws1 ++ (new_file_name last, f) :: ws3)
                         (default ∅ (st !! destination_folder)) !! new_file_name last =
              Some f).
  { intros ws3 Hws3. apply StageFacts.apply_writes_lookup_last.
    intros Hin. apply list_elem_of_fmap in Hin as ([key g] & Hkey & Hin). cbn in Hkey.
    subst key. now apply (Hws3 _ _ Hin). }
  assert (Hkeys : forall key g, (key, g) ∈ (forge_writes d after).1 ->
                                key <> new_file_name last).
  { intros key g Hin.
    destruct (StageFacts.forge_writes_keys d after _ _ Hin) as (n & Hn & Hnacc & _ & _ & ->).
    now apply Hafter. }
  destruct (forge_writes d after) as [ws3 e3]. cbn [fst snd] in *.
  destruct f as [img|content|]; [now apply Hgo|now apply Hgo|discriminate Hnone].
Qed.

Lemma rename_collision_last_wins_witness :
  let d : dir := {[ "1.png"%string := ImageFile (Image 670 938 (Original "one"));
                    "2.png"%string := ImageFile (Image 670 938 (Original "two")) ]} in
  let st : fs := {[ "deck/Share"%string := d ]} in
  listdir d = ["1.png"; "2.png"]%string /\
  read_file (out_fs (rename_for_forge st "deck/Share" "deck/Forge"))
            "deck/Forge" ".fullborder.jpg" =
    Some (ImageFile (Image 670 938 (Original "two"))).
Proof.
  intros d st.
  assert (Hlist : listdir d = ["1.png"%string] ++ "2.png"%string :: [])
    by (vm_compute; reflexivity).
  split; [exact Hlist|].
  apply (rename_collision_last_wins st "deck/Share" "deck/Forge" d
           ["1.png"%string] [] "2.png").
  - reflexivity.
  - discriminate.
  - exact Hlist.
  - vm_compute. reflexivity.
  - reflexivity.
  - reflexivity.
  - intros n Hn. inversion Hn.
Defined.

(** Property X20.  When the Print folder exists, the run creates the Share
    folder, and when in addition the Grid Composer does not raise, it
    creates the Forge folder, even if not a single file is written to
    them. *)
Theorem pipeline_creates_folders (abspath : string -> string) (st : fs)
    (project_path : string) (rows cols : Z) (bg : string) (sp k : Z) :
  let print_folder := PyStr.path_join project_path "Print" in
  let share_folder := PyStr.path_join project_path "Share" in
  let forge_folder := PyStr.path_join project_path "Forge" in
  let c := crop_and_downsize_for_share st print_folder share_folder k in
  let g := run_grid_maker abspath (out_fs c) share_folder project_path rows cols bg sp in
  let r := run_image_pipeline abspath st project_path rows cols bg sp k in
  isdir st print_folder = true ->
  isdir (out_fs r) share_folder = true /\
  (out_exn g = None -> isdir (out_fs r) forge_folder = true).
Proof.
  intros print_folder share_folder forge_folder c g r Hprint.
  subst print_folder share_folder forge_folder c g r. unfold isdir in *.
  destruct (st !! PyStr.path_join project_path "Print") as [d|] eqn:Hd;
    [|discriminate Hprint].
  split.
  - rewrite FsFacts.pipeline_share. cbv beta.
    rewrite FsFacts.cropped_share, Hd. reflexivity.
  - intros Hg. rewrite FsFacts.pipeline_forge. cbv beta. rewrite Hg.
    rewrite FsFacts.cropped_share, Hd. reflexivity.
Qed.

Lemma pipeline_creates_folders_witness :
  let st : fs := {[ "deck/Print"%string := (∅ : dir) ]} in
  let r := run_image_pipeline (fun p => p) st "deck" 4 4 "black" 0 3 in
  isdir (out_fs r) "deck/Share" = true /\ isdir (out_fs r) "deck/Forge" = true.
Proof.
  intros st r.
  destruct (pipeline_creates_folders (fun p => p) st "deck" 4 4 "black" 0 3)
    as [Hshare Hforge].
  - reflexivity.
  - split; [exact Hshare|]. apply Hforge. vm_compute. reflexivity.
Defined.
